(** * The random-MIQP benchmark harness of [examples/random_miqp/run_example.py]

    A shallow embedding of the function [solve] and of the Python, numpy,
    scipy and pandas operations it calls.

    - Python [int]s are [Z]; loop counters produced by [range] are [nat].
    - Every [float] of the script is a binary64 value: Rocq's primitive
      [float], whose operations are the IEEE-754 ones (round to nearest even).
    - numpy arrays and Python lists are [list]s; an indexed store
      [a[i] = v] is stdpp's [<[i:=v]>] guarded by the range check numpy does.
    - Exceptions are values of [exn]; code that may raise lives in the
      state-and-error monad [M] over the [world]: the state of numpy's global
      random generator, the state of everything outside the interpreter
      (solver processes, clocks, the terminal) and the log of observable
      events.
    - The libraries the script drives but does not contain (the random
      draws, the two solver backends, the debugger) are the fields of the
      class [Externals]; what their documentation promises is the class
      [NumpyContract]. *)

From Stdlib Require Import ZArith QArith List String Lia Bool Floats Permutation.
From stdpp Require Import base list.
Import ListNotations.

Local Open Scope string_scope.
Local Open Scope list_scope.
Local Open Scope Z_scope.

(** ** Exceptions and results *)

Inductive exn : Type :=
| NameError (name : string)
| IndexError
| ValueError (origin : string)
| ZeroDivisionError
| BdbQuit
| BackendError (what : string).

Inductive outcome (A : Type) : Type :=
| Ok (a : A)
| Raise (e : exn).
Arguments Ok {A} a.
Arguments Raise {A} e.

(** ** Matrices

    scipy's sparse matrices are modelled by their dense contents together
    with their shape (a matrix with no row still has a column count). *)

Record matrix : Type := Matrix {
  nrows : nat;
  ncols : nat;
  entries : list (list float)
}.

Definition tabulate (r c : nat) (f : nat -> nat -> float) : matrix :=
  Matrix r c (map (fun i => map (f i) (seq 0 c)) (seq 0 r)).

Definition mget (a : matrix) (i j : nat) : float :=
  match entries a !! i with
  | Some row => match row !! j with Some x => x | None => 0%float end
  | None => 0%float
  end.

(** [Pt.T] *)
Definition transpose (a : matrix) : matrix :=
  tabulate (ncols a) (nrows a) (fun i j => mget a j i).

(** One entry of a matrix product: the products [a[i,k] * b[k,j]] are
    accumulated for increasing [k]. *)
Definition dot_entry (a b : matrix) (i j : nat) : float :=
  fold_left (fun acc k => (acc + mget a i k * mget b k j)%float)
            (seq 0 (ncols a)) 0%float.

(** [np.dot(a, b)] on two sparse matrices is their matrix product; it raises
    when the inner dimensions differ. *)
Definition np_dot (a b : matrix) : outcome matrix :=
  if Nat.eqb (ncols a) (nrows b)
  then Ok (tabulate (nrows a) (ncols b) (dot_entry a b))
  else Raise (ValueError "dimension mismatch").

(** [spa.csc_matrix(x)] only changes the storage format. *)
Definition csc_matrix (a : matrix) : matrix := a.

(** ** Problem instances and solver results *)

Record instance : Type := Instance {
  inst_P : matrix;
  inst_q : list float;
  inst_A : matrix;
  inst_l : list float;
  inst_u : list float;
  inst_idx : list nat
}.

(** The result object of [mathprogbasepy]: the fields the script reads. *)
Record gurobi_result : Type := GurobiResult {
  g_status : string;
  g_cputime : float
}.

(** The result object of [miosqp.MIOSQP.solve]: the fields the script reads. *)
Record miosqp_result : Type := MiosqpResult {
  mi_status : Z;
  mi_osqp_solve_time : float;
  mi_run_time : float
}.

(** Values of the two settings dictionaries. *)
Inductive pyval : Type :=
| PyFloat (x : float)
| PyInt (k : Z)
| PyBool (b : bool).

Definition settings : Type := list (string * pyval).

(** What the user does at the [ipdb] prompt: resume ([c]) or quit ([q]). *)
Inductive debugger_action : Type := DbgContinue | DbgQuit.

(** ** The libraries around the script *)

Class Externals : Type := {
  (** state of numpy's global Mersenne twister *)
  rng : Type;
  (** state of the world outside the interpreter *)
  ext : Type;
  (** [np.random.seed(s)] for a valid seed *)
  seed_state : Z -> rng;
  (** [np.random.permutation(k)] *)
  draw_permutation : rng -> nat -> list nat * rng;
  (** [spa.random(r, c, density)]: the entries of the drawn matrix *)
  draw_sparse : rng -> nat -> nat -> float -> (nat -> nat -> float) * rng;
  (** [sp.randn(k)]: the entries of the drawn vector *)
  draw_randn : rng -> nat -> (nat -> float) * rng;
  (** [sp.rand(k)]: the entries of the drawn vector *)
  draw_rand : rng -> nat -> (nat -> float) * rng;
  (** [mpbpy.QuadprogProblem(...).solve(solver=mpbpy.GUROBI, verbose=False)] *)
  gurobi_solve : ext -> instance -> outcome gurobi_result * ext;
  (** [miosqp.MIOSQP()], [setup(...)] and [solve()] *)
  miosqp_solve : ext -> instance -> settings -> settings ->
                 outcome miosqp_result * ext;
  (** the constant [miosqp.MI_SOLVED] *)
  MI_SOLVED : Z;
  (** [ipdb.set_trace()]: the interactive session and how it ends *)
  ipdb_session : ext -> debugger_action * ext;
  (** whether a data frame built from a dictionary has its columns in the
      order in which the dictionary was filled (Python 3.6 and later with
      pandas 0.23 and later); on the other interpreters and releases the
      script runs on, pandas sorts the column names *)
  keeps_dict_order : bool
}.

(** ** The world and the monad

    The log records what the script prints, every instance it generates,
    every call of a backend with the instance it is called on, every result
    a backend returns, and every stop in the debugger. *)

Inductive event : Type :=
| EvPrint (text : string) (args : list Z)
| EvGenerated (inst : instance)
| EvSolverCall (backend : string) (inst : instance)
| EvGurobiResult (res : gurobi_result)
| EvMiosqpResult (res : miosqp_result)
| EvBreakpoint.

Section Harness.

Context {E : Externals}.

Record world : Type := World {
  w_rng : rng;
  w_ext : ext;
  w_trace : list event
}.

Definition M (A : Type) : Type := world -> outcome A * world.

Definition ret {A} (a : A) : M A := fun w => (Ok a, w).

Definition raise {A} (e : exn) : M A := fun w => (Raise e, w).

Definition bind {A B} (c : M A) (k : A -> M B) : M B :=
  fun w => match c w with
           | (Ok a, w') => k a w'
           | (Raise e, w') => (Raise e, w')
           end.

Definition lift {A} (o : outcome A) : M A := fun w => (o, w).

Definition emit (ev : event) : M unit :=
  fun w => (Ok tt, World (w_rng w) (w_ext w) (w_trace w ++ [ev])).

(** A draw from numpy's global generator. *)
Definition draw {A} (f : rng -> A * rng) : M A :=
  fun w => (Ok (fst (f (w_rng w))),
            World (snd (f (w_rng w))) (w_ext w) (w_trace w)).

(** A call that leaves the interpreter. *)
Definition extern {A} (f : ext -> A * ext) : M A :=
  fun w => (Ok (fst (f (w_ext w))),
            World (w_rng w) (snd (f (w_ext w))) (w_trace w)).

End Harness.

Notation "x <- c ;; k" := (bind c (fun x => k))
  (at level 100, c at next level, right associativity).
Notation "c ;;; k" := (bind c (fun _ => k))
  (at level 100, right associativity).

(** ** numpy, scipy and pandas operations *)

Definition is_nan (x : float) : bool := negb (x =? x)%float.

(** [np.zeros(k)] *)
Definition np_zeros (k : Z) : outcome (list float) :=
  if k <? 0 then Raise (ValueError "np.zeros")
  else Ok (replicate (Z.to_nat k) 0%float).

(** [a[i]] for [i] produced by [range] *)
Definition get_item {A} (a : list A) (i : nat) : outcome A :=
  match a !! i with
  | Some x => Ok x
  | None => Raise IndexError
  end.

(** [a[i] = v] on a numpy array *)
Definition set_item {A} (a : list A) (i : nat) (v : A) : outcome (list A) :=
  if (i <? length a)%nat then Ok (<[i:=v]> a) else Raise IndexError.

(** The conversion of an element count to binary64. *)
Definition float_of_nat (k : nat) : float :=
  of_uint63 (Uint63.of_Z (Z.of_nat k)).

(** [np.add.reduce] on a contiguous array of binary64 numbers is numpy's
    pairwise summation.  Fewer than 8 elements are added one after the
    other.  A block of 8 to 128 elements is added in eight running sums,
    which take the elements eight at a time and are then added up as a
    balanced tree; the elements left over are added to that one after the
    other.  A longer array is cut in two at a multiple of 8 near its middle
    and the sums of the two parts are added.  The sum of no element is 0;
    a sum of elements starts from the elements themselves, as in the numpy
    releases that start from -0.0 (earlier ones start from 0.0, which makes
    a difference only for the sign of a sum that is a zero). *)
Fixpoint sum_in_eights (groups : nat) (r xs : list float)
  : list float * list float :=
  match groups with
  | O => (r, xs)
  | S g => sum_in_eights g (zip_with PrimFloat.add r (take 8 xs)) (drop 8 xs)
  end.

Definition block_sum (xs : list float) : float :=
  let '(r, rest) :=
    sum_in_eights (length xs / 8 - 1) (take 8 xs) (drop 8 xs) in
  let res :=
    match r with
    | [r0; r1; r2; r3; r4; r5; r6; r7] =>
        (((r0 + r1) + (r2 + r3)) + ((r4 + r5) + (r6 + r7)))%float
    | _ => 0%float
    end in
  fold_left PrimFloat.add rest res.

(** [fuel] bounds the number of cuts; the length of the array is enough
    (lemma [pairwise_sum_unfold]). *)
Fixpoint pairwise_sum (fuel : nat) (xs : list float) : float :=
  match fuel with
  | O => block_sum xs
  | S fuel' =>
      if (length xs <=? 128)%nat then block_sum xs
      else
        let half := (length xs / 2)%nat in
        let n2 := (half - half mod 8)%nat in
        (pairwise_sum fuel' (take n2 xs) + pairwise_sum fuel' (drop n2 xs))%float
  end.

Definition np_sum (xs : list float) : float :=
  if (length xs <? 8)%nat then
    match xs with
    | [] => 0%float
    | x :: r => fold_left PrimFloat.add r x
    end
  else pairwise_sum (length xs) xs.

(** [np.mean(xs)]: the sum divided by the count; on an empty array this is
    [0/0], a NaN, and numpy only warns. *)
Definition np_mean (xs : list float) : float :=
  (np_sum xs / float_of_nat (length xs))%float.

(** [np.maximum] and [np.minimum] propagate NaN. *)
Definition np_maximum (a b : float) : float :=
  if (b <=? a)%float || is_nan a then a else b.

Definition np_minimum (a b : float) : float :=
  if (a <=? b)%float || is_nan a then a else b.

(** [np.max(xs)] and [np.min(xs)] raise on an empty array. *)
Definition np_max (xs : list float) : outcome float :=
  match xs with
  | [] => Raise (ValueError "np.max")
  | x :: r => Ok (fold_left np_maximum r x)
  end.

Definition np_min (xs : list float) : outcome float :=
  match xs with
  | [] => Raise (ValueError "np.min")
  | x :: r => Ok (fold_left np_minimum r x)
  end.

(** True division of two Python floats. *)
Definition py_div (a b : float) : outcome float :=
  if (b =? 0)%float then Raise ZeroDivisionError else Ok (a / b)%float.

(** A pandas data frame: named columns of one common length, in the order
    pandas gives them. *)
Inductive column : Type :=
| IntColumn (xs : list Z)
| FloatColumn (xs : list float).

Definition column_length (c : column) : nat :=
  match c with
  | IntColumn xs => length xs
  | FloatColumn xs => length xs
  end.

Definition DataFrame : Type := list (string * column).

(** The columns of a dictionary sorted by name, as pandas sorts the keys of
    a dictionary whose order it does not keep. *)
Fixpoint insert_column (kc : string * column) (l : list (string * column))
  : list (string * column) :=
  match l with
  | [] => [kc]
  | kc' :: l' =>
      if String.leb (fst kc) (fst kc') then kc :: l
      else kc' :: insert_column kc l'
  end.

Definition sort_columns (d : list (string * column))
  : list (string * column) :=
  fold_right insert_column [] d.

(** [pd.DataFrame(d)] for a dictionary [d], given here by its items in the
    order in which it was filled.  It raises when the columns differ in
    length.  The columns of the frame are in the order of [d] when
    [keeps_order] holds and sorted by name otherwise. *)
Definition pd_DataFrame (keeps_order : bool) (d : list (string * column))
  : outcome DataFrame :=
  match d with
  | [] => Ok []
  | (_, c) :: r =>
      if forallb (fun kc => Nat.eqb (column_length (snd kc)) (column_length c)) r
      then Ok (if keeps_order then d else sort_columns d)
      else Raise (ValueError "pd.DataFrame")
  end.

(** ** [miosqp.add_bounds] *)

Definition unit_row (n i : nat) : list float :=
  map (fun j => if Nat.eqb j i then 1%float else 0%float) (seq 0 n).

(** The two rows one restricted variable contributes: [l_new <= x_i] and
    [x_i <= u_new], each with its other side unbounded. *)
Definition bound_rows (n : nat) (l_new u_new : float) (i : nat)
  : list (list float * (float * float)) :=
  [ (unit_row n i, (l_new, infinity));
    (unit_row n i, (neg_infinity, u_new)) ].

(** Modelled from the spec: [miosqp.add_bounds] belongs to the package and
    is not among the sources of the example.  The bounds on the restricted
    indices are injected as two additional constraint rows per restricted
    variable (one for the lower bound, one for the upper bound) appended to
    the existing constraint system. *)
Definition add_bounds (i_idx : list nat) (l_new u_new : float)
  (A : matrix) (l u : list float) : matrix * list float * list float :=
  let added := flat_map (bound_rows (ncols A) l_new u_new) i_idx in
  (Matrix (nrows A + length added) (ncols A) (entries A ++ map fst added),
   l ++ map (fun r => fst (snd r)) added,
   u ++ map (fun r => snd (snd r)) added).

Set Warnings "-inexact-float".

(** The two dictionaries passed to [MIOSQP.setup]. *)
Definition miosqp_settings : settings :=
  [ ("eps_int_feas", PyFloat 1e-03%float);
    ("max_iter_bb", PyInt 1000);
    ("tree_explor_rule", PyInt 1);
    ("branching_rule", PyInt 0);
    ("verbose", PyBool false);
    ("print_interval", PyInt 1) ].

Definition osqp_settings : settings :=
  [ ("eps_abs", PyFloat 1e-04%float);
    ("eps_rel", PyFloat 1e-04%float);
    ("eps_inf", PyFloat 1e-04%float);
    ("rho", PyFloat 0.005%float);
    ("sigma", PyFloat 0.01%float);
    ("alpha", PyFloat 1.5%float);
    ("polish", PyBool false);
    ("max_iter", PyInt 2000);
    ("verbose", PyBool false) ].

(** The local arrays of one configuration. *)
Record samples : Type := Samples {
  solve_time_temp : list float;
  osqp_solve_time_temp : option (list float)
}.

(** The statistics arrays of the sweep. *)
Record statistics : Type := Statistics {
  avg_solve_time : list float;
  min_solve_time : list float;
  max_solve_time : list float;
  avg_osqp_solve_time : option (list float);
  min_osqp_solve_time : option (list float);
  max_osqp_solve_time : option (list float)
}.

Section Solve.

Context {E : Externals}.

(** A [for] loop over [xs] whose body updates the local variables [s]. *)
Fixpoint for_each {A S} (xs : list A) (body : A -> S -> M S) (s : S) : M S :=
  match xs with
  | [] => ret s
  | x :: xs' => s' <- body x s ;; for_each xs' body s'
  end.

(** Reading a local variable that is bound only on the [miosqp] path. *)
Definition local {A} (name : string) (v : option A) : M A :=
  match v with
  | Some a => ret a
  | None => raise (NameError name)
  end.

(** [np.random.seed(seed)]: the seed must fit 32 unsigned bits. *)
Definition np_random_seed (seed : Z) : M unit :=
  if (0 <=? seed) && (seed <? 2 ^ 32)
  then fun w => (Ok tt, World (seed_state seed) (w_ext w) (w_trace w))
  else raise (ValueError "np.random.seed").

(** [np.random.choice(np.arange(0, n), p, replace=False)]: the first [p]
    entries of a random permutation of the population, which is empty when
    [n <= 0].  The model follows the numpy releases that test the size for
    its sign: they raise on an empty population unless the size is 0, on a
    size above the population and on a negative size.  Earlier releases
    raise on every empty population and have no test for a negative size;
    all releases raise on a positive size above the population. *)
Definition np_random_choice (n p : Z) : M (list nat) :=
  let pop := Z.to_nat n in
  if ((pop =? 0)%nat && negb (p =? 0)) || (Z.of_nat pop <? p) || (p <? 0)
  then raise (ValueError "np.random.choice")
  else perm <- draw (fun r => draw_permutation r pop) ;;
       ret (take (Z.to_nat p) perm).

(** [spa.random(r, c, density=dns)] *)
Definition spa_random (r c : Z) (dns : float) : M matrix :=
  if (r <? 0) || (c <? 0) || negb ((0 <=? dns)%float && (dns <=? 1)%float)
  then raise (ValueError "scipy.sparse.random")
  else f <- draw (fun st => draw_sparse st (Z.to_nat r) (Z.to_nat c) dns) ;;
       ret (tabulate (Z.to_nat r) (Z.to_nat c) f).

(** [sp.randn(k)] *)
Definition sp_randn (k : Z) : M (list float) :=
  if k <? 0 then raise (ValueError "np.random.randn")
  else f <- draw (fun st => draw_randn st (Z.to_nat k)) ;;
       ret (map f (seq 0 (Z.to_nat k))).

(** [sp.rand(k)] *)
Definition sp_rand (k : Z) : M (list float) :=
  if k <? 0 then raise (ValueError "np.random.rand")
  else f <- draw (fun st => draw_rand st (Z.to_nat k)) ;;
       ret (map f (seq 0 (Z.to_nat k))).

(** [import ipdb; ipdb.set_trace()] *)
Definition ipdb_set_trace : M unit :=
  emit EvBreakpoint ;;;
  a <- extern ipdb_session ;;
  match a with
  | DbgContinue => ret tt
  | DbgQuit => raise BdbQuit
  end.

(** Lines 68-79: one random instance. *)
Definition generate (n m p : Z) (dns_level : float) : M instance :=
  i_idx <- np_random_choice n p ;;
  Pt <- spa_random n n dns_level ;;
  P0 <- lift (np_dot (transpose Pt) Pt) ;;
  let P := csc_matrix P0 in
  q <- sp_randn n ;;
  A <- spa_random m n dns_level ;;
  ru <- sp_rand m ;;
  let u := map (fun x => (1 + x)%float) ru in
  rl <- sp_rand m ;;
  let l := map (fun x => (-1 + x)%float) rl in
  let '(A', l', u') := add_bounds i_idx 0%float 1%float A l u in
  let inst := Instance P q A' l' u' i_idx in
  emit (EvGenerated inst) ;;;
  ret inst.

(** Lines 81-87: the [gurobi] path of one repetition. *)
Definition solve_gurobi (inst : instance) (j : nat) (s : samples) : M samples :=
  emit (EvSolverCall "gurobi" inst) ;;;
  r <- extern (fun x => gurobi_solve x inst) ;;
  res_gurobi <- lift r ;;
  emit (EvGurobiResult res_gurobi) ;;;
  (if negb (String.eqb (g_status res_gurobi) "optimal")
   then ipdb_set_trace else ret tt) ;;;
  t <- lift (set_item (solve_time_temp s) j (1000 * g_cputime res_gurobi)%float) ;;
  ret (Samples t (osqp_solve_time_temp s)).

(** Lines 89-121: the [miosqp] path of one repetition. *)
Definition solve_miosqp (inst : instance) (j : nat) (s : samples) : M samples :=
  emit (EvSolverCall "miosqp" inst) ;;;
  r <- extern (fun x => miosqp_solve x inst miosqp_settings osqp_settings) ;;
  res_miosqp <- lift r ;;
  emit (EvMiosqpResult res_miosqp) ;;;
  (if negb (mi_status res_miosqp =? MI_SOLVED)
   then ipdb_set_trace else ret tt) ;;;
  o <- local "osqp_solve_time_temp" (osqp_solve_time_temp s) ;;
  ratio <- lift (py_div (mi_osqp_solve_time res_miosqp) (mi_run_time res_miosqp)) ;;
  o' <- lift (set_item o j (100 * ratio)%float) ;;
  t <- lift (set_item (solve_time_temp s) j (1000 * mi_run_time res_miosqp)%float) ;;
  ret (Samples t (Some o')).

(** Lines 65-121: the body of the loop over the repetitions. *)
Definition repetition (solver : string) (n m p : Z) (dns_level : float)
  (j : nat) (s : samples) : M samples :=
  inst <- generate n m p dns_level ;;
  if String.eqb solver "gurobi" then solve_gurobi inst j s
  else if String.eqb solver "miosqp" then solve_miosqp inst j s
  else ret s.

(** Lines 124-127: mean, maximum and minimum of the samples, in this order. *)
Definition aggregate (xs : list float) : outcome (float * float * float) :=
  let avg := np_mean xs in
  match np_max xs with
  | Raise e => Raise e
  | Ok mx =>
      match np_min xs with
      | Raise e => Raise e
      | Ok mn => Ok (avg, mx, mn)
      end
  end.

(** Storing one aggregate at index [i] of the three arrays. *)
Definition store3 (i : nat) (v : float * float * float)
  (avg mx mn : list float) : outcome (list float * list float * list float) :=
  let '(a, b, c) := v in
  match set_item avg i a with
  | Raise e => Raise e
  | Ok avg' =>
      match set_item mx i b with
      | Raise e => Raise e
      | Ok mx' =>
          match set_item mn i c with
          | Raise e => Raise e
          | Ok mn' => Ok (avg', mx', mn')
          end
      end
  end.

(** Lines 50-132: the body of the loop over the configurations. *)
Definition configuration (n_vec m_vec p_vec : list Z) (repeat : Z)
  (dns_level : float) (solver : string) (i : nat) (st : statistics)
  : M statistics :=
  n <- lift (get_item n_vec i) ;;
  m <- lift (get_item m_vec i) ;;
  p <- lift (get_item p_vec i) ;;
  emit (EvPrint "problem n = %i, m = %i, p = %i" [n; m; p]) ;;;
  t0 <- lift (np_zeros repeat) ;;
  o0 <- (if String.eqb solver "miosqp"
         then z <- lift (np_zeros repeat) ;; ret (Some z)
         else ret None) ;;
  s <- for_each (seq 0 (Z.to_nat repeat))
                (repetition solver n m p dns_level) (Samples t0 o0) ;;
  a <- lift (aggregate (solve_time_temp s)) ;;
  r <- lift (store3 i a (avg_solve_time st) (max_solve_time st)
                     (min_solve_time st)) ;;
  let '(avg, mx, mn) := r in
  if String.eqb solver "miosqp" then
    o <- local "osqp_solve_time_temp" (osqp_solve_time_temp s) ;;
    oavg <- local "avg_osqp_solve_time" (avg_osqp_solve_time st) ;;
    omx <- local "max_osqp_solve_time" (max_osqp_solve_time st) ;;
    omn <- local "min_osqp_solve_time" (min_osqp_solve_time st) ;;
    b <- lift (aggregate o) ;;
    r' <- lift (store3 i b oavg omx omn) ;;
    let '(oavg', omx', omn') := r' in
    ret (Statistics avg mn mx (Some oavg') (Some omn') (Some omx'))
  else
    ret (Statistics avg mn mx (avg_osqp_solve_time st)
                    (min_osqp_solve_time st) (max_osqp_solve_time st)).

(** Lines 136-149: the dictionary of columns, given by its items in the
    order in which the script fills it. *)
Definition df_dict (n_vec m_vec p_vec : list Z) (solver : string)
  (st : statistics) : M (list (string * column)) :=
  let d := [ ("n", IntColumn n_vec);
             ("m", IntColumn m_vec);
             ("p", IntColumn p_vec);
             ("t_min[ms]", FloatColumn (min_solve_time st));
             ("t_max[ms]", FloatColumn (max_solve_time st));
             ("t_avg[ms]", FloatColumn (avg_solve_time st)) ] in
  if String.eqb solver "miosqp" then
    omn <- local "min_osqp_solve_time" (min_osqp_solve_time st) ;;
    omx <- local "max_osqp_solve_time" (max_osqp_solve_time st) ;;
    oavg <- local "avg_osqp_solve_time" (avg_osqp_solve_time st) ;;
    ret (d ++ [ ("t_osqp_min[%]", FloatColumn omn);
                ("t_osqp_max[%]", FloatColumn omx);
                ("t_osqp_avg[%]", FloatColumn oavg) ])
  else ret d.

(** The statistics arrays as lines 37-45 create them. *)
Definition initial_statistics (n_vec : list Z) (solver : string) : statistics :=
  let z := replicate (length n_vec) 0%float in
  if String.eqb solver "miosqp"
  then Statistics z z z (Some z) (Some z) (Some z)
  else Statistics z z z None None None.

(** The function [solve].  [n_prob] is the module-level global of that name,
    [None] when it is not bound. *)
Definition solve (n_prob : option Z) (n_vec m_vec p_vec : list Z) (repeat : Z)
  (dns_level : float) (seed : Z) (solver : string) : M DataFrame :=
  emit (EvPrint (String.append "Solving random problems with solver " solver) []) ;;;
  let st0 := initial_statistics n_vec solver in
  np_random_seed seed ;;;
  k <- local "n_prob" n_prob ;;
  st <- for_each (seq 0 (Z.to_nat k))
                 (configuration n_vec m_vec p_vec repeat dns_level solver) st0 ;;
  d <- df_dict n_vec m_vec p_vec solver st ;;
  timings <- lift (pd_DataFrame keeps_dict_order d) ;;
  ret timings.

End Solve.

(** ** The script run as a program

    Lines 156-190, the block under [if __name__ == "__main__"]. *)

(** The arrays of lines 165-174.  With a [problem_set] other than 1 and 2
    neither branch runs and the three names stay unbound.  [5 * n_arr]
    multiplies a numpy array entry by entry. *)
Definition problem_arrays (problem_set : Z)
  : option (list Z * list Z * list Z) :=
  if problem_set =? 1 then
    Some ([10; 10; 50; 50; 100; 100; 150; 150],
          [5; 100; 25; 200; 50; 200; 100; 300],
          [2; 2; 5; 10; 2; 15; 5; 20])
  else if problem_set =? 2 then
    let n_arr := [2; 4; 8; 12; 20; 25; 30; 35] in
    Some (n_arr, map (Z.mul 5) n_arr, n_arr)
  else None.

(** What a [print] call of lines 186-190 writes: a line of text or the
    rendering of a data frame. *)
Inductive printed : Type :=
| PrintedLine (text : string)
| PrintedFrame (df : DataFrame).

Section Main.

Context {E : Externals}.

(** The block, with the four settings of lines 159-162 as parameters.  The
    global [n_prob] is bound by line 176 before [solve] is called.  The
    value of the block is what its four [print] calls write once both
    sweeps have returned (the newline before each header is left out). *)
Definition main_block (n_repeat problem_set : Z) (density_level : float)
  (random_seed : Z) : M (list printed) :=
  arrays <- local "n_arr" (problem_arrays problem_set) ;;
  let '(n_arr, m_arr, p_arr) := arrays in
  let n_prob := Z.of_nat (length n_arr) in
  timings_gurobi <- solve (Some n_prob) n_arr m_arr p_arr n_repeat
                          density_level random_seed "gurobi" ;;
  timings_miosqp <- solve (Some n_prob) n_arr m_arr p_arr n_repeat
                          density_level random_seed "miosqp" ;;
  ret [ PrintedLine "Results GUROBI"; PrintedFrame timings_gurobi;
        PrintedLine "Results MIOSQP"; PrintedFrame timings_miosqp ].

(** The block with the settings the script has. *)
Definition main : M (list printed) := main_block 10 1 0.6%float 0.

End Main.

(** ** What the libraries promise *)

(** numpy's documentation: [permutation(k)] is a rearrangement of
    [0, ..., k-1], and [rand] draws from the half-open interval [[0, 1)]. *)
Class NumpyContract (E : Externals) : Prop := {
  permutation_spec : forall st k,
    Permutation (fst (draw_permutation st k)) (seq 0 k);
  rand_spec : forall st k i,
    (0 <=? fst (draw_rand st k) i)%float = true /\
    (fst (draw_rand st k) i <? 1)%float = true
}.

(** The results of the backends and the end of a debugger session do not
    depend on the state of the outside world. *)
Definition deterministic_externals (E : Externals) : Prop :=
  (forall x1 x2 inst, fst (gurobi_solve x1 inst) = fst (gurobi_solve x2 inst)) /\
  (forall x1 x2 inst s1 s2,
      fst (miosqp_solve x1 inst s1 s2) = fst (miosqp_solve x2 inst s1 s2)) /\
  (forall x1 x2, fst (ipdb_session x1) = fst (ipdb_session x2)).

(** ** Reading the event log and the report *)

Definition generated_instances (tr : list event) : list instance :=
  flat_map (fun ev => match ev with EvGenerated i => [i] | _ => [] end) tr.

Definition solver_calls (tr : list event) : list string :=
  flat_map (fun ev => match ev with EvSolverCall b _ => [b] | _ => [] end) tr.

(** The calls of the backends, each with the instance it was made on. *)
Definition calls (tr : list event) : list (string * instance) :=
  flat_map (fun ev => match ev with
                      | EvSolverCall b inst => [(b, inst)]
                      | _ => []
                      end) tr.

Definition gurobi_results (tr : list event) : list gurobi_result :=
  flat_map (fun ev => match ev with EvGurobiResult r => [r] | _ => [] end) tr.

Definition miosqp_results (tr : list event) : list miosqp_result :=
  flat_map (fun ev => match ev with EvMiosqpResult r => [r] | _ => [] end) tr.

Definition breakpoints (tr : list event) : nat :=
  length (flat_map (fun ev => match ev with EvBreakpoint => [tt] | _ => [] end) tr).

(** The configurations announced by line 57, in the order they were visited. *)
Definition visited (tr : list event) : list (list Z) :=
  flat_map (fun ev => match ev with
                      | EvPrint "problem n = %i, m = %i, p = %i" args => [args]
                      | _ => []
                      end) tr.

Definition df_column (df : DataFrame) (name : string) : option column :=
  snd <$> List.find (fun kc => String.eqb (fst kc) name) df.

Definition df_int (df : DataFrame) (name : string) (i : nat) : option Z :=
  match df_column df name with
  | Some (IntColumn xs) => xs !! i
  | _ => None
  end.

Definition df_float (df : DataFrame) (name : string) (i : nat) : option float :=
  match df_column df name with
  | Some (FloatColumn xs) => xs !! i
  | _ => None
  end.

(** The number of rows: the common length of the columns. *)
Definition df_nrows (df : DataFrame) : nat :=
  match df with
  | [] => 0%nat
  | (_, c) :: _ => column_length c
  end.

(** ** Scripted libraries

    A deterministic stand-in for the libraries, to run the harness on
    concrete inputs: the generator state counts the draws, the outside state
    counts the solver calls, and every draw and every solver result is read
    from a script. *)

Record script : Type := Script {
  sc_sparse : nat -> nat -> nat -> float;
  sc_rand : nat -> nat -> float;
  sc_gurobi : nat -> outcome gurobi_result;
  sc_miosqp : nat -> outcome miosqp_result;
  sc_debugger : debugger_action
}.

Definition scripted (s : script) : Externals := {|
  rng := nat;
  ext := nat;
  seed_state := fun z => Z.to_nat z;
  draw_permutation := fun st k =>
    (if Nat.odd st then rev (seq 0 k) else seq 0 k, S st);
  draw_sparse := fun st r c d => (sc_sparse s st, S st);
  draw_randn := fun st k => (fun _ => 0.5%float, S st);
  draw_rand := fun st k => (sc_rand s st, S st);
  gurobi_solve := fun x inst => (sc_gurobi s x, S x);
  miosqp_solve := fun x inst _ _ => (sc_miosqp s x, S x);
  MI_SOLVED := 11;
  ipdb_session := fun x => (sc_debugger s, x);
  keeps_dict_order := true
|}.

(** The same libraries under an interpreter whose dictionaries keep no
    order. *)
Definition sorting (E : Externals) : Externals := {|
  rng := @rng E;
  ext := @ext E;
  seed_state := @seed_state E;
  draw_permutation := @draw_permutation E;
  draw_sparse := @draw_sparse E;
  draw_randn := @draw_randn E;
  draw_rand := @draw_rand E;
  gurobi_solve := @gurobi_solve E;
  miosqp_solve := @miosqp_solve E;
  MI_SOLVED := @MI_SOLVED E;
  ipdb_session := @ipdb_session E;
  keeps_dict_order := false
|}.

(** The world a scripted run starts from. *)
Definition scripted_world (s : script) (r x : nat) : @world (scripted s) :=
  @World (scripted s) r x [].

(** A script in which every solve is optimal and takes a tenth of a
    millisecond; the draws change with the state of the generator. *)
Definition calm : script :=
  Script (fun st i j => if Nat.eqb i j
                        then nth ((st + i) mod 4)
                                 [0.5%float; 0.25%float; 0.75%float; 0.125%float]
                                 0.5%float
                        else 0%float)
         (fun st i => nth ((st + i) mod 4)
                          [0.25%float; 0.5%float; 0.75%float; 0.125%float]
                          0.25%float)
         (fun _ => Ok (GurobiResult "optimal" 0x1.a36e2eb1c432dp-14%float))
         (fun _ => Ok (MiosqpResult 11 0x1.a36e2eb1c432dp-15%float
                                    0x1.a36e2eb1c432dp-14%float))
         DbgContinue.

(** A script in which no solve reaches an optimum: Gurobi reports
    [status], MIOSQP reports a status other than [MI_SOLVED], and the user
    answers the debugger with [dbg]. *)
Definition troubled (status : string) (dbg : debugger_action) : script :=
  Script (sc_sparse calm) (sc_rand calm)
         (fun _ => Ok (GurobiResult status 0x1.a36e2eb1c432dp-14%float))
         (fun _ => Ok (MiosqpResult 12 0x1.a36e2eb1c432dp-15%float
                                    0x1.a36e2eb1c432dp-14%float))
         dbg.

(** A script whose uniform draws are all 0, the least value of [[0, 1)]. *)
Definition edge : script :=
  Script (sc_sparse calm) (fun _ _ => 0%float) (sc_gurobi calm)
         (sc_miosqp calm) DbgContinue.

(** A script whose first sparse draw has its two non-zero entries, 0.5 and
    0.7, in the first row. *)
Definition skewed : script :=
  Script (fun st i j =>
            if Nat.eqb st 1
            then if Nat.eqb i 0
                 then if Nat.eqb j 0 then 0.5%float
                      else 0x1.6666666666666p-1%float
                 else 0%float
            else if Nat.eqb i j then 0.5%float else 0%float)
         (sc_rand calm) (sc_gurobi calm) (sc_miosqp calm) DbgContinue.

(** The instance the scripted libraries generate for [n = 4], [m = 2],
    [p = 2], and the world after it. *)
Definition small_run : outcome instance * @world (scripted calm) :=
  Eval vm_compute in
    generate (E:=scripted calm) 4 2 2 0.6%float (scripted_world calm 1 0).

Definition small_instance : instance :=
  Eval vm_compute in
    match fst small_run with
    | Ok inst => inst
    | Raise _ => Instance (Matrix 0 0 []) [] (Matrix 0 0 []) [] [] []
    end.

Definition skewed_instance : instance :=
  Eval vm_compute in
    match fst (generate (E:=scripted skewed) 2 1 1 0.6%float
                        (scripted_world skewed 0 0)) with
    | Ok inst => inst
    | Raise _ => small_instance
    end.

(** The sweep of the spec's end-to-end example on the scripted libraries:
    one configuration (10, 5, 2), three repetitions, each solve taking a
    tenth of a millisecond. *)
Definition example_run : outcome DataFrame * @world (scripted calm) :=
  Eval vm_compute in
    solve (E:=scripted calm) (Some 1) [10] [5] [2] 3 0.6%float 0 "gurobi"
          (scripted_world calm 0 0).

Definition example_report : DataFrame :=
  [ ("n", IntColumn [10]); ("m", IntColumn [5]); ("p", IntColumn [2]);
    ("t_min[ms]", FloatColumn [0x1.999999999999ap-4%float]);
    ("t_max[ms]", FloatColumn [0x1.999999999999ap-4%float]);
    ("t_avg[ms]", FloatColumn [0x1.999999999999bp-4%float]) ].

(** * Notions used in the statements *)

(** The samples a configuration starts from. *)
Definition fresh_samples (repeat : Z) (solver : string) : samples :=
  let z := replicate (Z.to_nat repeat) 0%float in
  Samples z (if String.eqb solver "miosqp" then Some z else None).

(** The declared configurations, as line 57 prints them. *)
Definition configurations (n_vec m_vec p_vec : list Z) : list (list Z) :=
  zip_with (fun n mp => [n; fst mp; snd mp]) n_vec (zip m_vec p_vec).

(** The densities [spa.random] accepts. *)
Definition valid_density (dns : float) : bool :=
  (0 <=? dns)%float && (dns <=? 1)%float.

(** The random vectors of bounds of lines 75 and 76. *)
Definition upper_bounds (r : nat -> float) (m : nat) : list float :=
  map (fun x => (1 + x)%float) (map r (seq 0 m)).

Definition lower_bounds (r : nat -> float) (m : nat) : list float :=
  map (fun x => (-1 + x)%float) (map r (seq 0 m)).

(** A constraint row: its coefficients and its two bounds. *)
Definition constraint_rows (inst : instance)
  : list (list float * (float * float)) :=
  zip (entries (inst_A inst)) (zip (inst_l inst) (inst_u inst)).

(** Variable [i] appears in a row when its coefficient there is not zero. *)
Definition mentions (i : nat) (row : list float * (float * float)) : bool :=
  match fst row !! i with
  | Some x => negb (x =? 0)%float
  | None => false
  end.

Section Notions.

Context {E : Externals}.

(** A relation between the world before and after that every step of a
    computation maintains. *)
Definition keeps {A} (P : world -> world -> Prop) (c : M A) : Prop :=
  forall w, P w (snd (c w)).

(** Two worlds whose logs read the same through [f]. *)
Definition same_on {X} (f : list event -> X) (w w' : world) : Prop :=
  f (w_trace w') = f (w_trace w).

(** The world after line 57. *)
Definition announced (n m p : Z) (w : world) : world :=
  World (w_rng w) (w_ext w)
        (w_trace w ++ [EvPrint "problem n = %i, m = %i, p = %i" [n; m; p]]).

(** The world after lines 34-48. *)
Definition seeded (seed : Z) (solver : string) (w : world) : world :=
  World (seed_state seed) (w_ext w)
        (w_trace w ++
         [EvPrint (String.append "Solving random problems with solver " solver) []]).

(** The loop of lines 50-132 over the first [k] configurations. *)
Definition sweep (n_vec m_vec p_vec : list Z) (repeat : Z) (dns : float)
  (solver : string) (k : Z) : M statistics :=
  for_each (seq 0 (Z.to_nat k))
           (configuration n_vec m_vec p_vec repeat dns solver)
           (initial_statistics n_vec solver).

(** No backend was called between two worlds. *)
Definition no_call : world -> world -> Prop := same_on solver_calls.

(** What holds after the first [d] configurations. *)
Record swept (n_vec m_vec p_vec : list Z) (repeat : Z) (dns : float)
  (solver : string) (w0 : world) (d : nat) (st : statistics) (w : world)
  : Prop := Swept {
  swept_visited :
    visited (w_trace w)
    = visited (w_trace w0) ++ take d (configurations n_vec m_vec p_vec);
  swept_bound : (d <= length n_vec)%nat;
  swept_avg_length : length (avg_solve_time st) = length n_vec;
  swept_max_length : length (max_solve_time st) = length n_vec;
  swept_min_length : length (min_solve_time st) = length n_vec;
  swept_untouched : forall i, (d <= i < length n_vec)%nat ->
    avg_solve_time st !! i = Some 0%float /\
    max_solve_time st !! i = Some 0%float /\
    min_solve_time st !! i = Some 0%float
}.

(** Two worlds with the same generator state and the same log; the states
    of the outside world may differ. *)
Definition aligned (w1 w2 : world) : Prop :=
  w_rng w1 = w_rng w2 /\ w_trace w1 = w_trace w2.

(** A computation that cannot tell two aligned worlds apart. *)
Definition agree {A} (c : M A) : Prop :=
  forall w1 w2, aligned w1 w2 ->
    fst (c w1) = fst (c w2) /\ aligned (snd (c w1)) (snd (c w2)).

(** What a call of Gurobi on [inst] that returns [res] writes to the log,
    and the same for MIOSQP. *)
Definition gurobi_events (inst : instance) (res : gurobi_result) : list event :=
  [EvSolverCall "gurobi" inst; EvGurobiResult res].

Definition miosqp_events (inst : instance) (res : miosqp_result) : list event :=
  [EvSolverCall "miosqp" inst; EvMiosqpResult res].

(** The world after a backend call that wrote [evs] and ended in the
    debugger. *)
Definition after_breakpoint (evs : list event) (x : ext) (w : world) : world :=
  World (w_rng w) (snd (ipdb_session x)) (w_trace w ++ evs ++ [EvBreakpoint]).

(** The world after a backend call that wrote [evs] and went on directly. *)
Definition after_call (evs : list event) (x : ext) (w : world) : world :=
  World (w_rng w) x (w_trace w ++ evs).

(** What a repetition of the configuration [(n, m, p)] that goes through
    writes to the log, and the sample it records.  The repetition generates
    an instance [inst] for the configuration.  With a backend it then calls
    the backend on [inst], gets a result [res] for it and, when the status
    of [res] is not the optimal one, stops in the debugger, in a session
    that is resumed; the sample is 1000 times the time of [res].  With a
    tag that names no backend the sample is the initial 0. *)
Definition repetition_logged (solver : string) (n m p : Z) (dns : float)
  (evs : list event) (t : float) : Prop :=
  exists inst w0 w1,
    generate n m p dns w0 = (Ok inst, w1) /\
    if String.eqb solver "gurobi" then
      exists x res x',
        gurobi_solve x inst = (Ok res, x') /\
        t = (1000 * g_cputime res)%float /\
        if String.eqb (g_status res) "optimal"
        then evs = EvGenerated inst :: gurobi_events inst res
        else evs = EvGenerated inst :: gurobi_events inst res ++ [EvBreakpoint] /\
             fst (ipdb_session x') = DbgContinue
    else if String.eqb solver "miosqp" then
      exists x res x',
        miosqp_solve x inst miosqp_settings osqp_settings = (Ok res, x') /\
        t = (1000 * mi_run_time res)%float /\
        if mi_status res =? MI_SOLVED
        then evs = EvGenerated inst :: miosqp_events inst res
        else evs = EvGenerated inst :: miosqp_events inst res ++ [EvBreakpoint] /\
             fst (ipdb_session x') = DbgContinue
    else t = 0%float /\ evs = [EvGenerated inst].

(** What a configuration that goes through writes to the log, and its
    samples: line 57 announces it, and each of its [repeat] repetitions
    writes its events and records its sample, in this order. *)
Definition configuration_logged (solver : string) (repeat : Z) (dns : float)
  (n m p : Z) (evs : list event) (samples : list float) : Prop :=
  exists reps : list (list event * float),
    length reps = Z.to_nat repeat /\
    Forall (fun r => repetition_logged solver n m p dns (fst r) (snd r)) reps /\
    evs = EvPrint "problem n = %i, m = %i, p = %i" [n; m; p]
          :: concat (map fst reps) /\
    samples = map snd reps.

(** The first [d] rows of the statistics are those of the first [d]
    configurations: [logs] holds, for each of them, what it wrote to the
    log and the samples it recorded, and row [i] holds the mean, the
    maximum and the minimum of the samples of configuration [i]. *)
Definition rows_logged (n_vec m_vec p_vec : list Z) (repeat : Z) (dns : float)
  (solver : string) (d : nat) (st : statistics)
  (logs : list (list event * list float)) : Prop :=
  length logs = d /\
  forall i, (i < d)%nat ->
    exists n m p evs samples mx mn,
      n_vec !! i = Some n /\ m_vec !! i = Some m /\ p_vec !! i = Some p /\
      logs !! i = Some (evs, samples) /\
      configuration_logged solver repeat dns n m p evs samples /\
      avg_solve_time st !! i = Some (np_mean samples) /\
      np_max samples = Ok mx /\ max_solve_time st !! i = Some mx /\
      np_min samples = Ok mn /\ min_solve_time st !! i = Some mn.

(** The matrix [spa.random] draws in generator state [st]. *)
Definition drawn_matrix (st : rng) (r c : nat) (dns : float) : matrix :=
  tabulate r c (fst (draw_sparse st r c dns)).

End Notions.

(** The binary64 values 1, -1 and 2, unpacked. *)
Definition SF_one : spec_float := S754_finite false 4503599627370496 (-52).

Definition SF_minus_one : spec_float := S754_finite true 4503599627370496 (-52).

Definition SF_two : spec_float := S754_finite false 4503599627370496 (-51).

(** Sums of rationals over a list of indices. *)
Fixpoint sumQ (l : list nat) (f : nat -> Q) : Q :=
  match l with
  | [] => 0%Q
  | k :: l' => (f k + sumQ l' f)%Q
  end.

(** The real number a finite binary64 value stands for. *)
Definition exact (f : float) : Q :=
  match Prim2SF f with
  | S754_finite s m e =>
      ((if s then -1 else 1) * inject_Z (Zpos m) * Qpower 2 e)%Q
  | _ => 0%Q
  end.

(** The quadratic form [x.T * P * x] of the matrix the entries stand for. *)
Definition quadratic_form (P : matrix) (x : list Q) : Q :=
  fold_left
    (fun acc i =>
       fold_left
         (fun acc' j =>
            (acc' + exact (mget P i j) * nth i x 0%Q * nth j x 0%Q)%Q)
         (seq 0 (ncols P)) acc)
    (seq 0 (nrows P)) 0%Q.

Definition positive_semidefinite (P : matrix) : Prop :=
  forall x : list Q, length x = nrows P -> (0 <= quadratic_form P x)%Q.

(** The quadratic form of the Gram product of [a] with itself, taken in
    exact arithmetic on the values of the entries of [a]. *)
Definition exact_gram_form (a : matrix) (x : list Q) : Q :=
  sumQ (seq 0 (ncols a)) (fun i =>
    sumQ (seq 0 (ncols a)) (fun j =>
      (sumQ (seq 0 (nrows a))
            (fun k => exact (mget a k i) * exact (mget a k j))
       * nth i x 0 * nth j x 0)%Q)).

(** * Notions used in the further properties *)

(** ** Well-formed sweeps *)

(** A configuration the generator accepts: [0 < n], [0 <= p <= n] and
    [0 <= m]. *)
Definition admissible (cfg : list Z) : bool :=
  match cfg with
  | [n; m; p] => (0 <? n) && (0 <=? p) && (p <=? n) && (0 <=? m)
  | _ => false
  end.

(** The arguments of [solve] with which every statement of the script itself
    goes through: a seed numpy accepts, a loop bound [k] within the vectors,
    vectors of one length, at least one repetition, a density in [[0, 1]]
    and admissible dimensions in the configurations the loop visits. *)
Definition well_formed (k : Z) (n_vec m_vec p_vec : list Z) (repeat : Z)
  (dns : float) (seed : Z) : bool :=
  (0 <=? seed) && (seed <? 2 ^ 32) &&
  (Z.to_nat k <=? length n_vec)%nat &&
  (length m_vec =? length n_vec)%nat && (length p_vec =? length n_vec)%nat &&
  (1 <=? repeat) && valid_density dns &&
  forallb admissible (take (Z.to_nat k) (configurations n_vec m_vec p_vec)).

Section MoreNotions.

Context {E : Externals}.

(** A computation whose results satisfy [Q] and whose exceptions satisfy
    [P], whatever the world it starts in. *)
Definition yields {A} (Q : A -> Prop) (P : exn -> Prop) (c : M A) : Prop :=
  forall w, match fst (c w) with Ok a => Q a | Raise e => P e end.

(** The exceptions that come from outside the script: the ones a backend
    raises, [BdbQuit] from a debugger session that is quit, and the
    [ZeroDivisionError] of line 120 on a MIOSQP result whose run time is 0. *)
Definition outside_the_script (e : exn) : Prop :=
  (exists x inst, fst (gurobi_solve x inst) = Raise e) \/
  (exists x inst,
      fst (miosqp_solve x inst miosqp_settings osqp_settings) = Raise e) \/
  (e = BdbQuit /\ exists x, fst (ipdb_session x) = DbgQuit) \/
  (e = ZeroDivisionError /\
   exists x inst res,
     fst (miosqp_solve x inst miosqp_settings osqp_settings) = Ok res /\
     (mi_run_time res =? 0)%float = true).

(** The local arrays of a configuration with [r] repetitions. *)
Definition samples_shape (solver : string) (r : nat) (s : samples) : Prop :=
  length (solve_time_temp s) = r /\
  (String.eqb solver "miosqp" = true ->
   exists o, osqp_solve_time_temp s = Some o /\ length o = r).

(** The statistics arrays of a sweep over vectors of length [len]. *)
Definition statistics_shape (solver : string) (len : nat) (st : statistics)
  : Prop :=
  length (avg_solve_time st) = len /\
  length (min_solve_time st) = len /\
  length (max_solve_time st) = len /\
  (String.eqb solver "miosqp" = true ->
   exists a b c,
     avg_osqp_solve_time st = Some a /\ min_osqp_solve_time st = Some b /\
     max_osqp_solve_time st = Some c /\
     length a = len /\ length b = len /\ length c = len).

End MoreNotions.

(** Libraries with which nothing goes wrong outside the script: the
    backends always return a result, MIOSQP never reports a run time of 0,
    and every debugger session is resumed. *)
Definition cooperative (E : Externals) : Prop :=
  (forall x inst, exists res, fst (gurobi_solve x inst) = Ok res) /\
  (forall x inst, exists res,
      fst (miosqp_solve x inst miosqp_settings osqp_settings) = Ok res /\
      (mi_run_time res =? 0)%float = false) /\
  (forall x, fst (ipdb_session x) = DbgContinue).

Section RunNotions.

Context {E : Externals}.

(** Two worlds whose generators are in the same state and whose logs hold
    the same instances after the ones, [g1] and [g2], that were there
    before. *)
Definition synced (g1 g2 : list instance) (w1 w2 : world) : Prop :=
  w_rng w1 = w_rng w2 /\
  exists gs,
    generated_instances (w_trace w1) = g1 ++ gs /\
    generated_instances (w_trace w2) = g2 ++ gs.

(** A computation that does the same on synced worlds. *)
Definition lockstep (g1 g2 : list instance) {A} (c : M A) : Prop :=
  forall w1 w2, synced g1 g2 w1 w2 ->
    fst (c w1) = fst (c w2) /\ synced g1 g2 (snd (c w1)) (snd (c w2)).

(** Nothing is drawn and nothing is generated between two worlds. *)
Definition quiet (w w' : world) : Prop :=
  w_rng w' = w_rng w /\
  generated_instances (w_trace w') = generated_instances (w_trace w).

(** Between two worlds [d] instances were generated and the backend
    [solver] was called [d] times. *)
Definition grown (solver : string) (d : nat) (w w' : world) : Prop :=
  length (generated_instances (w_trace w'))
  = (length (generated_instances (w_trace w)) + d)%nat /\
  solver_calls (w_trace w') = solver_calls (w_trace w) ++ replicate d solver.

(** The debugger was not entered between two worlds. *)
Definition undisturbed (w w' : world) : Prop :=
  breakpoints (w_trace w') = breakpoints (w_trace w).

End RunNotions.

(** Backends whose every result has the optimal status. *)
Definition always_optimal (E : Externals) : Prop :=
  (forall x inst res,
      fst (gurobi_solve x inst) = Ok res -> g_status res = "optimal") /\
  (forall x inst res,
      fst (miosqp_solve x inst miosqp_settings osqp_settings) = Ok res ->
      mi_status res = MI_SOLVED).

(** The names of the columns of the report, in the order the dictionary is
    filled by lines 137-147. *)
Definition report_columns (solver : string) : list string :=
  [ "n"; "m"; "p"; "t_min[ms]"; "t_max[ms]"; "t_avg[ms]" ] ++
  (if String.eqb solver "miosqp"
   then [ "t_osqp_min[%]"; "t_osqp_max[%]"; "t_osqp_avg[%]" ]
   else []).

(** The same names in the order of their characters, the order pandas
    gives the columns when it sorts them. *)
Definition sorted_report_columns (solver : string) : list string :=
  [ "m"; "n"; "p"; "t_avg[ms]"; "t_max[ms]"; "t_min[ms]" ] ++
  (if String.eqb solver "miosqp"
   then [ "t_osqp_avg[%]"; "t_osqp_max[%]"; "t_osqp_min[%]" ]
   else []).

(** What lines 120 and 121 record for a MIOSQP result: the run time in
    milliseconds and the percentage of it spent in OSQP. *)
Definition recorded_time (res : miosqp_result) : float :=
  (1000 * mi_run_time res)%float.

Definition recorded_percentage (res : miosqp_result) : float :=
  (100 * (mi_osqp_solve_time res / mi_run_time res))%float.

Section MiosqpNotions.

Context {E : Externals}.

(** A result MIOSQP returned for some instance, with a run time other
    than 0. *)
Definition answered (res : miosqp_result) : Prop :=
  (exists x inst x',
      miosqp_solve x inst miosqp_settings osqp_settings = (Ok res, x')) /\
  (mi_run_time res =? 0)%float = false.

End MiosqpNotions.

(** Entry [i] of the three arrays [avg], [mn] and [mx] holds the mean, the
    minimum and the maximum of [xs]. *)
Definition aggregates (xs : list float) (i : nat) (avg mn mx : list float)
  : Prop :=
  avg !! i = Some (np_mean xs) /\
  (exists v, np_min xs = Ok v /\ mn !! i = Some v) /\
  (exists v, np_max xs = Ok v /\ mx !! i = Some v).

(** Row [i] of the statistics of a MIOSQP sweep aggregates what was
    recorded for [results]. *)
Definition miosqp_row (st : statistics) (i : nat)
  (results : list miosqp_result) : Prop :=
  aggregates (map recorded_time results) i
             (avg_solve_time st) (min_solve_time st) (max_solve_time st) /\
  exists oavg omn omx,
    avg_osqp_solve_time st = Some oavg /\ min_osqp_solve_time st = Some omn /\
    max_osqp_solve_time st = Some omx /\
    aggregates (map recorded_percentage results) i oavg omn omx.

(** * Reasoning rules for the monad *)

Section Rules.

Context {E : Externals}.

Lemma bind_run {A B} (c : M A) (k : A -> M B) (w : world) :
  bind c k w = match c w with
               | (Ok a, w') => k a w'
               | (Raise e, w') => (Raise e, w')
               end.
Proof. reflexivity. Qed.

Lemma bind_ok {A B} (c : M A) (k : A -> M B) w b w' :
  bind c k w = (Ok b, w') ->
  exists a w1, c w = (Ok a, w1) /\ k a w1 = (Ok b, w').
Proof.
  rewrite bind_run. destruct (c w) as [[a|e] w1]; intros H.
  - exists a, w1. split; [reflexivity | exact H].
  - discriminate H.
Qed.

Lemma bind_step {A B} (c : M A) (k : A -> M B) w a w1 :
  c w = (Ok a, w1) -> bind c k w = k a w1.
Proof. intros H. rewrite bind_run, H. reflexivity. Qed.

Lemma bind_fail {A B} (c : M A) (k : A -> M B) w e w1 :
  c w = (Raise e, w1) -> bind c k w = (Raise e, w1).
Proof. intros H. rewrite bind_run, H. reflexivity. Qed.

Lemma for_each_app {A S} (xs ys : list A) (body : A -> S -> M S) s w :
  for_each (xs ++ ys) body s w =
  bind (for_each xs body s) (fun s' => for_each ys body s') w.
Proof.
  revert s w. induction xs as [|x xs IH]; intros s w; simpl.
  - reflexivity.
  - rewrite !bind_run. destruct (body x s w) as [[s1|e] w1].
    + rewrite IH, bind_run. reflexivity.
    + reflexivity.
Qed.

Section Keeps.

Variable P : world -> world -> Prop.
Hypothesis P_refl : forall w, P w w.
Hypothesis P_trans : forall w1 w2 w3, P w1 w2 -> P w2 w3 -> P w1 w3.

Lemma keeps_ret {A} (a : A) : keeps P (ret a).
Proof. intros w. apply P_refl. Qed.

Lemma keeps_raise {A} (e : exn) : keeps P (@raise _ A e).
Proof. intros w. apply P_refl. Qed.

Lemma keeps_lift {A} (o : outcome A) : keeps P (lift o).
Proof. intros w. apply P_refl. Qed.

Lemma keeps_bind {A B} (c : M A) (k : A -> M B) :
  keeps P c -> (forall a, keeps P (k a)) -> keeps P (bind c k).
Proof.
  intros Hc Hk w. rewrite bind_run. specialize (Hc w).
  destruct (c w) as [[a|e] w1]; simpl in *.
  - eapply P_trans; [exact Hc | apply Hk].
  - exact Hc.
Qed.

Lemma keeps_for_each {A S} (xs : list A) (body : A -> S -> M S) :
  (forall x s, keeps P (body x s)) -> forall s, keeps P (for_each xs body s).
Proof.
  intros Hb. induction xs as [|x xs IH]; intros s; simpl.
  - apply keeps_ret.
  - apply keeps_bind; [apply Hb | exact IH].
Qed.

Lemma keeps_local {A} name (v : option A) : keeps P (local name v).
Proof. destruct v; [apply keeps_ret | apply keeps_raise]. Qed.

End Keeps.

Lemma same_on_refl {X} (f : list event -> X) w : same_on f w w.
Proof. reflexivity. Qed.

Lemma same_on_trans {X} (f : list event -> X) w1 w2 w3 :
  same_on f w1 w2 -> same_on f w2 w3 -> same_on f w1 w3.
Proof. unfold same_on. congruence. Qed.

Lemma same_on_draw {X A} (f : list event -> X) (d : rng -> A * rng) :
  keeps (same_on f) (draw d).
Proof. intros w. reflexivity. Qed.

Lemma same_on_extern {X A} (f : list event -> X) (d : ext -> A * ext) :
  keeps (same_on f) (extern d).
Proof. intros w. reflexivity. Qed.

Lemma same_on_emit {X} (g : event -> list X) ev :
  g ev = [] -> keeps (same_on (flat_map g)) (emit ev).
Proof.
  intros Hev w. unfold same_on, emit. simpl.
  rewrite flat_map_app. simpl. rewrite Hev. simpl. rewrite !app_nil_r.
  reflexivity.
Qed.

End Rules.

Ltac keeps_step :=
  first
    [ apply keeps_ret; assumption
    | apply keeps_raise; assumption
    | apply keeps_lift; assumption
    | apply keeps_local; assumption
    | apply keeps_for_each; [assumption | assumption | intros]
    | apply keeps_bind; [assumption | | intros]
    | match goal with
      | |- keeps _ (if ?b then _ else _) => destruct b
      | |- keeps _ (match ?x with _ => _ end) => destruct x
      end ].

(** * Facts about the numpy operations *)

Lemma lift_ok {E : Externals} {A} (o : outcome A) (w : world) a w' :
  lift o w = (Ok a, w') -> o = Ok a /\ w' = w.
Proof. unfold lift. intros H. injection H as -> ->. split; reflexivity. Qed.

Lemma ret_ok {E : Externals} {A} (x : A) (w : world) a w' :
  ret x w = (Ok a, w') -> a = x /\ w' = w.
Proof. unfold ret. intros H. injection H as -> ->. split; reflexivity. Qed.

Lemma local_ok {E : Externals} {A} name (v : option A) (w : world) a w' :
  local name v w = (Ok a, w') -> v = Some a /\ w' = w.
Proof.
  destruct v as [x|]; simpl; intros H.
  - apply ret_ok in H as [-> ->]. split; reflexivity.
  - discriminate H.
Qed.

Lemma for_each_invariant {E : Externals} {A S} (I : S -> Prop)
  (body : A -> S -> M S) (xs : list A) :
  (forall x s w s' w', In x xs -> I s -> body x s w = (Ok s', w') -> I s') ->
  forall s w s' w', I s -> for_each xs body s w = (Ok s', w') -> I s'.
Proof.
  induction xs as [|x xs IH]; intros Hb s w s' w' Hs H; simpl in H.
  - apply ret_ok in H as [-> _]. exact Hs.
  - apply bind_ok in H as (s1 & w1 & H1 & H2).
    eapply IH; [ | | exact H2].
    + intros y t u t' u' Hy. apply Hb. right. exact Hy.
    + eapply Hb; [left; reflexivity | exact Hs | exact H1].
Qed.

Lemma np_zeros_ok k zs :
  np_zeros k = Ok zs -> 0 <= k /\ zs = replicate (Z.to_nat k) 0%float.
Proof.
  unfold np_zeros. destruct (Z.ltb_spec k 0) as [Hk|Hk]; intros H; [discriminate|].
  injection H as <-. split; [assumption | reflexivity].
Qed.

Lemma np_max_zeros r : np_max (replicate (S r) 0%float) = Ok 0%float.
Proof.
  simpl. f_equal. induction r as [|r IH]; simpl; [reflexivity | exact IH].
Qed.

Lemma np_min_zeros r : np_min (replicate (S r) 0%float) = Ok 0%float.
Proof.
  simpl. f_equal. induction r as [|r IH]; simpl; [reflexivity | exact IH].
Qed.

Lemma set_item_ok {A} (a : list A) i v a' :
  set_item a i v = Ok a' -> (i < length a)%nat /\ a' = <[i:=v]> a.
Proof.
  unfold set_item. destruct (Nat.ltb_spec i (length a)) as [Hi|Hi]; intros H;
    [ | discriminate].
  injection H as <-. split; [assumption | reflexivity].
Qed.

Lemma store3_ok i v avg mx mn avg' mx' mn' :
  store3 i v avg mx mn = Ok (avg', mx', mn') ->
  avg' = <[i:=fst (fst v)]> avg /\ mx' = <[i:=snd (fst v)]> mx /\
  mn' = <[i:=snd v]> mn /\
  (i < length avg)%nat /\ (i < length mx)%nat /\ (i < length mn)%nat.
Proof.
  destruct v as [[a b] c]. unfold store3.
  destruct (set_item avg i a) as [x|] eqn:H1; [|discriminate].
  destruct (set_item mx i b) as [y|] eqn:H2; [|discriminate].
  destruct (set_item mn i c) as [z|] eqn:H3; [|discriminate].
  intros H. injection H as <- <- <-.
  apply set_item_ok in H1 as [? ->], H2 as [? ->], H3 as [? ->].
  simpl. repeat split; assumption.
Qed.

Lemma aggregate_ok xs avg mx mn :
  aggregate xs = Ok (avg, mx, mn) ->
  avg = np_mean xs /\ np_max xs = Ok mx /\ np_min xs = Ok mn.
Proof.
  unfold aggregate. destruct (np_max xs) as [a|]; [|discriminate].
  destruct (np_min xs) as [b|]; [|discriminate].
  intros H. injection H as <- <- <-. repeat split; reflexivity.
Qed.

(** Fuel beyond the length of the array does not change the pairwise sum,
    so [np_sum] follows numpy's recursion to its end. *)
Lemma pairwise_sum_fuel f1 : forall f2 xs,
  (length xs <= f1)%nat -> (length xs <= f2)%nat ->
  pairwise_sum f1 xs = pairwise_sum f2 xs.
Proof.
  induction f1 as [|f1 IH]; intros f2 xs H1 H2.
  - destruct f2 as [|f2]; [reflexivity|]. cbn [pairwise_sum].
    destruct (Nat.leb_spec (length xs) 128) as [_|H]; [reflexivity | lia].
  - destruct f2 as [|f2].
    + cbn [pairwise_sum].
      destruct (Nat.leb_spec (length xs) 128) as [_|H]; [reflexivity | lia].
    + cbn [pairwise_sum]. destruct (Nat.leb_spec (length xs) 128) as [_|H]; [reflexivity|].
      set (half := (length xs / 2)%nat).
      assert (Hh : (64 <= half <= length xs / 2)%nat).
      { subst half. split; [ | reflexivity].
        apply Nat.div_le_lower_bound; lia. }
      assert (Hd : (2 * (length xs / 2) <= length xs)%nat)
        by (apply Nat.Div0.mul_div_le).
      assert (Hm : (half mod 8 < 8)%nat) by (apply Nat.mod_upper_bound; lia).
      f_equal; apply IH; rewrite ?length_take, ?length_drop; lia.
Qed.

Lemma pairwise_sum_unfold xs :
  pairwise_sum (length xs) xs =
  if (length xs <=? 128)%nat then block_sum xs
  else
    let half := (length xs / 2)%nat in
    let n2 := (half - half mod 8)%nat in
    (pairwise_sum (length (take n2 xs)) (take n2 xs) +
     pairwise_sum (length (drop n2 xs)) (drop n2 xs))%float.
Proof.
  destruct (length xs) as [|f] eqn:Hlen; [reflexivity|].
  cbn [pairwise_sum]. rewrite Hlen.
  destruct (Nat.leb_spec (S f) 128) as [_|H]; [reflexivity|].
  cbv zeta.
  set (half := (S f / 2)%nat).
  assert (Hh : (64 <= half)%nat).
  { subst half. apply Nat.div_le_lower_bound; lia. }
  assert (Hd : (2 * (S f / 2) <= S f)%nat) by (apply Nat.Div0.mul_div_le).
  assert (Hm : (half mod 8 < 8)%nat) by (apply Nat.mod_upper_bound; lia).
  fold half in Hd.
  f_equal; apply pairwise_sum_fuel; rewrite ?length_take, ?length_drop; lia.
Qed.

Lemma np_sum_short xs :
  (length xs < 8)%nat ->
  np_sum xs = match xs with
              | [] => 0%float
              | x :: r => fold_left PrimFloat.add r x
              end.
Proof.
  intros H. unfold np_sum.
  destruct (Nat.ltb_spec (length xs) 8) as [_|?]; [reflexivity | lia].
Qed.

Lemma np_sum_block xs :
  (8 <= length xs <= 128)%nat -> np_sum xs = block_sum xs.
Proof.
  intros [H1 H2]. unfold np_sum.
  destruct (Nat.ltb_spec (length xs) 8) as [?|_]; [lia|].
  rewrite pairwise_sum_unfold.
  destruct (Nat.leb_spec (length xs) 128) as [_|?]; [reflexivity | lia].
Qed.

(** Ten samples of a tenth add up to 1 exactly, as they do in numpy, where
    adding them one after the other gives the binary64 number below 1. *)
Example np_sum_of_ten_tenths :
  np_sum (replicate 10 0.1%float) = 1%float /\
  np_mean (replicate 10 0.1%float) = 0.1%float /\
  fold_left PrimFloat.add (replicate 9 0.1%float) 0.1%float
  = 0x1.fffffffffffffp-1%float.
Proof. vm_compute. repeat split; reflexivity. Qed.

(** ** The columns of a data frame *)

Lemma df_column_cons kc (d : DataFrame) name :
  df_column (kc :: d) name =
  if String.eqb (fst kc) name then Some (snd kc) else df_column d name.
Proof.
  unfold df_column. simpl. destruct (String.eqb (fst kc) name); reflexivity.
Qed.

Lemma df_column_absent (d : DataFrame) name :
  ~ In name (map fst d) -> df_column d name = None.
Proof.
  induction d as [|kc d IH]; intros H; [reflexivity|].
  rewrite df_column_cons.
  destruct (String.eqb_spec (fst kc) name) as [Heq|_].
  - exfalso. apply H. left. exact Heq.
  - apply IH. intros Hin. apply H. right. exact Hin.
Qed.

Lemma df_column_insert kc (d : DataFrame) name :
  (fst kc = name -> df_column d name = None) ->
  df_column (insert_column kc d) name =
  if String.eqb (fst kc) name then Some (snd kc) else df_column d name.
Proof.
  induction d as [|kc' d IH]; intros H; simpl.
  - apply df_column_cons.
  - destruct (String.leb (fst kc) (fst kc')); [apply df_column_cons|].
    rewrite !df_column_cons.
    destruct (String.eqb_spec (fst kc) name) as [Heq|Hne].
    + specialize (H Heq). rewrite df_column_cons in H.
      destruct (String.eqb (fst kc') name); [discriminate|].
      rewrite IH by (intros _; exact H).
      destruct (String.eqb_spec (fst kc) name); [reflexivity | contradiction].
    + rewrite IH by (intros; contradiction).
      destruct (String.eqb_spec (fst kc) name); [contradiction | reflexivity].
Qed.

(** Sorting columns with distinct names changes no column. *)
Lemma df_column_sorted (d : DataFrame) name :
  List.NoDup (map fst d) ->
  df_column (sort_columns d) name = df_column d name.
Proof.
  induction d as [|kc d IH]; intros H; [reflexivity|].
  simpl in H. apply List.NoDup_cons_iff in H as [Hnot Hd].
  simpl. rewrite df_column_insert.
  - rewrite df_column_cons, (IH Hd). reflexivity.
  - intros <-. rewrite (IH Hd). apply df_column_absent. exact Hnot.
Qed.

Lemma insert_column_perm kc (d : DataFrame) :
  Permutation (insert_column kc d) (kc :: d).
Proof.
  induction d as [|kc' d IH]; simpl; [reflexivity|].
  destruct (String.leb (fst kc) (fst kc')); [reflexivity|].
  rewrite IH. apply perm_swap.
Qed.

Lemma sort_columns_perm (d : DataFrame) : Permutation (sort_columns d) d.
Proof.
  induction d as [|kc d IH]; simpl; [reflexivity|].
  rewrite insert_column_perm, IH. reflexivity.
Qed.

(** What [pd.DataFrame] returns for a dictionary with distinct keys: the
    columns of the dictionary, all of one length, in the order of the
    dictionary or sorted by name. *)
Lemma pd_DataFrame_ok keeps (d df : list (string * column)) :
  pd_DataFrame keeps d = Ok df ->
  df = (if keeps then d else sort_columns d) /\
  Permutation df d /\
  Forall (fun kc => column_length (snd kc) = df_nrows d) d.
Proof.
  unfold pd_DataFrame. destruct d as [|[k c] r].
  - intros H. injection H as <-. destruct keeps; repeat split; constructor.
  - destruct (forallb _ r) eqn:Hall; [ | discriminate].
    intros H. injection H as <-. split; [reflexivity | split].
    + destruct keeps; [reflexivity | apply (sort_columns_perm ((k, c) :: r))].
    + constructor; [reflexivity|].
      apply Forall_forall. intros kc Hin.
      rewrite forallb_forall in Hall. specialize (Hall kc).
      simpl. apply Nat.eqb_eq. apply Hall. apply list_elem_of_In. exact Hin.
Qed.

Lemma pd_DataFrame_column keeps (d df : list (string * column)) name :
  pd_DataFrame keeps d = Ok df -> List.NoDup (map fst d) ->
  df_column df name = df_column d name.
Proof.
  intros H Hd. apply pd_DataFrame_ok in H as (-> & _).
  destruct keeps; [reflexivity | apply df_column_sorted; exact Hd].
Qed.

Lemma df_nrows_perm (d df : DataFrame) :
  Permutation df d ->
  Forall (fun kc => column_length (snd kc) = df_nrows d) d ->
  df_nrows df = df_nrows d.
Proof.
  intros Hp Hall. destruct df as [|[k c] r].
  - apply Permutation_nil in Hp. subst d. reflexivity.
  - simpl. rewrite Forall_forall in Hall.
    apply (Hall (k, c)). rewrite <- Hp. left.
Qed.

(** * The shape of a successful run *)

Section Shape.

Context {E : Externals}.

Lemma configuration_ok n_vec m_vec p_vec repeat dns solver i st w st' w' :
  configuration n_vec m_vec p_vec repeat dns solver i st w = (Ok st', w') ->
  exists n m p s mx mn,
    n_vec !! i = Some n /\ m_vec !! i = Some m /\ p_vec !! i = Some p /\
    0 <= repeat /\
    for_each (seq 0 (Z.to_nat repeat)) (repetition solver n m p dns)
             (fresh_samples repeat solver) (announced n m p w) = (Ok s, w') /\
    np_max (solve_time_temp s) = Ok mx /\
    np_min (solve_time_temp s) = Ok mn /\
    avg_solve_time st' = <[i:=np_mean (solve_time_temp s)]> (avg_solve_time st) /\
    max_solve_time st' = <[i:=mx]> (max_solve_time st) /\
    min_solve_time st' = <[i:=mn]> (min_solve_time st) /\
    (i < length (avg_solve_time st))%nat /\
    (i < length (max_solve_time st))%nat /\
    (i < length (min_solve_time st))%nat.
Proof.
  unfold configuration. intros H.
  apply bind_ok in H as (n & w1 & Hn & H). apply lift_ok in Hn as [Hn ->].
  apply bind_ok in H as (m & w1 & Hm & H). apply lift_ok in Hm as [Hm ->].
  apply bind_ok in H as (p & w1 & Hp & H). apply lift_ok in Hp as [Hp ->].
  apply bind_ok in H as ([] & w1 & Hw & H).
  unfold emit in Hw. injection Hw as <-.
  apply bind_ok in H as (t0 & w2 & Ht & H). apply lift_ok in Ht as [Ht ->].
  apply np_zeros_ok in Ht as [Hr ->].
  apply bind_ok in H as (o0 & w2 & Ho & H).
  assert (o0 = osqp_solve_time_temp (fresh_samples repeat solver) /\
          w2 = announced n m p w) as [-> ->].
  { unfold fresh_samples. simpl. destruct (String.eqb solver "miosqp").
    - apply bind_ok in Ho as (z & w3 & Hz & Ho).
      apply lift_ok in Hz as [Hz ->]. apply np_zeros_ok in Hz as [_ ->].
      apply ret_ok in Ho as [-> ->]. split; reflexivity.
    - apply ret_ok in Ho as [-> ->]. split; reflexivity. }
  apply bind_ok in H as (s & w3 & Hs & H).
  apply bind_ok in H as ([[avg mx] mn] & w4 & Ha & H).
  apply lift_ok in Ha as [Ha ->]. apply aggregate_ok in Ha as (-> & Hmx & Hmn).
  apply bind_ok in H as ([[avg' mx'] mn'] & w4 & Hst & H).
  apply lift_ok in Hst as [Hst ->].
  apply store3_ok in Hst as (-> & -> & -> & L1 & L2 & L3). simpl in *.
  exists n, m, p, s, mx, mn.
  unfold get_item in Hn, Hm, Hp.
  destruct (n_vec !! i); [injection Hn as -> | discriminate].
  destruct (m_vec !! i); [injection Hm as -> | discriminate].
  destruct (p_vec !! i); [injection Hp as -> | discriminate].
  assert (st' = Statistics (<[i:=np_mean (solve_time_temp s)]> (avg_solve_time st))
                           (<[i:=mn]> (min_solve_time st))
                           (<[i:=mx]> (max_solve_time st))
                           (avg_osqp_solve_time st') (min_osqp_solve_time st')
                           (max_osqp_solve_time st') /\ w' = w3) as [Hst' ->].
  { destruct (String.eqb solver "miosqp").
    - apply bind_ok in H as (o & w5 & H5 & H). apply local_ok in H5 as [_ ->].
      apply bind_ok in H as (oavg & w6 & H6 & H). apply local_ok in H6 as [_ ->].
      apply bind_ok in H as (omx & w7 & H7 & H). apply local_ok in H7 as [_ ->].
      apply bind_ok in H as (omn & w8 & H8 & H). apply local_ok in H8 as [_ ->].
      apply bind_ok in H as (b & w9 & H9 & H). apply lift_ok in H9 as [_ ->].
      apply bind_ok in H as ([[x y] z] & w10 & H10 & H).
      apply lift_ok in H10 as [_ ->].
      apply ret_ok in H as [-> ->]. simpl. split; reflexivity.
    - apply ret_ok in H as [-> ->]. simpl. split; reflexivity. }
  rewrite Hst'. simpl. repeat split; try assumption; reflexivity.
Qed.

Lemma df_dict_ok n_vec m_vec p_vec solver st w d w' :
  df_dict n_vec m_vec p_vec solver st w = (Ok d, w') ->
  w' = w /\
  exists rest,
    d = [ ("n", IntColumn n_vec); ("m", IntColumn m_vec); ("p", IntColumn p_vec);
          ("t_min[ms]", FloatColumn (min_solve_time st));
          ("t_max[ms]", FloatColumn (max_solve_time st));
          ("t_avg[ms]", FloatColumn (avg_solve_time st)) ] ++ rest.
Proof.
  unfold df_dict. destruct (String.eqb solver "miosqp"); intros H.
  - apply bind_ok in H as (a & w1 & H1 & H). apply local_ok in H1 as [_ ->].
    apply bind_ok in H as (b & w1 & H1 & H). apply local_ok in H1 as [_ ->].
    apply bind_ok in H as (c & w1 & H1 & H). apply local_ok in H1 as [_ ->].
    apply ret_ok in H as [-> ->]. split; [reflexivity|].
    eexists. reflexivity.
  - apply ret_ok in H as [-> ->]. split; [reflexivity|].
    exists []. reflexivity.
Qed.

Lemma df_dict_keys n_vec m_vec p_vec solver st w d w' :
  df_dict n_vec m_vec p_vec solver st w = (Ok d, w') ->
  List.NoDup (map fst d).
Proof.
  unfold df_dict. destruct (String.eqb solver "miosqp"); intros H.
  - apply bind_ok in H as (a & w1 & H1 & H). apply local_ok in H1 as [_ ->].
    apply bind_ok in H as (b & w1 & H1 & H). apply local_ok in H1 as [_ ->].
    apply bind_ok in H as (c & w1 & H1 & H). apply local_ok in H1 as [_ ->].
    apply ret_ok in H as [-> _]. simpl.
    repeat (apply List.NoDup_cons; [simpl; intuition discriminate | ]).
    apply List.NoDup_nil.
  - apply ret_ok in H as [-> _]. simpl.
    repeat (apply List.NoDup_cons; [simpl; intuition discriminate | ]).
    apply List.NoDup_nil.
Qed.

Lemma solve_run n_prob n_vec m_vec p_vec repeat dns seed solver w :
  0 <= seed < 2 ^ 32 ->
  solve n_prob n_vec m_vec p_vec repeat dns seed solver w =
  bind (local "n_prob" n_prob)
       (fun k => st <- sweep n_vec m_vec p_vec repeat dns solver k ;;
                 d <- df_dict n_vec m_vec p_vec solver st ;;
                 timings <- lift (pd_DataFrame keeps_dict_order d) ;;
                 ret timings)
       (seeded seed solver w).
Proof.
  intros [H1 H2]. unfold solve, np_random_seed.
  destruct (Z.leb_spec 0 seed) as [_|?]; [|lia].
  destruct (Z.ltb_spec seed (2 ^ 32)) as [_|?]; [|lia].
  reflexivity.
Qed.

Lemma solve_ok n_prob n_vec m_vec p_vec repeat dns seed solver w df w' :
  solve n_prob n_vec m_vec p_vec repeat dns seed solver w = (Ok df, w') ->
  exists k st,
    n_prob = Some k /\ 0 <= seed < 2 ^ 32 /\
    sweep n_vec m_vec p_vec repeat dns solver k (seeded seed solver w)
      = (Ok st, w') /\
    df_column df "n" = Some (IntColumn n_vec) /\
    df_column df "m" = Some (IntColumn m_vec) /\
    df_column df "p" = Some (IntColumn p_vec) /\
    df_column df "t_min[ms]" = Some (FloatColumn (min_solve_time st)) /\
    df_column df "t_max[ms]" = Some (FloatColumn (max_solve_time st)) /\
    df_column df "t_avg[ms]" = Some (FloatColumn (avg_solve_time st)) /\
    df_nrows df = length n_vec /\
    length m_vec = length n_vec /\ length p_vec = length n_vec /\
    length (min_solve_time st) = length n_vec /\
    length (max_solve_time st) = length n_vec /\
    length (avg_solve_time st) = length n_vec.
Proof.
  intros H.
  assert (Hseed : 0 <= seed < 2 ^ 32).
  { unfold solve in H. apply bind_ok in H as ([] & w1 & _ & H).
    apply bind_ok in H as ([] & w2 & H1 & _). unfold np_random_seed in H1.
    destruct (Z.leb_spec 0 seed); destruct (Z.ltb_spec seed (2 ^ 32));
      simpl in H1; try discriminate; lia. }
  rewrite solve_run in H by exact Hseed.
  apply bind_ok in H as (k & w1 & Hk & H). apply local_ok in Hk as [-> ->].
  apply bind_ok in H as (st & w1 & Hst & H).
  apply bind_ok in H as (d & w2 & Hd & H).
  pose proof (df_dict_keys _ _ _ _ _ _ _ _ Hd) as Hkeys.
  apply df_dict_ok in Hd as (-> & rest & ->).
  apply bind_ok in H as (t & w2 & Ht & H). apply lift_ok in Ht as [Ht ->].
  apply ret_ok in H as [-> ->].
  pose proof (pd_DataFrame_ok _ _ _ Ht) as (_ & Hperm & Hall).
  assert (Hcol : forall name,
             df_column t name =
             df_column ([ ("n", IntColumn n_vec); ("m", IntColumn m_vec);
                          ("p", IntColumn p_vec);
                          ("t_min[ms]", FloatColumn (min_solve_time st));
                          ("t_max[ms]", FloatColumn (max_solve_time st));
                          ("t_avg[ms]", FloatColumn (avg_solve_time st)) ]
                        ++ rest) name).
  { intros name. eapply pd_DataFrame_column; eassumption. }
  rewrite (df_nrows_perm _ _ Hperm Hall).
  simpl in Hall.
  apply Forall_cons in Hall as [_ Hall].
  apply Forall_cons in Hall as [Lm Hall].
  apply Forall_cons in Hall as [Lp Hall].
  apply Forall_cons in Hall as [L1 Hall].
  apply Forall_cons in Hall as [L2 Hall].
  apply Forall_cons in Hall as [L3 _].
  simpl in Lm, Lp, L1, L2, L3.
  exists k, st. rewrite !Hcol.
  repeat split; try assumption; try reflexivity; lia.
Qed.

End Shape.

(** * C2: a backend tag the script does not know *)

Section UnknownBackend.

Context {E : Externals}.

Lemma no_call_refl w : no_call w w.
Proof. reflexivity. Qed.

Lemma no_call_trans w1 w2 w3 : no_call w1 w2 -> no_call w2 w3 -> no_call w1 w3.
Proof. unfold no_call, same_on. congruence. Qed.

Lemma no_call_draw {A} (f : rng -> A * rng) : keeps no_call (draw f).
Proof. apply same_on_draw. Qed.

Lemma no_call_emit ev :
  match ev with EvSolverCall _ _ => False | _ => True end ->
  keeps no_call (emit ev).
Proof.
  intros Hev. apply same_on_emit. destruct ev; try reflexivity; contradiction.
Qed.

Lemma no_call_generate n m p dns : keeps no_call (generate n m p dns).
Proof.
  pose proof no_call_refl as R. pose proof no_call_trans as T.
  unfold generate, np_random_choice, spa_random, sp_randn, sp_rand.
  repeat first
    [ apply no_call_draw
    | apply no_call_emit; exact I
    | keeps_step ].
Qed.

Lemma repetition_unknown solver n m p dns j s :
  solver <> "gurobi" -> solver <> "miosqp" ->
  repetition solver n m p dns j s = (generate n m p dns ;;; ret s).
Proof.
  intros Hg Hm. unfold repetition.
  destruct (String.eqb_spec solver "gurobi") as [|_]; [contradiction|].
  destruct (String.eqb_spec solver "miosqp") as [|_]; [contradiction|].
  reflexivity.
Qed.

Lemma repetitions_unknown solver n m p dns xs s w s' w' :
  solver <> "gurobi" -> solver <> "miosqp" ->
  for_each xs (repetition solver n m p dns) s w = (Ok s', w') -> s' = s.
Proof.
  intros Hg Hm H.
  eapply (for_each_invariant (fun t => t = s)); [ | reflexivity | exact H].
  intros j t u t' u' _ -> Hj. rewrite repetition_unknown in Hj by assumption.
  apply bind_ok in Hj as (inst & w1 & _ & Hj). apply ret_ok in Hj as [-> _].
  reflexivity.
Qed.

Lemma no_call_configuration n_vec m_vec p_vec repeat dns solver i st :
  solver <> "gurobi" -> solver <> "miosqp" ->
  keeps no_call (configuration n_vec m_vec p_vec repeat dns solver i st).
Proof.
  intros Hg Hm.
  pose proof no_call_refl as R. pose proof no_call_trans as T.
  unfold configuration.
  repeat first
    [ apply no_call_emit; exact I
    | rewrite repetition_unknown by assumption
    | apply no_call_generate
    | keeps_step ].
Qed.

Lemma zero_statistics n_vec m_vec p_vec repeat dns solver xs st w st' w' :
  solver <> "gurobi" -> solver <> "miosqp" ->
  max_solve_time st = replicate (length n_vec) 0%float ->
  min_solve_time st = replicate (length n_vec) 0%float ->
  for_each xs (configuration n_vec m_vec p_vec repeat dns solver) st w
    = (Ok st', w') ->
  max_solve_time st' = replicate (length n_vec) 0%float /\
  min_solve_time st' = replicate (length n_vec) 0%float.
Proof.
  intros Hg Hm Hmx Hmn H.
  eapply (for_each_invariant
            (fun t => max_solve_time t = replicate (length n_vec) 0%float /\
                      min_solve_time t = replicate (length n_vec) 0%float));
    [ | split; eassumption | exact H].
  intros i t u t' u' _ [Imx Imn] Hi.
  apply configuration_ok in Hi
    as (n & m & p & s & mx & mn & _ & _ & _ & Hr & Hs & Hx & Hn & _ & -> & -> & _).
  apply repetitions_unknown in Hs; [ | assumption | assumption]. subst s.
  simpl in Hx, Hn.
  destruct (Z.to_nat repeat) as [|r]; [discriminate|].
  rewrite np_max_zeros in Hx. rewrite np_min_zeros in Hn.
  injection Hx as <-. injection Hn as <-.
  rewrite Imx, Imn, !insert_replicate. split; reflexivity.
Qed.

End UnknownBackend.




(** * The loop over the configurations *)

Section Sweep.

Context {E : Externals}.

Lemma configurations_lookup n_vec m_vec p_vec i n m p :
  n_vec !! i = Some n -> m_vec !! i = Some m -> p_vec !! i = Some p ->
  configurations n_vec m_vec p_vec !! i = Some [n; m; p].
Proof.
  intros Hn Hm Hp. unfold configurations.
  rewrite lookup_zip_with, Hn. simpl.
  rewrite lookup_zip_with, Hm. simpl. rewrite Hp. reflexivity.
Qed.

Lemma visited_emit ev :
  match ev with EvPrint _ _ => False | _ => True end ->
  keeps (same_on visited) (emit ev).
Proof.
  intros Hev. apply same_on_emit. destruct ev; try reflexivity; contradiction.
Qed.

Ltac visited_tac :=
  pose proof (same_on_refl visited) as R;
  pose proof (same_on_trans visited) as T;
  repeat first
    [ apply same_on_draw
    | apply same_on_extern
    | apply visited_emit; exact I
    | keeps_step ].

Lemma visited_generate n m p dns : keeps (same_on visited) (generate n m p dns).
Proof.
  unfold generate, np_random_choice, spa_random, sp_randn, sp_rand.
  visited_tac.
Qed.

Lemma visited_repetition solver n m p dns j s :
  keeps (same_on visited) (repetition solver n m p dns j s).
Proof.
  unfold repetition, solve_gurobi, solve_miosqp, ipdb_set_trace.
  apply keeps_bind;
    [apply same_on_trans | apply visited_generate | intros inst].
  visited_tac.
Qed.

Lemma visited_repetitions solver n m p dns xs s :
  keeps (same_on visited) (for_each xs (repetition solver n m p dns) s).
Proof.
  apply keeps_for_each.
  - apply same_on_refl.
  - apply same_on_trans.
  - intros. apply visited_repetition.
Qed.

Lemma swept_start n_vec m_vec p_vec repeat dns solver w0 :
  swept n_vec m_vec p_vec repeat dns solver w0 0
        (initial_statistics n_vec solver) w0.
Proof.
  assert (L : forall i, (i < length n_vec)%nat ->
              replicate (length n_vec) 0%float !! i = Some 0%float).
  { intros i Hi. apply lookup_replicate_2. exact Hi. }
  unfold initial_statistics.
  destruct (String.eqb solver "miosqp"); constructor; simpl;
    try (rewrite length_replicate; reflexivity);
    try (rewrite app_nil_r; reflexivity);
    try lia;
    try (intros i Hi; repeat split; apply L; lia).
Qed.

Lemma swept_step n_vec m_vec p_vec repeat dns solver w0 d st w st' w' :
  swept n_vec m_vec p_vec repeat dns solver w0 d st w ->
  configuration n_vec m_vec p_vec repeat dns solver d st w = (Ok st', w') ->
  swept n_vec m_vec p_vec repeat dns solver w0 (S d) st' w'.
Proof.
  intros [Hv Hb La Lx Ln Hu] H.
  apply configuration_ok in H
    as (n & m & p & s & mx & mn & Hn & Hm & Hp & Hrep & Hs & Hx & Hmn
        & Ea & Ex & En & Ia & Ix & In_).
  pose proof (configurations_lookup _ _ _ _ _ _ _ Hn Hm Hp) as Hc.
  constructor.
  - pose proof (visited_repetitions solver n m p dns
                  (seq 0 (Z.to_nat repeat)) (fresh_samples repeat solver)
                  (announced n m p w)) as K.
    rewrite Hs in K. unfold same_on in K. simpl in K. rewrite K.
    unfold visited at 1. rewrite flat_map_app. fold (visited (w_trace w)).
    rewrite Hv. simpl.
    rewrite (take_S_r _ _ _ Hc), app_assoc. reflexivity.
  - apply lookup_lt_Some in Hn. lia.
  - rewrite Ea, length_insert. exact La.
  - rewrite Ex, length_insert. exact Lx.
  - rewrite En, length_insert. exact Ln.
  - intros i Hi. rewrite Ea, Ex, En.
    rewrite !list_lookup_insert_ne by lia. apply Hu. lia.
Qed.

Lemma swept_prefix n_vec m_vec p_vec repeat dns solver w0 d st w :
  for_each (seq 0 d) (configuration n_vec m_vec p_vec repeat dns solver)
           (initial_statistics n_vec solver) w0 = (Ok st, w) ->
  swept n_vec m_vec p_vec repeat dns solver w0 d st w.
Proof.
  revert st w. induction d as [|d IH]; intros st w H.
  - simpl in H. apply ret_ok in H as [-> ->]. apply swept_start.
  - rewrite seq_S, for_each_app in H. simpl in H.
    apply bind_ok in H as (st1 & w1 & H1 & H).
    apply bind_ok in H as (st2 & w2 & H2 & H).
    apply ret_ok in H as [-> ->].
    eapply swept_step; [apply IH; exact H1 | exact H2].
Qed.

End Sweep.

(** * C10: the loop bound is the global [n_prob] *)

Section GlobalBound.

Context {E : Externals}.

Lemma for_each_poison {A S} (body : A -> S -> M S) (x : A) (xs : list A) :
  (forall s w, exists e w', body x s w = (Raise e, w')) ->
  In x xs ->
  forall s w, exists e w', for_each xs body s w = (Raise e, w').
Proof.
  intros Hx. induction xs as [|y ys IH]; intros Hin s w; [contradiction|].
  simpl. rewrite bind_run.
  destruct (body y s w) as [[s1|e1] w1] eqn:Hy.
  - destruct Hin as [->|Hin].
    + destruct (Hx s w) as (e & w' & He). congruence.
    + apply IH. exact Hin.
  - exists e1, w1. reflexivity.
Qed.

Lemma configuration_out_of_range n_vec m_vec p_vec repeat dns solver i st w :
  (length n_vec <= i)%nat ->
  configuration n_vec m_vec p_vec repeat dns solver i st w
  = (Raise IndexError, w).
Proof.
  intros Hi. unfold configuration, get_item.
  rewrite (lookup_ge_None_2 n_vec i) by lia. reflexivity.
Qed.

Lemma visited_seeded seed solver w :
  visited (w_trace (seeded seed solver w)) = visited (w_trace w).
Proof.
  unfold seeded, visited. simpl. rewrite flat_map_app. simpl.
  apply app_nil_r.
Qed.

Lemma solve_sweep_fails n_vec m_vec p_vec repeat dns seed solver k w e w' :
  0 <= seed < 2 ^ 32 ->
  sweep n_vec m_vec p_vec repeat dns solver k (seeded seed solver w)
    = (Raise e, w') ->
  solve (Some k) n_vec m_vec p_vec repeat dns seed solver w = (Raise e, w').
Proof.
  intros Hseed H. rewrite solve_run by exact Hseed.
  change (bind (sweep n_vec m_vec p_vec repeat dns solver k)
               (fun st => d <- df_dict n_vec m_vec p_vec solver st ;;
                          timings <- lift (pd_DataFrame keeps_dict_order d) ;;
                          ret timings)
               (seeded seed solver w) = (Raise e, w')).
  apply bind_fail. exact H.
Qed.

End GlobalBound.



(** The three cases on a sweep of two configurations. *)
Example n_prob_unbound :
  fst (solve (E:=scripted calm) None [4; 6] [2; 3] [1; 2] 2 0.6%float 0 "gurobi"
             (scripted_world calm 5 0))
  = Raise (NameError "n_prob").
Proof. vm_compute. reflexivity. Qed.

Example n_prob_too_large :
  fst (solve (E:=scripted calm) (Some 3) [4; 6] [2; 3] [1; 2] 2 0.6%float 0 "gurobi"
             (scripted_world calm 5 0))
  = Raise IndexError.
Proof. vm_compute. reflexivity. Qed.

Example n_prob_too_small :
  fst (solve (E:=scripted calm) (Some 1) [4; 6] [2; 3] [1; 2] 2 0.6%float 0 "gurobi"
             (scripted_world calm 5 0))
  = Ok [ ("n", IntColumn [4; 6]); ("m", IntColumn [2; 3]); ("p", IntColumn [1; 2]);
         ("t_min[ms]", FloatColumn [0x1.999999999999ap-4%float; 0%float]);
         ("t_max[ms]", FloatColumn [0x1.999999999999ap-4%float; 0%float]);
         ("t_avg[ms]", FloatColumn [0x1.999999999999ap-4%float; 0%float]) ].
Proof. vm_compute. reflexivity. Qed.

(** * The instance generator *)

Section Generator.

Context {E : Externals}.

Lemma draw_ok {A} (f : rng -> A * rng) (w : world) a w' :
  draw f w = (Ok a, w') ->
  a = fst (f (w_rng w)) /\
  w' = World (snd (f (w_rng w))) (w_ext w) (w_trace w).
Proof. unfold draw. intros H. injection H as <- <-. split; reflexivity. Qed.

Lemma np_dot_gram (a : matrix) :
  np_dot (transpose a) a
  = Ok (tabulate (ncols a) (ncols a) (dot_entry (transpose a) a)).
Proof.
  unfold np_dot. simpl. rewrite Nat.eqb_refl. reflexivity.
Qed.

Lemma np_random_choice_run n p w :
  0 <= p <= Z.max 0 n ->
  np_random_choice n p w
  = (Ok (take (Z.to_nat p) (fst (draw_permutation (w_rng w) (Z.to_nat n)))),
     World (snd (draw_permutation (w_rng w) (Z.to_nat n))) (w_ext w) (w_trace w)).
Proof.
  intros Hp. unfold np_random_choice.
  destruct (Z.ltb_spec p 0) as [?|_]; [lia|].
  destruct (Z.ltb_spec (Z.of_nat (Z.to_nat n)) p) as [?|_]; [lia|].
  destruct (Nat.eqb_spec (Z.to_nat n) 0) as [Hz|_]; [ | reflexivity].
  destruct (Z.eqb_spec p 0) as [_|?]; [reflexivity | lia].
Qed.

Lemma np_random_choice_fails n p w :
  p < 0 \/ Z.max 0 n < p ->
  np_random_choice n p w = (Raise (ValueError "np.random.choice"), w).
Proof.
  intros H. unfold np_random_choice.
  destruct (Z.ltb_spec p 0) as [?|?]; [rewrite orb_true_r; reflexivity|].
  destruct (Z.ltb_spec (Z.of_nat (Z.to_nat n)) p) as [?|?];
    [rewrite orb_true_r; reflexivity | lia].
Qed.

Lemma spa_random_run r c dns w :
  0 <= r -> 0 <= c -> valid_density dns = true ->
  spa_random r c dns w
  = (Ok (tabulate (Z.to_nat r) (Z.to_nat c)
                  (fst (draw_sparse (w_rng w) (Z.to_nat r) (Z.to_nat c) dns))),
     World (snd (draw_sparse (w_rng w) (Z.to_nat r) (Z.to_nat c) dns))
           (w_ext w) (w_trace w)).
Proof.
  intros Hr Hc Hd. unfold spa_random. fold (valid_density dns). rewrite Hd.
  destruct (Z.ltb_spec r 0) as [?|_]; [lia|].
  destruct (Z.ltb_spec c 0) as [?|_]; [lia|].
  reflexivity.
Qed.

Lemma spa_random_fails r c dns w :
  r < 0 \/ c < 0 \/ valid_density dns = false ->
  spa_random r c dns w = (Raise (ValueError "scipy.sparse.random"), w).
Proof.
  intros H. unfold spa_random. fold (valid_density dns).
  destruct (Z.ltb_spec r 0) as [?|?]; [reflexivity|].
  destruct (Z.ltb_spec c 0) as [?|?]; [reflexivity|].
  destruct (valid_density dns); [|reflexivity].
  destruct H as [?|[?|?]]; try lia; discriminate.
Qed.

Lemma sp_randn_run k w :
  0 <= k ->
  sp_randn k w
  = (Ok (map (fst (draw_randn (w_rng w) (Z.to_nat k))) (seq 0 (Z.to_nat k))),
     World (snd (draw_randn (w_rng w) (Z.to_nat k))) (w_ext w) (w_trace w)).
Proof.
  intros Hk. unfold sp_randn.
  destruct (Z.ltb_spec k 0) as [?|_]; [lia|]. reflexivity.
Qed.

Lemma sp_rand_run k w :
  0 <= k ->
  sp_rand k w
  = (Ok (map (fst (draw_rand (w_rng w) (Z.to_nat k))) (seq 0 (Z.to_nat k))),
     World (snd (draw_rand (w_rng w) (Z.to_nat k))) (w_ext w) (w_trace w)).
Proof.
  intros Hk. unfold sp_rand.
  destruct (Z.ltb_spec k 0) as [?|_]; [lia|]. reflexivity.
Qed.

(** On admissible arguments every step of the generator succeeds. *)
Lemma generate_succeeds n m p dns w :
  0 <= n -> 0 <= p <= n -> 0 <= m -> valid_density dns = true ->
  exists inst w', generate n m p dns w = (Ok inst, w').
Proof.
  intros Hn Hp Hm Hd. unfold generate.
  erewrite bind_step by (apply np_random_choice_run; lia).
  erewrite bind_step by (apply spa_random_run; [lia | lia | assumption]).
  rewrite np_dot_gram. erewrite bind_step by reflexivity.
  erewrite bind_step by (apply sp_randn_run; lia).
  erewrite bind_step by (apply spa_random_run; [lia | lia | assumption]).
  erewrite bind_step by (apply sp_rand_run; lia).
  erewrite bind_step by (apply sp_rand_run; lia).
  destruct (add_bounds _ _ _ _ _ _) as [[A' l'] u'].
  erewrite bind_step by reflexivity.
  eexists. eexists. reflexivity.
Qed.

(** The anatomy of a generated instance. *)
Lemma generate_ok n m p dns w inst w' :
  generate n m p dns w = (Ok inst, w') ->
  0 <= n /\ 0 <= p <= n /\ 0 <= m /\ valid_density dns = true /\
  exists st1 st3 st4 st5 : rng,
    let Pt := tabulate (Z.to_nat n) (Z.to_nat n)
                (fst (draw_sparse st1 (Z.to_nat n) (Z.to_nat n) dns)) in
    let A := tabulate (Z.to_nat m) (Z.to_nat n)
                (fst (draw_sparse st3 (Z.to_nat m) (Z.to_nat n) dns)) in
    inst_idx inst
    = take (Z.to_nat p) (fst (draw_permutation (w_rng w) (Z.to_nat n))) /\
    np_dot (transpose Pt) Pt = Ok (inst_P inst) /\
    (inst_A inst, inst_l inst, inst_u inst)
    = add_bounds (inst_idx inst) 0%float 1%float A
                 (lower_bounds (fst (draw_rand st5 (Z.to_nat m))) (Z.to_nat m))
                 (upper_bounds (fst (draw_rand st4 (Z.to_nat m))) (Z.to_nat m)) /\
    generated_instances (w_trace w') = generated_instances (w_trace w) ++ [inst].
Proof.
  intros H. unfold generate in H.
  destruct (Z_lt_le_dec n 0) as [Hn|Hn].
  { apply bind_ok in H as (idx & w1 & _ & H).
    apply bind_ok in H as (Pt & w2 & Hs & _).
    rewrite spa_random_fails in Hs by (left; exact Hn). discriminate. }
  destruct (Z_lt_le_dec p 0) as [Hp0|Hp0];
    [ rewrite (bind_fail _ _ _ _ _ (np_random_choice_fails n p w
                   (or_introl Hp0))) in H; discriminate | ].
  destruct (Z_le_gt_dec p n) as [Hpn|Hpn];
    [ | erewrite bind_fail in H by (apply np_random_choice_fails; lia);
        discriminate].
  erewrite bind_step in H by (apply np_random_choice_run; lia).
  destruct (valid_density dns) eqn:Hd;
    [ | erewrite bind_fail in H
          by (apply spa_random_fails; right; right; exact Hd);
        discriminate].
  erewrite bind_step in H by (apply spa_random_run; [lia | lia | assumption]).
  rewrite np_dot_gram in H. erewrite bind_step in H by reflexivity.
  erewrite bind_step in H by (apply sp_randn_run; lia).
  destruct (Z_lt_le_dec m 0) as [Hm|Hm];
    [ erewrite bind_fail in H by (apply spa_random_fails; left; exact Hm);
      discriminate | ].
  erewrite bind_step in H by (apply spa_random_run; [lia | lia | assumption]).
  erewrite bind_step in H by (apply sp_rand_run; lia).
  erewrite bind_step in H by (apply sp_rand_run; lia).
  simpl w_rng in H.
  match type of H with
  | context [add_bounds ?i ?a ?b ?c ?d ?e] =>
      destruct (add_bounds i a b c d e) as [[A' l'] u'] eqn:Hab
  end.
  erewrite bind_step in H by reflexivity.
  apply ret_ok in H as [-> ->].
  repeat split; try lia.
  do 4 eexists. simpl. repeat split.
  - apply np_dot_gram.
  - symmetry. exact Hab.
  - unfold generated_instances. rewrite flat_map_app. reflexivity.
Qed.

(** The generator writes the instance to the log, and nothing else. *)
Lemma generate_log n m p dns w inst w' :
  generate n m p dns w = (Ok inst, w') ->
  w_ext w' = w_ext w /\ w_trace w' = w_trace w ++ [EvGenerated inst].
Proof.
  intros H.
  pose proof (generate_ok _ _ _ _ _ _ _ H) as (Hn & Hp & Hm & Hd & _).
  unfold generate in H.
  erewrite bind_step in H by (apply np_random_choice_run; lia).
  erewrite bind_step in H by (apply spa_random_run; [lia | lia | assumption]).
  rewrite np_dot_gram in H. erewrite bind_step in H by reflexivity.
  erewrite bind_step in H by (apply sp_randn_run; lia).
  erewrite bind_step in H by (apply spa_random_run; [lia | lia | assumption]).
  erewrite bind_step in H by (apply sp_rand_run; lia).
  erewrite bind_step in H by (apply sp_rand_run; lia).
  simpl w_rng in H.
  match type of H with
  | context [add_bounds ?i ?a ?b ?c ?d ?e] =>
      destruct (add_bounds i a b c d e) as [[A' l'] u'] eqn:Hab
  end.
  erewrite bind_step in H by reflexivity.
  apply ret_ok in H as [-> ->]. split; reflexivity.
Qed.

End Generator.

(** * C4: which arguments the generator rejects *)

(** C4, as amended.  The generator has no parameter check of its own; the
    library calls reject some arguments with a [ValueError].  With a
    positive [p] above [n] the first statement, the draw of the indices,
    raises and nothing else happens; with a negative [n] or a negative [m] a
    [ValueError] is raised at the latest when the matrix of that dimension
    is drawn.  For [0 < n], [0 <= p <= n], [0 <= m] and a density in
    [[0, 1]] an instance is returned, [m = 0] and [p = 0] included. *)
Theorem generator_rejections {E : Externals} n m p dns (w : world) :
  (0 < p -> n < p ->
   generate n m p dns w = (Raise (ValueError "np.random.choice"), w)) /\
  (n < 0 \/ m < 0 ->
   exists origin w', generate n m p dns w = (Raise (ValueError origin), w')) /\
  (0 < n -> 0 <= p <= n -> 0 <= m -> valid_density dns = true ->
   exists inst w', generate n m p dns w = (Ok inst, w')).
Proof.
  split; [ | split].
  - intros Hp Hn. unfold generate. apply bind_fail.
    apply np_random_choice_fails. lia.
  - intros Hneg.
    destruct (Z_lt_le_dec p 0) as [Hp0|Hp0];
      [ eexists; eexists; unfold generate; apply bind_fail;
        apply np_random_choice_fails; lia | ].
    destruct (Z_le_gt_dec p (Z.max 0 n)) as [Hpn|Hpn];
      [ | eexists; eexists; unfold generate; apply bind_fail;
          apply np_random_choice_fails; lia].
    unfold generate.
    erewrite bind_step by (apply np_random_choice_run; lia).
    destruct (Z_lt_le_dec n 0) as [Hn|Hn];
      [ eexists; eexists; apply bind_fail; apply spa_random_fails; left;
        exact Hn | ].
    destruct Hneg as [Hn'|Hm]; [lia|].
    destruct (valid_density dns) eqn:Hd.
    + erewrite bind_step by (apply spa_random_run; [lia | lia | assumption]).
      rewrite np_dot_gram. erewrite bind_step by reflexivity.
      erewrite bind_step by (apply sp_randn_run; lia).
      eexists; eexists. apply bind_fail. apply spa_random_fails. left. exact Hm.
    + eexists; eexists. apply bind_fail. apply spa_random_fails.
      right; right. exact Hd.
  - intros Hn. apply generate_succeeds. lia.
Qed.

(** The claim fails for the dimension [n = 0]: on the numpy releases
    modelled, which accept an empty population when nothing is drawn from
    it, [p = 0] gives an instance without variables. *)
Lemma generator_accepts_no_variables :
  fst (generate (E:=scripted calm) 0 2 0 0.6%float (scripted_world calm 0 0))
  = Ok (Instance
          (Matrix 0 0 [])
          []
          (Matrix 2 0 [ []; [] ])
          [(-0.5)%float; (-0.25)%float]
          [1.25%float; 1.5%float]
          []).
Proof. vm_compute. reflexivity. Qed.

(** With no base constraint row ([m = 0]) the instance has only the rows
    of the bounds on its restricted variables. *)
Example generator_accepts_zero_rows :
  fst (generate (E:=scripted calm) 3 0 1 0.6%float (scripted_world calm 0 0))
  = Ok (Instance
          (Matrix 3 3 [ [0.0625%float; 0%float; 0%float];
                        [0%float; 0.5625%float; 0%float];
                        [0%float; 0%float; 0.015625%float] ])
          [0.5%float; 0.5%float; 0.5%float]
          (Matrix 2 3 [ [1%float; 0%float; 0%float];
                        [1%float; 0%float; 0%float] ])
          [0%float; neg_infinity]
          [infinity; 1%float]
          [0%nat]).
Proof. vm_compute. reflexivity. Qed.

(** The example of the spec, [generate(n=5, m=3, p=7)]. *)
Example generate_5_3_7 :
  generate (E:=scripted calm) 5 3 7 0.6%float (scripted_world calm 0 0)
  = (Raise (ValueError "np.random.choice"), scripted_world calm 0 0).
Proof. vm_compute. reflexivity. Qed.

(** * C8: the rows added for the variable bounds *)

Lemma lookup_map_seq {A} (f : nat -> A) a n i :
  map f (seq a n) !! i = if (i <? n)%nat then Some (f (a + i)%nat) else None.
Proof.
  revert a i. induction n as [|n IH]; intros a i; simpl.
  - destruct i; reflexivity.
  - destruct i as [|i]; simpl.
    + rewrite Nat.add_0_r. reflexivity.
    + rewrite IH. replace (S a + i)%nat with (a + S i)%nat by lia.
      reflexivity.
Qed.

Lemma length_map_seq {A} (f : nat -> A) a n : length (map f (seq a n)) = n.
Proof. rewrite length_map, length_seq. reflexivity. Qed.

Lemma mentions_unit_row n i j lo hi :
  mentions i (unit_row n j, (lo, hi)) = (i <? n)%nat && (i =? j)%nat.
Proof.
  unfold mentions, unit_row. simpl. rewrite lookup_map_seq. simpl.
  destruct (i <? n)%nat; [|reflexivity]. simpl.
  destruct (i =? j)%nat; reflexivity.
Qed.

Lemma filter_bound_rows n lo hi i idx :
  (i < n)%nat -> NoDup idx -> In i idx ->
  List.filter (mentions i) (flat_map (bound_rows n lo hi) idx)
  = bound_rows n lo hi i.
Proof.
  intros Hi. induction idx as [|j idx IH]; intros Hnd Hin; [contradiction|].
  apply NoDup_cons in Hnd as [Hj Hnd].
  cbn [flat_map bound_rows app List.filter].
  rewrite !mentions_unit_row.
  destruct (Nat.ltb_spec i n) as [_|?]; [|lia]. simpl.
  destruct (Nat.eqb_spec i j) as [->|Hne].
  - assert (Hnone : forall l, ~ In j l ->
              List.filter (mentions j) (flat_map (bound_rows n lo hi) l) = []).
    { clear. induction l as [|k l IHl]; intros Hk; [reflexivity|].
      cbn [flat_map bound_rows app List.filter].
      rewrite !mentions_unit_row.
      destruct (Nat.eqb_spec j k) as [->|_].
      - exfalso. apply Hk. left. reflexivity.
      - rewrite andb_false_r. apply IHl. intros H. apply Hk. right. exact H. }
    rewrite Hnone; [reflexivity|]. rewrite <- list_elem_of_In. exact Hj.
  - destruct Hin as [->|Hin]; [congruence|].
    apply IH; assumption.
Qed.

Lemma length_flat_map_bound_rows n lo hi idx :
  length (flat_map (bound_rows n lo hi) idx) = (2 * length idx)%nat.
Proof.
  induction idx as [|j idx IH]; [reflexivity|].
  cbn [flat_map bound_rows app length]. rewrite IH. lia.
Qed.

Lemma zip_fst_snd {A B C} (rows : list (A * (B * C))) :
  zip (map fst rows) (zip (map (fun r => fst (snd r)) rows)
                          (map (fun r => snd (snd r)) rows)) = rows.
Proof.
  induction rows as [|[a [b c]] rows IH]; simpl; [reflexivity|].
  rewrite IH. reflexivity.
Qed.

Lemma zip_app {A B} (a1 a2 : list A) (b1 b2 : list B) :
  length a1 = length b1 ->
  zip (a1 ++ a2) (b1 ++ b2) = zip a1 b1 ++ zip a2 b2.
Proof.
  revert b1. induction a1 as [|x a1 IH]; intros [|y b1] H; simpl in *;
    try discriminate; [reflexivity|].
  rewrite IH by lia. reflexivity.
Qed.

Section Bounds.

Context {E : Externals} {C : NumpyContract E}.

Lemma choice_distinct (st : rng) (n p : nat) :
  (p <= n)%nat ->
  let idx := take p (fst (draw_permutation st n)) in
  length idx = p /\ NoDup idx /\ forall i, In i idx -> (i < n)%nat.
Proof.
  intros Hp idx. pose proof (permutation_spec st n) as Hperm.
  assert (Hlen : length (fst (draw_permutation st n)) = n).
  { rewrite (Permutation_length Hperm). apply length_seq. }
  assert (Hnd : NoDup (fst (draw_permutation st n))).
  { rewrite Hperm. apply NoDup_ListNoDup, List.seq_NoDup. }
  repeat split.
  - subst idx. rewrite length_take. lia.
  - subst idx. eapply sublist_NoDup; [exact Hnd | apply sublist_take].
  - intros i Hi. subst idx. apply list_elem_of_In in Hi.
    apply elem_of_take in Hi as (k & Hk & _).
    apply list_elem_of_lookup_2 in Hk. rewrite Hperm in Hk.
    apply list_elem_of_In in Hk. apply in_seq in Hk. lia.
Qed.

End Bounds.

(** C8.  In every generated instance the constraint system has the [m] base
    rows followed by exactly [2p] rows, and for every restricted index [i]
    the added rows in which [x_i] appears are exactly two: the row
    [0 <= x_i] and the row [x_i <= 1]. *)
Theorem bounds_add_two_rows_per_restricted_index
  {E : Externals} {C : NumpyContract E} n m p dns (w : world) inst w' :
  generate n m p dns w = (Ok inst, w') ->
  nrows (inst_A inst) = (Z.to_nat m + 2 * Z.to_nat p)%nat /\
  length (constraint_rows inst) = (Z.to_nat m + 2 * Z.to_nat p)%nat /\
  length (inst_idx inst) = Z.to_nat p /\
  forall i, In i (inst_idx inst) ->
    List.filter (mentions i) (drop (Z.to_nat m) (constraint_rows inst))
    = [ (unit_row (Z.to_nat n) i, (0%float, infinity));
        (unit_row (Z.to_nat n) i, (neg_infinity, 1%float)) ].
Proof.
  intros H.
  apply generate_ok in H
    as (Hn & Hp & Hm & _ & st1 & st3 & st4 & st5 & Hidx & _ & Hab & _).
  cbv zeta in Hidx, Hab.
  destruct (choice_distinct (w_rng w) (Z.to_nat n) (Z.to_nat p))
    as (Hlen & Hnd & Hlt); [lia|].
  cbv zeta in Hlen, Hnd, Hlt. rewrite <- Hidx in Hlen, Hnd, Hlt.
  unfold add_bounds in Hab. cbn [ncols tabulate nrows entries] in Hab.
  set (added := flat_map (bound_rows (Z.to_nat n) 0%float 1%float)
                         (inst_idx inst)) in *.
  assert (Hadded : length added = (2 * Z.to_nat p)%nat).
  { subst added. rewrite length_flat_map_bound_rows, Hlen. reflexivity. }
  assert (Hrows : constraint_rows inst =
            zip (map (fun i => map (fst (draw_sparse st3 (Z.to_nat m)
                                           (Z.to_nat n) dns) i)
                                   (seq 0 (Z.to_nat n))) (seq 0 (Z.to_nat m)))
                (zip (lower_bounds (fst (draw_rand st5 (Z.to_nat m))) (Z.to_nat m))
                     (upper_bounds (fst (draw_rand st4 (Z.to_nat m))) (Z.to_nat m)))
            ++ added).
  { unfold constraint_rows. injection Hab as HA Hl Hu.
    rewrite HA, Hl, Hu. cbn [entries].
    rewrite zip_app.
    - rewrite zip_app.
      + rewrite zip_fst_snd. reflexivity.
      + rewrite length_map_seq. rewrite length_zip_with.
        unfold lower_bounds, upper_bounds.
        rewrite !length_map, !length_seq. lia.
    - unfold lower_bounds, upper_bounds.
      rewrite !length_map, !length_seq. reflexivity. }
  assert (Hbase : forall (X : list (list float)) (Y : list (float * float)),
             length X = Z.to_nat m -> length Y = Z.to_nat m ->
             length (zip X Y) = Z.to_nat m).
  { intros X Y HX HY. rewrite length_zip_with. lia. }
  assert (Hb : length
            (zip (map (fun i => map (fst (draw_sparse st3 (Z.to_nat m)
                                           (Z.to_nat n) dns) i)
                                   (seq 0 (Z.to_nat n))) (seq 0 (Z.to_nat m)))
                (zip (lower_bounds (fst (draw_rand st5 (Z.to_nat m))) (Z.to_nat m))
                     (upper_bounds (fst (draw_rand st4 (Z.to_nat m))) (Z.to_nat m))))
            = Z.to_nat m).
  { apply Hbase.
    - apply length_map_seq.
    - rewrite length_zip_with. unfold lower_bounds, upper_bounds.
      rewrite !length_map, !length_seq. lia. }
  repeat split.
  - injection Hab as HA _ _. rewrite HA. cbn [nrows].
    rewrite Hadded. reflexivity.
  - rewrite Hrows, length_app, Hb, Hadded. reflexivity.
  - exact Hlen.
  - intros i Hi. rewrite Hrows.
    rewrite drop_app_length' by (symmetry; exact Hb).
    subst added. apply filter_bound_rows; [apply Hlt; exact Hi | exact Hnd | exact Hi].
Qed.

(** The scripted libraries keep numpy's promises. *)
Lemma calm_contract : NumpyContract (scripted calm).
Proof.
  constructor.
  - intros st k. simpl. destruct (Nat.odd st); [ | reflexivity].
    symmetry. apply Permutation_rev.
  - intros st k i.
    change (fst (@draw_rand (scripted calm) st k) i)
      with (nth ((st + i) mod 4)%nat
                [0.25%float; 0.5%float; 0.75%float; 0.125%float] 0.25%float).
    generalize ((st + i) mod 4)%nat.
    intros [|[|[|[|x]]]]; cbn [nth]; try (split; reflexivity).
    destruct x; split; reflexivity.
Qed.

Lemma bounds_add_two_rows_per_restricted_index_witness :
  generate (E:=scripted calm) 4 2 2 0.6%float (scripted_world calm 1 0)
  = (Ok small_instance, snd small_run) /\
  nrows (inst_A small_instance) = (Z.to_nat 2 + 2 * Z.to_nat 2)%nat /\
  length (constraint_rows small_instance) = (Z.to_nat 2 + 2 * Z.to_nat 2)%nat /\
  length (inst_idx small_instance) = Z.to_nat 2 /\
  forall i, In i (inst_idx small_instance) ->
    List.filter (mentions i) (drop (Z.to_nat 2) (constraint_rows small_instance))
    = [ (unit_row (Z.to_nat 4) i, (0%float, infinity));
        (unit_row (Z.to_nat 4) i, (neg_infinity, 1%float)) ].
Proof.
  split; [vm_compute; reflexivity | ].
  apply (@bounds_add_two_rows_per_restricted_index (scripted calm) calm_contract
           4 2 2 0.6%float (scripted_world calm 1 0) small_instance
           (snd small_run)).
  vm_compute. reflexivity.
Defined.

Example small_instance_rows :
  constraint_rows small_instance
  = [ ([0.5%float; 0%float; 0%float; 0%float], ((-0.25)%float, 1.5%float));
      ([0%float; 0.25%float; 0%float; 0%float], ((-0.875)%float, 1.75%float));
      ([0%float; 0%float; 0%float; 1%float], (0%float, infinity));
      ([0%float; 0%float; 0%float; 1%float], (neg_infinity, 1%float));
      ([0%float; 0%float; 1%float; 0%float], (0%float, infinity));
      ([0%float; 0%float; 1%float; 0%float], (neg_infinity, 1%float)) ].
Proof. vm_compute. reflexivity. Qed.

(** * C3: the same seed gives the same run *)

Section Replay.

Context {E : Externals}.

Lemma agree_ret {A} (a : A) : agree (ret a).
Proof. intros w1 w2 H. split; [reflexivity | exact H]. Qed.

Lemma agree_raise {A} (e : exn) : agree (@raise _ A e).
Proof. intros w1 w2 H. split; [reflexivity | exact H]. Qed.

Lemma agree_lift {A} (o : outcome A) : agree (lift o).
Proof. intros w1 w2 H. split; [reflexivity | exact H]. Qed.

Lemma agree_local {A} name (v : option A) : agree (local name v).
Proof. destruct v; [apply agree_ret | apply agree_raise]. Qed.

Lemma agree_emit ev : agree (emit ev).
Proof.
  intros w1 w2 [Hr Ht]. split; [reflexivity|].
  split; simpl; [exact Hr | rewrite Ht; reflexivity].
Qed.

Lemma agree_draw {A} (f : rng -> A * rng) : agree (draw f).
Proof.
  intros w1 w2 [Hr Ht]. unfold draw. simpl. rewrite Hr.
  split; [reflexivity|]. split; simpl; [reflexivity | exact Ht].
Qed.

Lemma agree_extern {A} (f : ext -> A * ext) :
  (forall x1 x2, fst (f x1) = fst (f x2)) -> agree (extern f).
Proof.
  intros Hf w1 w2 [Hr Ht]. unfold extern. simpl.
  split; [f_equal; apply Hf|]. split; simpl; assumption.
Qed.

Lemma agree_bind {A B} (c : M A) (k : A -> M B) :
  agree c -> (forall a, agree (k a)) -> agree (bind c k).
Proof.
  intros Hc Hk w1 w2 H. rewrite !bind_run.
  destruct (Hc w1 w2 H) as [Ho Hw].
  destruct (c w1) as [[a1|e1] u1], (c w2) as [[a2|e2] u2]; simpl in *;
    try discriminate.
  - injection Ho as ->. apply Hk. exact Hw.
  - injection Ho as ->. split; [reflexivity | exact Hw].
Qed.

Lemma agree_for_each {A S} (xs : list A) (body : A -> S -> M S) :
  (forall x s, agree (body x s)) -> forall s, agree (for_each xs body s).
Proof.
  intros Hb. induction xs as [|x xs IH]; intros s; simpl.
  - apply agree_ret.
  - apply agree_bind; [apply Hb | exact IH].
Qed.

End Replay.

Ltac agree_step :=
  first
    [ apply agree_ret
    | apply agree_raise
    | apply agree_lift
    | apply agree_local
    | apply agree_emit
    | apply agree_draw
    | apply agree_for_each; intros
    | apply agree_bind; [ | intros]
    | match goal with
      | |- agree (if ?b then _ else _) => destruct b
      | |- agree (match ?x with _ => _ end) => destruct x
      end ].

Section ReplaySolve.

Context {E : Externals}.
Hypothesis D : deterministic_externals E.

Lemma agree_generate n m p dns : agree (generate n m p dns).
Proof.
  unfold generate, np_random_choice, spa_random, sp_randn, sp_rand.
  repeat agree_step.
Qed.

Lemma agree_ipdb : agree ipdb_set_trace.
Proof.
  destruct D as (_ & _ & Hd). unfold ipdb_set_trace.
  apply agree_bind; [apply agree_emit | intros _].
  apply agree_bind; [apply agree_extern; exact Hd | intros a].
  destruct a; [apply agree_ret | apply agree_raise].
Qed.

Lemma agree_repetition solver n m p dns j s :
  agree (repetition solver n m p dns j s).
Proof.
  destruct D as (Hg & Hm & Hd). unfold repetition.
  apply agree_bind; [apply agree_generate | intros inst].
  destruct (String.eqb solver "gurobi").
  - unfold solve_gurobi.
    apply agree_bind; [apply agree_emit | intros _].
    apply agree_bind; [apply agree_extern; intros; apply Hg | intros r].
    apply agree_bind; [apply agree_lift | intros res].
    apply agree_bind; [apply agree_emit | intros _].
    apply agree_bind;
      [destruct (negb _); [apply agree_ipdb | apply agree_ret] | intros _].
    repeat agree_step.
  - destruct (String.eqb solver "miosqp"); [ | apply agree_ret].
    unfold solve_miosqp.
    apply agree_bind; [apply agree_emit | intros _].
    apply agree_bind; [apply agree_extern; intros; apply Hm | intros r].
    apply agree_bind; [apply agree_lift | intros res].
    apply agree_bind; [apply agree_emit | intros _].
    apply agree_bind;
      [destruct (negb _); [apply agree_ipdb | apply agree_ret] | intros _].
    repeat agree_step.
Qed.

Lemma agree_configuration n_vec m_vec p_vec repeat dns solver i st :
  agree (configuration n_vec m_vec p_vec repeat dns solver i st).
Proof.
  unfold configuration.
  repeat first [ apply agree_repetition | agree_step ].
Qed.

Lemma agree_after_seed n_vec m_vec p_vec repeat dns solver n_prob :
  agree (bind (local "n_prob" n_prob)
              (fun k => st <- sweep n_vec m_vec p_vec repeat dns solver k ;;
                        d <- df_dict n_vec m_vec p_vec solver st ;;
                        timings <- lift (pd_DataFrame keeps_dict_order d) ;;
                        ret timings)).
Proof.
  unfold sweep, df_dict.
  repeat first [ apply agree_configuration | agree_step ].
Qed.

End ReplaySolve.

Lemma solve_bad_seed {E : Externals}
  n_prob n_vec m_vec p_vec repeat dns seed solver (w : world) :
  ~ 0 <= seed < 2 ^ 32 ->
  solve n_prob n_vec m_vec p_vec repeat dns seed solver w
  = (Raise (ValueError "np.random.seed"),
     World (w_rng w) (w_ext w)
           (w_trace w ++
            [EvPrint (String.append "Solving random problems with solver " solver) []])).
Proof.
  intros H. unfold solve, np_random_seed.
  destruct (Z.leb_spec 0 seed); destruct (Z.ltb_spec seed (2 ^ 32));
    try lia; reflexivity.
Qed.


Lemma calm_is_deterministic : deterministic_externals (scripted calm).
Proof. repeat split. Qed.


(** * The two backend paths *)

Section NonOptimal.

Context {E : Externals}.

Lemma solve_gurobi_run inst j s w res x :
  gurobi_solve (w_ext w) inst = (Ok res, x) ->
  (j < length (solve_time_temp s))%nat ->
  let recorded :=
    Samples (<[j:=(1000 * g_cputime res)%float]> (solve_time_temp s))
            (osqp_solve_time_temp s) in
  solve_gurobi inst j s w =
  if String.eqb (g_status res) "optimal"
  then (Ok recorded, after_call (gurobi_events inst res) x w)
  else match fst (ipdb_session x) with
       | DbgContinue =>
           (Ok recorded, after_breakpoint (gurobi_events inst res) x w)
       | DbgQuit => (Raise BdbQuit, after_breakpoint (gurobi_events inst res) x w)
       end.
Proof.
  intros Hres Hj recorded.
  unfold solve_gurobi, after_breakpoint, after_call, gurobi_events.
  rewrite bind_run. cbn [emit]. rewrite bind_run.
  unfold extern. cbn [w_ext w_rng w_trace]. rewrite Hres. cbn [fst snd].
  rewrite bind_run. cbn [lift]. rewrite bind_run. cbn [emit w_ext w_rng w_trace].
  rewrite bind_run.
  destruct (String.eqb (g_status res) "optimal"); cbn [negb].
  - cbn [ret]. rewrite bind_run. unfold lift, set_item.
    destruct (Nat.ltb_spec j (length (solve_time_temp s))) as [_|?]; [|lia].
    rewrite <- app_assoc. reflexivity.
  - unfold ipdb_set_trace. rewrite bind_run. cbn [emit].
    rewrite bind_run. unfold extern. cbn [w_ext w_rng w_trace].
    destruct (ipdb_session x) as [[|] x']; cbn [fst snd].
    + cbn [ret]. rewrite bind_run. unfold lift, set_item.
      destruct (Nat.ltb_spec j (length (solve_time_temp s))) as [_|?]; [|lia].
      rewrite <- !app_assoc. reflexivity.
    + cbn [raise]. rewrite <- !app_assoc. reflexivity.
Qed.

Lemma solve_miosqp_run inst j s o w res x :
  miosqp_solve (w_ext w) inst miosqp_settings osqp_settings = (Ok res, x) ->
  osqp_solve_time_temp s = Some o ->
  (j < length (solve_time_temp s))%nat -> (j < length o)%nat ->
  (mi_run_time res =? 0)%float = false ->
  let recorded :=
    Samples (<[j:=(1000 * mi_run_time res)%float]> (solve_time_temp s))
            (Some (<[j:=(100 * (mi_osqp_solve_time res / mi_run_time res))%float]> o)) in
  solve_miosqp inst j s w =
  if mi_status res =? MI_SOLVED
  then (Ok recorded, after_call (miosqp_events inst res) x w)
  else match fst (ipdb_session x) with
       | DbgContinue =>
           (Ok recorded, after_breakpoint (miosqp_events inst res) x w)
       | DbgQuit => (Raise BdbQuit, after_breakpoint (miosqp_events inst res) x w)
       end.
Proof.
  intros Hres Ho Hj Hjo Hrt recorded.
  unfold solve_miosqp, after_breakpoint, after_call, miosqp_events.
  rewrite bind_run. cbn [emit]. rewrite bind_run.
  unfold extern. cbn [w_ext w_rng w_trace]. rewrite Hres. cbn [fst snd].
  rewrite bind_run. cbn [lift]. rewrite bind_run. cbn [emit w_ext w_rng w_trace].
  rewrite bind_run.
  assert (Tail : forall u : world,
    (o0 <- local "osqp_solve_time_temp" (osqp_solve_time_temp s) ;;
     ratio <- lift (py_div (mi_osqp_solve_time res) (mi_run_time res)) ;;
     o' <- lift (set_item o0 j (100 * ratio)%float) ;;
     t <- lift (set_item (solve_time_temp s) j (1000 * mi_run_time res)%float) ;;
     ret (Samples t (Some o'))) u = (Ok recorded, u)).
  { intros u. rewrite Ho. cbn [local]. rewrite bind_run. cbn [ret].
    unfold py_div. rewrite Hrt. rewrite bind_run. cbn [lift].
    unfold set_item.
    destruct (Nat.ltb_spec j (length o)) as [_|?]; [|lia].
    destruct (Nat.ltb_spec j (length (solve_time_temp s))) as [_|?]; [|lia].
    reflexivity. }
  destruct (mi_status res =? MI_SOLVED); cbn [negb].
  - cbn [ret]. rewrite Tail. rewrite <- app_assoc. reflexivity.
  - unfold ipdb_set_trace. rewrite bind_run. cbn [emit].
    rewrite bind_run. unfold extern. cbn [w_ext w_rng w_trace].
    destruct (ipdb_session x) as [[|] x']; cbn [fst snd].
    + cbn [ret]. rewrite Tail. rewrite <- !app_assoc. reflexivity.
    + cbn [raise]. rewrite <- !app_assoc. reflexivity.
Qed.

End NonOptimal.

(** * Facts about binary64 arithmetic

    Derived from the specification of the primitive operations in terms of
    [spec_float]. *)

Section Binary64.

Lemma SFcompare_refl a : a <> S754_nan -> SFcompare a a = Some Eq.
Proof.
  destruct a as [s|s| |s m e]; intros H; try congruence; simpl.
  - reflexivity.
  - destruct s; reflexivity.
  - destruct s; rewrite (Z.compare_refl e);
      change (Pos.compare_cont Eq m m) with (Pos.compare m m);
      rewrite Pos.compare_refl; reflexivity.
Qed.

Ltac cmp_cases :=
  repeat match goal with
  | H : context [Z.compare ?a ?b] |- _ =>
      destruct (Z.compare_spec a b); try subst
  | |- context [Z.compare ?a ?b] =>
      destruct (Z.compare_spec a b); try subst
  | H : context [Pos.compare_cont Eq ?a ?b] |- _ =>
      change (Pos.compare_cont Eq a b) with (Pos.compare a b) in H;
      destruct (Pos.compare_spec a b); try subst
  | |- context [Pos.compare_cont Eq ?a ?b] =>
      change (Pos.compare_cont Eq a b) with (Pos.compare a b);
      destruct (Pos.compare_spec a b); try subst
  end.

Lemma SFleb_trans a b c :
  SFleb a b = true -> SFleb b c = true -> SFleb a c = true.
Proof.
  unfold SFleb, SFcompare.
  destruct a as [sa|sa| |sa ma ea], b as [sb|sb| |sb mb eb],
           c as [sc|sc| |sc mc ec];
    try destruct sa; try destruct sb; try destruct sc;
    try discriminate; try reflexivity; intros H1 H2;
    cmp_cases; simpl in *; try discriminate; try reflexivity; try lia.
Qed.

Lemma SFleb_total a b :
  a <> S754_nan -> b <> S754_nan -> SFleb a b = true \/ SFleb b a = true.
Proof.
  unfold SFleb, SFcompare.
  destruct a as [sa|sa| |sa ma ea], b as [sb|sb| |sb mb eb];
    try destruct sa; try destruct sb; intros Ha Hb; try congruence;
    try (left; reflexivity); try (right; reflexivity);
    cmp_cases; simpl; try (left; reflexivity); try (right; reflexivity); lia.
Qed.

Lemma not_nan_spec (x : float) : is_nan x = false -> Prim2SF x <> S754_nan.
Proof.
  unfold is_nan. rewrite FloatAxioms.eqb_spec. intros H Hn. rewrite Hn in H.
  discriminate H.
Qed.

Lemma leb_not_nan (x y : float) :
  (x <=? y)%float = true -> is_nan x = false /\ is_nan y = false.
Proof.
  rewrite FloatAxioms.leb_spec. unfold is_nan. rewrite !FloatAxioms.eqb_spec. unfold SFleb, SFeqb.
  destruct (Prim2SF x) as [sx|sx| |sx mx ex] eqn:Hx,
           (Prim2SF y) as [sy|sy| |sy my ey] eqn:Hy;
    try discriminate; intros _;
    rewrite !SFcompare_refl by discriminate; split; reflexivity.
Qed.

Lemma leb_refl (x : float) : is_nan x = false -> (x <=? x)%float = true.
Proof.
  intros H. rewrite FloatAxioms.leb_spec. unfold SFleb.
  rewrite SFcompare_refl by (apply not_nan_spec; exact H). reflexivity.
Qed.

Lemma leb_trans (x y z : float) :
  (x <=? y)%float = true -> (y <=? z)%float = true -> (x <=? z)%float = true.
Proof. rewrite !FloatAxioms.leb_spec. apply SFleb_trans. Qed.

Lemma leb_total (x y : float) :
  is_nan x = false -> is_nan y = false ->
  (x <=? y)%float = true \/ (y <=? x)%float = true.
Proof.
  intros Hx Hy. rewrite !FloatAxioms.leb_spec.
  apply SFleb_total; apply not_nan_spec; assumption.
Qed.

Lemma div_eucl_exact a b q : 0 < b -> a = q * b -> Z.div_eucl a b = (q, 0).
Proof.
  intros Hb ->. pose proof (Z.div_mul q b ltac:(lia)) as Hq.
  pose proof (Z_mod_mult q b) as Hr.
  unfold Z.div, Z.modulo in Hq, Hr.
  destruct (Z.div_eucl (q * b) b) as [q' r']. simpl in *. congruence.
Qed.

(** A valid finite number is normal (53 digits) or has the least exponent. *)
Lemma bounded_cases m e :
  bounded prec emax m e = true ->
  e <= 971 /\
  ((-1074 < e /\ Zpos (digits2_pos m) = 53) \/
   (e = -1074 /\ Zpos (digits2_pos m) <= 53)).
Proof.
  unfold bounded, canonical_mantissa, fexp, emin, prec, emax.
  intros H. apply andb_prop in H as [H1 H2].
  apply Z.eqb_eq in H1. apply Z.leb_le in H2. lia.
Qed.

Lemma SFdiv_one sx :
  valid_binary sx = true ->
  SFdiv prec emax sx (S754_finite false 4503599627370496 (-52)) = sx.
Proof.
  destruct sx as [s|s| |s m e]; simpl; intros Hv.
  - destruct s; reflexivity.
  - destruct s; reflexivity.
  - reflexivity.
  - apply bounded_cases in Hv as (He & [[Hlo Hd]|[-> Hd]]).
    + unfold SFdiv_core_binary. cbn [Zdigits2].
      change (Zpos (digits2_pos 4503599627370496)) with 53.
      rewrite Hd.
      replace (Z.min (fexp prec emax (53 + e - (53 + -52))) (e - -52))
        with (e - 1)
        by (unfold fexp, emin, prec, emax; lia).
      replace (e - -52 - (e - 1)) with 53 by lia.
      rewrite (div_eucl_exact _ _ (Zpos m~0)); [ | lia | ].
      2:{ rewrite Z.shiftl_mul_pow2 by lia. lia. }
      cbn [new_location Z.even new_location_even Z.eqb].
      unfold binary_round_aux, shr_fexp. cbn [Zdigits2 digits2_pos].
      rewrite Pos2Z.inj_succ, Hd.
      replace (fexp prec emax (Z.succ 53 + (e - 1)) - (e - 1)) with 1
        by (unfold fexp, emin, prec, emax; lia).
      cbn [shr shr_record_of_loc SpecFloat.iter_pos shr_1 shr_m loc_of_shr_record
           round_nearest_even orb].
      cbn [Zdigits2]. rewrite Hd.
      replace (e - 1 + 1) with e by lia.
      replace (fexp prec emax (53 + e) - e) with 0
        by (unfold fexp, emin, prec, emax; lia).
      cbn [shr shr_m].
      replace (e <=? emax - prec) with true
        by (symmetry; apply Z.leb_le; unfold emax, prec; lia).
      destruct s; reflexivity.
    + unfold SFdiv_core_binary. cbn [Zdigits2].
      change (Zpos (digits2_pos 4503599627370496)) with 53.
      replace (Z.min (fexp prec emax
                        (Zpos (digits2_pos m) + -1074 - (53 + -52)))
                     (-1074 - -52))
        with (-1074)
        by (unfold fexp, emin, prec, emax; lia).
      replace (-1074 - -52 - -1074) with 52 by lia.
      rewrite (div_eucl_exact _ _ (Zpos m)); [ | lia | ].
      2:{ rewrite Z.shiftl_mul_pow2 by lia. lia. }
      cbn [new_location Z.even new_location_even Z.eqb].
      unfold binary_round_aux, shr_fexp. cbn [Zdigits2].
      replace (fexp prec emax (Zpos (digits2_pos m) + -1074) - -1074) with 0
        by (unfold fexp, emin, prec, emax; lia).
      cbn [shr shr_record_of_loc shr_m loc_of_shr_record round_nearest_even].
      cbn [Zdigits2].
      replace (fexp prec emax (Zpos (digits2_pos m) + -1074) - -1074) with 0
        by (unfold fexp, emin, prec, emax; lia).
      cbn [shr shr_m]. destruct s; reflexivity.
Qed.

(** Dividing by one is exact. *)
Lemma div_one (x : float) : (x / 1)%float = x.
Proof.
  apply Prim2SF_inj. rewrite div_spec. apply SFdiv_one. apply Prim2SF_valid.
Qed.

End Binary64.

(** * C5: aggregating needs a sample *)

(** C5.  The aggregation of lines 124-127 fails on an empty sample vector
    ([np.mean] only yields a NaN, [np.max] raises), and on a single sample
    [t] its mean, maximum and minimum are [t].  In the harness the vector is
    empty exactly when [repeat] is 0, and the configuration then fails with
    this error. *)
Theorem aggregate_needs_a_sample {E : Externals} :
  aggregate [] = Raise (ValueError "np.max") /\
  (forall t, aggregate [t] = Ok (t, t, t)) /\
  (forall n_vec m_vec p_vec dns solver i st (w : world) n m p,
     n_vec !! i = Some n -> m_vec !! i = Some m -> p_vec !! i = Some p ->
     configuration n_vec m_vec p_vec 0 dns solver i st w
     = (Raise (ValueError "np.max"), announced n m p w)).
Proof.
  split; [reflexivity | split].
  - intros t. unfold aggregate, np_mean. cbn [np_sum fold_left np_max np_min length].
    change (float_of_nat 1) with 1%float. rewrite div_one. reflexivity.
  - intros n_vec m_vec p_vec dns solver i st w n m p Hn Hm Hp.
    unfold configuration, get_item. rewrite Hn, Hm, Hp.
    destruct (String.eqb solver "miosqp"); reflexivity.
Qed.

Example aggregate_of_five : aggregate [5%float] = Ok (5%float, 5%float, 5%float).
Proof. reflexivity. Qed.

Example sweep_without_repetition :
  fst (solve (E:=scripted calm) (Some 1) [4] [2] [1] 0 0.6%float 0 "gurobi"
             (scripted_world calm 0 0))
  = Raise (ValueError "np.max").
Proof. vm_compute. reflexivity. Qed.

(** * The samples of a configuration *)

Section Samples.

Context {E : Externals}.

Lemma emit_ok ev (w : world) a w' :
  emit ev w = (Ok a, w') ->
  w' = World (w_rng w) (w_ext w) (w_trace w ++ [ev]).
Proof. unfold emit. intros H. injection H as _ <-. reflexivity. Qed.

Lemma extern_ok {A} (f : ext -> A * ext) (w : world) a w' :
  extern f w = (Ok a, w') ->
  f (w_ext w) = (a, w_ext w').
Proof.
  unfold extern. intros H. injection H as <- <-. simpl.
  destruct (f (w_ext w)). reflexivity.
Qed.

Lemma extern_world {A} (f : ext -> A * ext) (w : world) a w' :
  extern f w = (Ok a, w') ->
  w_rng w' = w_rng w /\ w_trace w' = w_trace w.
Proof.
  unfold extern. intros H. injection H as _ <-. split; reflexivity.
Qed.

Lemma ipdb_ok (w : world) u w' :
  ipdb_set_trace w = (Ok u, w') ->
  fst (ipdb_session (w_ext w)) = DbgContinue /\
  w_rng w' = w_rng w /\
  w_trace w' = w_trace w ++ [EvBreakpoint].
Proof.
  unfold ipdb_set_trace. rewrite bind_run. cbn [emit]. rewrite bind_run.
  unfold extern. cbn [w_ext w_rng w_trace].
  destruct (ipdb_session (w_ext w)) as [[|] x']; cbn [fst snd ret raise];
    intros H; [ | discriminate].
  injection H as _ <-. repeat split.
Qed.

Lemma solve_gurobi_ok inst j s w s' w' :
  solve_gurobi inst j s w = (Ok s', w') ->
  (j < length (solve_time_temp s))%nat /\
  exists res x',
    gurobi_solve (w_ext w) inst = (Ok res, x') /\
    solve_time_temp s' = <[j:=(1000 * g_cputime res)%float]> (solve_time_temp s) /\
    osqp_solve_time_temp s' = osqp_solve_time_temp s /\
    w_rng w' = w_rng w /\
    if String.eqb (g_status res) "optimal"
    then w_trace w' = w_trace w ++ gurobi_events inst res
    else w_trace w' = w_trace w ++ gurobi_events inst res ++ [EvBreakpoint] /\
         fst (ipdb_session x') = DbgContinue.
Proof.
  unfold solve_gurobi. intros H.
  apply bind_ok in H as ([] & w1 & H1 & H). apply emit_ok in H1. subst w1.
  apply bind_ok in H as (r & w2 & Hr & H).
  pose proof (extern_world _ _ _ _ Hr) as [Hr2 Ht2]. apply extern_ok in Hr.
  cbn [w_ext w_rng w_trace] in Hr, Hr2, Ht2.
  apply bind_ok in H as (res & w3 & Hres & H). apply lift_ok in Hres as [-> ->].
  apply bind_ok in H as ([] & w4 & H4 & H). apply emit_ok in H4. subst w4.
  apply bind_ok in H as ([] & w5 & H5 & H).
  apply bind_ok in H as (t & w6 & Ht & H). apply lift_ok in Ht as [Ht ->].
  apply set_item_ok in Ht as [Hj ->]. apply ret_ok in H as [-> ->].
  split; [exact Hj|]. exists res, (w_ext w2).
  split; [exact Hr|]. split; [reflexivity|]. split; [reflexivity|].
  unfold gurobi_events.
  destruct (String.eqb (g_status res) "optimal"); cbn [negb] in H5.
  - apply ret_ok in H5 as [_ ->]. cbn [w_ext w_rng w_trace].
    rewrite Ht2, Hr2, <- app_assoc. split; reflexivity.
  - apply ipdb_ok in H5 as (Hc & -> & ->). cbn [w_ext w_rng w_trace] in *.
    rewrite Ht2, Hr2, <- !app_assoc. repeat split. exact Hc.
Qed.

Lemma solve_miosqp_ok inst j s w s' w' :
  solve_miosqp inst j s w = (Ok s', w') ->
  (j < length (solve_time_temp s))%nat /\
  exists res x',
    miosqp_solve (w_ext w) inst miosqp_settings osqp_settings = (Ok res, x') /\
    solve_time_temp s' = <[j:=(1000 * mi_run_time res)%float]> (solve_time_temp s) /\
    w_rng w' = w_rng w /\
    if mi_status res =? MI_SOLVED
    then w_trace w' = w_trace w ++ miosqp_events inst res
    else w_trace w' = w_trace w ++ miosqp_events inst res ++ [EvBreakpoint] /\
         fst (ipdb_session x') = DbgContinue.
Proof.
  unfold solve_miosqp. intros H.
  apply bind_ok in H as ([] & w1 & H1 & H). apply emit_ok in H1. subst w1.
  apply bind_ok in H as (r & w2 & Hr & H).
  pose proof (extern_world _ _ _ _ Hr) as [Hr2 Ht2]. apply extern_ok in Hr.
  cbn [w_ext w_rng w_trace] in Hr, Hr2, Ht2.
  apply bind_ok in H as (res & w3 & Hres & H). apply lift_ok in Hres as [-> ->].
  apply bind_ok in H as ([] & w4 & H4 & H). apply emit_ok in H4. subst w4.
  apply bind_ok in H as ([] & w5 & H5 & H).
  apply bind_ok in H as (o & w6 & Ho & H). apply local_ok in Ho as [_ ->].
  apply bind_ok in H as (ratio & w6 & Hq & H). apply lift_ok in Hq as [_ ->].
  apply bind_ok in H as (o' & w6 & Ho' & H). apply lift_ok in Ho' as [_ ->].
  apply bind_ok in H as (t & w6 & Ht & H). apply lift_ok in Ht as [Ht ->].
  apply set_item_ok in Ht as [Hj ->]. apply ret_ok in H as [-> ->].
  split; [exact Hj|]. exists res, (w_ext w2).
  split; [exact Hr|]. split; [reflexivity|].
  unfold miosqp_events.
  destruct (mi_status res =? MI_SOLVED); cbn [negb] in H5.
  - apply ret_ok in H5 as [_ ->]. cbn [w_ext w_rng w_trace].
    rewrite Ht2, Hr2, <- app_assoc. split; reflexivity.
  - apply ipdb_ok in H5 as (Hc & -> & ->). cbn [w_ext w_rng w_trace] in *.
    rewrite Ht2, Hr2, <- !app_assoc. repeat split. exact Hc.
Qed.

(** A repetition that goes through: what it writes and what it records. *)
Lemma repetition_ok solver n m p dns j s w s' w' :
  repetition solver n m p dns j s w = (Ok s', w') ->
  exists evs t,
    repetition_logged solver n m p dns evs t /\
    w_trace w' = w_trace w ++ evs /\
    ((solve_time_temp s' = solve_time_temp s /\ t = 0%float) \/
     ((j < length (solve_time_temp s))%nat /\
      solve_time_temp s' = <[j:=t]> (solve_time_temp s))).
Proof.
  unfold repetition. intros H.
  apply bind_ok in H as (inst & w1 & Hgen & H).
  pose proof (generate_log _ _ _ _ _ _ _ Hgen) as [Hx Ht].
  unfold repetition_logged.
  destruct (String.eqb solver "gurobi").
  - apply solve_gurobi_ok in H as (Hj & res & x' & Hres & Hs & _ & _ & Hlog).
    destruct (String.eqb (g_status res) "optimal") eqn:Hopt.
    + exists (EvGenerated inst :: gurobi_events inst res),
             (1000 * g_cputime res)%float.
      split; [ | split].
      * exists inst, w, w1. split; [exact Hgen|].
        exists (w_ext w1), res, x'. rewrite Hopt. repeat split. exact Hres.
      * rewrite Hlog, Ht, <- app_assoc. reflexivity.
      * right. split; assumption.
    + destruct Hlog as [Hlog Hc].
      exists (EvGenerated inst :: gurobi_events inst res ++ [EvBreakpoint]),
             (1000 * g_cputime res)%float.
      split; [ | split].
      * exists inst, w, w1. split; [exact Hgen|].
        exists (w_ext w1), res, x'. rewrite Hopt. repeat split; assumption.
      * rewrite Hlog, Ht, <- app_assoc. reflexivity.
      * right. split; assumption.
  - destruct (String.eqb solver "miosqp").
    + apply solve_miosqp_ok in H as (Hj & res & x' & Hres & Hs & _ & Hlog).
      destruct (mi_status res =? MI_SOLVED) eqn:Hopt.
      * exists (EvGenerated inst :: miosqp_events inst res),
               (1000 * mi_run_time res)%float.
        split; [ | split].
        -- exists inst, w, w1. split; [exact Hgen|].
           exists (w_ext w1), res, x'. rewrite Hopt. repeat split. exact Hres.
        -- rewrite Hlog, Ht, <- app_assoc. reflexivity.
        -- right. split; assumption.
      * destruct Hlog as [Hlog Hc].
        exists (EvGenerated inst :: miosqp_events inst res ++ [EvBreakpoint]),
               (1000 * mi_run_time res)%float.
        split; [ | split].
        -- exists inst, w, w1. split; [exact Hgen|].
           exists (w_ext w1), res, x'. rewrite Hopt. repeat split; assumption.
        -- rewrite Hlog, Ht, <- app_assoc. reflexivity.
        -- right. split; assumption.
    + apply ret_ok in H as [-> ->].
      exists [EvGenerated inst], 0%float. split; [ | split].
      * exists inst, w, w1. split; [exact Hgen | split; reflexivity].
      * exact Ht.
      * left. split; reflexivity.
Qed.

(** After the repetitions [0, ..., d-1] the first [d] samples are the ones
    these repetitions recorded and the others are still 0. *)
Lemma repetitions_prefix solver n m p dns r d s w s' w' :
  length (solve_time_temp s) = r ->
  (forall j, (j < r)%nat -> solve_time_temp s !! j = Some 0%float) ->
  (d <= r)%nat ->
  for_each (seq 0 d) (repetition solver n m p dns) s w = (Ok s', w') ->
  length (solve_time_temp s') = r /\
  (forall j, (d <= j < r)%nat -> solve_time_temp s' !! j = Some 0%float) /\
  exists reps : list (list event * float),
    length reps = d /\
    Forall (fun e => repetition_logged solver n m p dns (fst e) (snd e)) reps /\
    w_trace w' = w_trace w ++ concat (map fst reps) /\
    take d (solve_time_temp s') = map snd reps.
Proof.
  intros Hlen Hzero. revert s' w'.
  induction d as [|d IH]; intros s' w' Hd H.
  - simpl in H. apply ret_ok in H as [-> ->].
    split; [exact Hlen | split].
    + intros j Hj. apply Hzero. lia.
    + exists []. simpl. rewrite app_nil_r, take_0.
      repeat split. constructor.
  - rewrite seq_S, for_each_app in H. simpl in H.
    apply bind_ok in H as (s1 & w1 & H1 & H).
    apply bind_ok in H as (s2 & w2 & H2 & H).
    apply ret_ok in H as [-> ->].
    destruct (IH _ _ ltac:(lia) H1)
      as (L1 & Hrest & reps & Lr & Hall & Htr & Htake). clear IH H1.
    apply repetition_ok in H2 as (evs & t & Hlog & Ht & Hs).
    assert (Hnew : length (solve_time_temp s2) = r /\
                   solve_time_temp s2 !! d = Some t /\
                   take d (solve_time_temp s2) = take d (solve_time_temp s1) /\
                   forall j, (S d <= j < r)%nat ->
                     solve_time_temp s2 !! j = Some 0%float).
    { destruct Hs as [[-> ->]|[Hj ->]].
      - repeat split; try assumption.
        + apply Hrest. lia.
        + intros j Hj. apply Hrest. lia.
      - rewrite length_insert. repeat split; try assumption.
        + apply list_lookup_insert_eq. exact Hj.
        + apply take_insert_ge. lia.
        + intros j Hj'. rewrite list_lookup_insert_ne by lia. apply Hrest. lia. }
    destruct Hnew as (L2 & Hd2 & Htake2 & Hrest2).
    split; [exact L2 | split; [exact Hrest2 | ]].
    exists (reps ++ [(evs, t)]). repeat split.
    + rewrite length_app. simpl. lia.
    + apply Forall_app. split; [exact Hall|]. constructor; [exact Hlog | constructor].
    + rewrite Ht, Htr, map_app, concat_app. simpl.
      rewrite app_nil_r, <- app_assoc. reflexivity.
    + rewrite (take_S_r _ _ _ Hd2), Htake2, Htake, map_app. reflexivity.
Qed.

Lemma repetitions_samples solver n m p dns repeat w s w' :
  for_each (seq 0 (Z.to_nat repeat)) (repetition solver n m p dns)
           (fresh_samples repeat solver) w = (Ok s, w') ->
  exists tail,
    configuration_logged solver repeat dns n m p
      (EvPrint "problem n = %i, m = %i, p = %i" [n; m; p] :: tail)
      (solve_time_temp s) /\
    w_trace w' = w_trace w ++ tail.
Proof.
  intros H.
  apply (repetitions_prefix solver n m p dns (Z.to_nat repeat)) in H
    as (Hlen & _ & reps & Lr & Hall & Htr & Htake).
  - rewrite take_ge in Htake by lia.
    exists (concat (map fst reps)). split; [ | exact Htr].
    exists reps. repeat split; assumption.
  - simpl. apply length_replicate.
  - intros j Hj. simpl. apply lookup_replicate_2. exact Hj.
  - lia.
Qed.

(** The rows of the statistics after the first [d] configurations. *)
Lemma logged_prefix n_vec m_vec p_vec repeat dns solver d st0 w0 st w :
  for_each (seq 0 d) (configuration n_vec m_vec p_vec repeat dns solver)
           st0 w0 = (Ok st, w) ->
  exists logs,
    w_trace w = w_trace w0 ++ concat (map fst logs) /\
    rows_logged n_vec m_vec p_vec repeat dns solver d st logs.
Proof.
  revert st w. induction d as [|d IH]; intros st w H.
  - simpl in H. apply ret_ok in H as [-> ->].
    exists []. simpl. rewrite app_nil_r. split; [reflexivity|].
    split; [reflexivity | intros i Hi; lia].
  - rewrite seq_S, for_each_app in H. simpl in H.
    apply bind_ok in H as (st1 & w1 & H1 & H).
    apply bind_ok in H as (st2 & w2 & H2 & H).
    apply ret_ok in H as [-> ->].
    destruct (IH _ _ H1) as (logs & Htr & Llogs & Hrows). clear IH H1.
    apply configuration_ok in H2
      as (n & m & p & s & mx & mn & Hn & Hm & Hp & Hrep & Hs & Hx & Hmn
          & Ea & Ex & En & Ia & Ix & In_).
    apply repetitions_samples in Hs as (tail & Hlog & Htr2).
    set (evs := EvPrint "problem n = %i, m = %i, p = %i" [n; m; p] :: tail)
      in *.
    exists (logs ++ [(evs, solve_time_temp s)]). split; [ | split].
    + rewrite map_app, concat_app. simpl. rewrite app_nil_r.
      rewrite Htr2. unfold evs, announced. cbn [w_trace].
      rewrite Htr, <- !app_assoc. reflexivity.
    + rewrite length_app. simpl. lia.
    + intros i Hi. destruct (Nat.eq_dec i d) as [->|Hne].
      * exists n, m, p, evs, (solve_time_temp s), mx, mn.
        rewrite Ea, Ex, En, !list_lookup_insert_eq by assumption.
        rewrite lookup_app_r by lia. rewrite Llogs, Nat.sub_diag.
        repeat split; assumption.
      * destruct (Hrows i ltac:(lia))
          as (n' & m' & p' & evs' & samples & mx' & mn' & ? & ? & ? & Hl & ?
              & ? & ? & ? & ? & ?).
        exists n', m', p', evs', samples, mx', mn'.
        rewrite Ea, Ex, En, !list_lookup_insert_ne by lia.
        rewrite lookup_app_l by lia.
        repeat split; assumption.
Qed.

End Samples.

(** * Reading the log of a sweep *)

Section Log.

Context {E : Externals}.

Lemma flat_map_concat {A B} (f : A -> list B) (l : list (list A)) :
  flat_map f (concat l) = concat (map (flat_map f) l).
Proof.
  induction l as [|a l IH]; simpl; [reflexivity|].
  rewrite flat_map_app, IH. reflexivity.
Qed.

Lemma calls_seeded seed solver w :
  calls (w_trace (seeded seed solver w)) = calls (w_trace w).
Proof.
  unfold seeded, calls. simpl. rewrite flat_map_app. simpl. apply app_nil_r.
Qed.

Lemma gurobi_results_seeded seed solver w :
  gurobi_results (w_trace (seeded seed solver w)) = gurobi_results (w_trace w).
Proof.
  unfold seeded, gurobi_results. simpl. rewrite flat_map_app. simpl.
  apply app_nil_r.
Qed.

Lemma miosqp_results_seeded seed solver w :
  miosqp_results (w_trace (seeded seed solver w)) = miosqp_results (w_trace w).
Proof.
  unfold seeded, miosqp_results. simpl. rewrite flat_map_app. simpl.
  apply app_nil_r.
Qed.

(** A repetition with a backend calls it on the instance it generated. *)
Lemma repetition_logged_calls solver n m p dns evs t :
  solver = "gurobi" \/ solver = "miosqp" ->
  repetition_logged solver n m p dns evs t ->
  calls evs = map (pair solver) (generated_instances evs).
Proof.
  intros [-> | ->] (inst & w0 & w1 & _ & H).
  - change (String.eqb "gurobi" "gurobi") with true in H. cbv iota in H.
    destruct H as (x & res & x' & _ & _ & H).
    destruct (String.eqb (g_status res) "optimal");
      [ | destruct H as [H _]]; subst evs; reflexivity.
  - change (String.eqb "miosqp" "gurobi") with false in H.
    change (String.eqb "miosqp" "miosqp") with true in H. cbv iota in H.
    destruct H as (x & res & x' & _ & _ & H).
    destruct (mi_status res =? MI_SOLVED);
      [ | destruct H as [H _]]; subst evs; reflexivity.
Qed.

Lemma configuration_logged_calls solver repeat dns n m p evs samples :
  solver = "gurobi" \/ solver = "miosqp" ->
  configuration_logged solver repeat dns n m p evs samples ->
  calls evs = map (pair solver) (generated_instances evs).
Proof.
  intros Hs (reps & _ & Hall & -> & _).
  change (calls (concat (map fst reps))
          = map (pair solver) (generated_instances (concat (map fst reps)))).
  induction Hall as [|r reps Hr _ IH]; [reflexivity|].
  pose proof (repetition_logged_calls _ _ _ _ _ _ _ Hs Hr) as Hc.
  simpl. unfold calls, generated_instances in *.
  rewrite !flat_map_app, map_app, IH, Hc. reflexivity.
Qed.

(** In a sweep with a backend that goes through, the backend is called on
    the instances the sweep generates, once on each and in their order. *)
Lemma sweep_calls n_vec m_vec p_vec repeat dns solver d st0 w0 st w :
  solver = "gurobi" \/ solver = "miosqp" ->
  for_each (seq 0 d) (configuration n_vec m_vec p_vec repeat dns solver)
           st0 w0 = (Ok st, w) ->
  exists gs,
    generated_instances (w_trace w) = generated_instances (w_trace w0) ++ gs /\
    calls (w_trace w) = calls (w_trace w0) ++ map (pair solver) gs.
Proof.
  intros Hs H. apply logged_prefix in H as (logs & -> & Llogs & Hrows).
  exists (generated_instances (concat (map fst logs))).
  unfold calls, generated_instances. rewrite !flat_map_app.
  split; [reflexivity|]. f_equal.
  assert (Hall : Forall (fun l => calls (fst l)
                           = map (pair solver) (generated_instances (fst l)))
                        logs).
  { apply Forall_lookup_2. intros i [evs samples] Hi.
    pose proof (lookup_lt_Some _ _ _ Hi) as Hlt. rewrite Llogs in Hlt.
    destruct (Hrows i Hlt)
      as (n & m & p & evs' & samples' & mx & mn & _ & _ & _ & Hl & Hlog & _).
    rewrite Hi in Hl. injection Hl as <- <-.
    eapply configuration_logged_calls; eassumption. }
  clear -Hall. induction Hall as [|l logs Hl _ IH]; [reflexivity|].
  simpl. unfold calls, generated_instances in *.
  rewrite !flat_map_app, map_app, IH, Hl. reflexivity.
Qed.

Lemma solve_calls n_prob n_vec m_vec p_vec repeat dns seed solver w df w' :
  solver = "gurobi" \/ solver = "miosqp" ->
  solve n_prob n_vec m_vec p_vec repeat dns seed solver w = (Ok df, w') ->
  exists gs,
    generated_instances (w_trace w') = generated_instances (w_trace w) ++ gs /\
    calls (w_trace w') = calls (w_trace w) ++ map (pair solver) gs.
Proof.
  intros Hs H. apply solve_ok in H as (k & st & _ & _ & Hsw & _).
  unfold sweep in Hsw. apply (sweep_calls _ _ _ _ _ _ _ _ _ _ _ Hs) in Hsw.
  destruct Hsw as (gs & Hg & Hc). exists gs.
  unfold seeded, calls, generated_instances in *. simpl in Hg, Hc.
  rewrite !flat_map_app in Hg, Hc. simpl in Hg, Hc.
  rewrite !app_nil_r in Hg, Hc. split; assumption.
Qed.

(** The results of a repetition and of a configuration with Gurobi. *)
Lemma gurobi_repetition_logged n m p dns evs t :
  repetition_logged "gurobi" n m p dns evs t ->
  exists res,
    gurobi_results evs = [res] /\ t = (1000 * g_cputime res)%float /\
    (g_status res <> "optimal" -> exists x, fst (ipdb_session x) = DbgContinue).
Proof.
  intros (inst & w0 & w1 & _ & H).
  change (String.eqb "gurobi" "gurobi") with true in H. cbv iota in H.
  destruct H as (x & res & x' & _ & -> & H). exists res.
  destruct (String.eqb_spec (g_status res) "optimal") as [Heq|Hne].
  - subst evs. repeat split. intros Hc. contradiction.
  - destruct H as [-> Hc]. repeat split. intros _. exists x'. exact Hc.
Qed.

Lemma gurobi_configuration_logged repeat dns n m p evs samples :
  configuration_logged "gurobi" repeat dns n m p evs samples ->
  length (gurobi_results evs) = Z.to_nat repeat /\
  samples = map (fun r => (1000 * g_cputime r)%float) (gurobi_results evs) /\
  (forall r, In r (gurobi_results evs) -> g_status r <> "optimal" ->
     exists x, fst (ipdb_session x) = DbgContinue).
Proof.
  intros (reps & <- & Hall & -> & ->).
  change (gurobi_results (EvPrint "problem n = %i, m = %i, p = %i" [n; m; p]
                          :: concat (map fst reps)))
    with (gurobi_results (concat (map fst reps))).
  induction Hall as [|r reps Hr _ (IH1 & IH2 & IH3)];
    [repeat split; intros r [] | ].
  apply gurobi_repetition_logged in Hr as (res & Hres & Ht & Hc).
  simpl. unfold gurobi_results in *. rewrite flat_map_app, Hres. simpl.
  split; [rewrite IH1; reflexivity | split].
  - rewrite Ht, IH2. reflexivity.
  - intros r' [<- | Hin]; [exact Hc | apply IH3; exact Hin].
Qed.

(** The results of a repetition and of a configuration with MIOSQP. *)
Lemma miosqp_repetition_logged n m p dns evs t :
  repetition_logged "miosqp" n m p dns evs t ->
  exists res,
    miosqp_results evs = [res] /\ t = (1000 * mi_run_time res)%float /\
    (mi_status res <> MI_SOLVED -> exists x, fst (ipdb_session x) = DbgContinue).
Proof.
  intros (inst & w0 & w1 & _ & H).
  change (String.eqb "miosqp" "gurobi") with false in H.
  change (String.eqb "miosqp" "miosqp") with true in H. cbv iota in H.
  destruct H as (x & res & x' & _ & -> & H). exists res.
  destruct (Z.eqb_spec (mi_status res) MI_SOLVED) as [Heq|Hne].
  - subst evs. repeat split. intros Hc. contradiction.
  - destruct H as [-> Hc]. repeat split. intros _. exists x'. exact Hc.
Qed.

Lemma miosqp_configuration_logged repeat dns n m p evs samples :
  configuration_logged "miosqp" repeat dns n m p evs samples ->
  length (miosqp_results evs) = Z.to_nat repeat /\
  samples = map (fun r => (1000 * mi_run_time r)%float) (miosqp_results evs) /\
  (forall r, In r (miosqp_results evs) -> mi_status r <> MI_SOLVED ->
     exists x, fst (ipdb_session x) = DbgContinue).
Proof.
  intros (reps & <- & Hall & -> & ->).
  change (miosqp_results (EvPrint "problem n = %i, m = %i, p = %i" [n; m; p]
                          :: concat (map fst reps)))
    with (miosqp_results (concat (map fst reps))).
  induction Hall as [|r reps Hr _ (IH1 & IH2 & IH3)];
    [repeat split; intros r [] | ].
  apply miosqp_repetition_logged in Hr as (res & Hres & Ht & Hc).
  simpl. unfold miosqp_results in *. rewrite flat_map_app, Hres. simpl.
  split; [rewrite IH1; reflexivity | split].
  - rewrite Ht, IH2. reflexivity.
  - intros r' [<- | Hin]; [exact Hc | apply IH3; exact Hin].
Qed.

(** The rows of a report, read from the results a reader [results] finds
    in the log of each configuration. *)
Lemma solve_rows {R} (results : list event -> list R) (time : R -> float)
  (resumed : R -> Prop) n_vec m_vec p_vec repeat dns seed solver w df w' :
  (forall a b, results (a ++ b) = results a ++ results b) ->
  (forall n m p evs samples,
     configuration_logged solver repeat dns n m p evs samples ->
     length (results evs) = Z.to_nat repeat /\
     samples = map time (results evs) /\
     (forall r, In r (results evs) -> resumed r)) ->
  solve (Some (Z.of_nat (length n_vec))) n_vec m_vec p_vec repeat dns seed
        solver w = (Ok df, w') ->
  exists rows : list (list R),
    length rows = length n_vec /\
    results (w_trace w')
    = results (w_trace (seeded seed solver w)) ++ concat rows /\
    (forall i rs, rows !! i = Some rs ->
       length rs = Z.to_nat repeat /\
       df_float df "t_avg[ms]" i = Some (np_mean (map time rs)) /\
       (exists v, np_min (map time rs) = Ok v /\
                  df_float df "t_min[ms]" i = Some v) /\
       (exists v, np_max (map time rs) = Ok v /\
                  df_float df "t_max[ms]" i = Some v)) /\
    (forall r, In r (concat rows) -> resumed r).
Proof.
  intros Happ Hcfg H.
  apply solve_ok in H
    as (k & st & Hk & _ & Hsw & _ & _ & _ & Cmn & Cmx & Cavg & _).
  injection Hk as <-. unfold sweep in Hsw. rewrite Nat2Z.id in Hsw.
  apply logged_prefix in Hsw as (logs & Htr & Llogs & Hr).
  exists (map (fun l => results (fst l)) logs).
  split; [rewrite length_map; exact Llogs | split; [ | split]].
  - rewrite Htr, Happ. f_equal. clear -Happ.
    induction logs as [|l logs IH]; simpl.
    + specialize (Happ [] []). simpl in Happ.
      destruct (results []) as [|r rs]; [reflexivity|].
      apply (f_equal (@length R)) in Happ. rewrite length_app in Happ.
      simpl in Happ. lia.
    + rewrite Happ, IH. reflexivity.
  - intros i rs Hi. rewrite list_lookup_fmap in Hi.
    destruct (logs !! i) as [[evs samples]|] eqn:Hl; [ | discriminate].
    simpl in Hi. injection Hi as <-.
    pose proof (lookup_lt_Some _ _ _ Hl) as Hlt. rewrite Llogs in Hlt.
    destruct (Hr i Hlt)
      as (n & m & p & evs' & samples' & mx & mn & _ & _ & _ & Hl' & Hlog
          & Ha & Hmx & Hx & Hmn & Hn).
    rewrite Hl in Hl'. injection Hl' as <- <-.
    destruct (Hcfg _ _ _ _ _ Hlog) as (Hlen & -> & _).
    unfold df_float. rewrite Cmn, Cmx, Cavg.
    split; [exact Hlen | split; [exact Ha | split]]; eexists; split;
      eassumption.
  - intros r Hin. apply in_concat in Hin as (rs & Hrs & Hin).
    apply in_map_iff in Hrs as ([evs samples] & <- & Hl).
    apply list_elem_of_In, list_elem_of_lookup in Hl as (i & Hl).
    pose proof (lookup_lt_Some _ _ _ Hl) as Hlt. rewrite Llogs in Hlt.
    destruct (Hr i Hlt)
      as (n & m & p & evs' & samples' & mx & mn & _ & _ & _ & Hl' & Hlog & _).
    rewrite Hl in Hl'. injection Hl' as <- <-.
    destruct (Hcfg _ _ _ _ _ Hlog) as (_ & _ & Hres). apply Hres. exact Hin.
Qed.

End Log.

(** * C1: a backend that ends without an optimum *)




(** When every session is resumed the report is the one of a run in which
    every solve was optimal. *)
Example resumed_run_reports_the_same_times :
  fst (solve (E:=scripted (troubled "infeasible" DbgContinue)) (Some 1) [4] [2] [1]
             3 0.6%float 0 "gurobi"
             (scripted_world (troubled "infeasible" DbgContinue) 0 0))
  = fst (solve (E:=scripted calm) (Some 1) [4] [2] [1] 3 0.6%float 0 "gurobi"
               (scripted_world calm 0 0)).
Proof. vm_compute. reflexivity. Qed.


(** * C6: the rows of the report *)

Lemma np_minimum_le a y :
  is_nan a = false -> is_nan y = false ->
  let r := np_minimum a y in
  is_nan r = false /\ (r <=? a)%float = true.
Proof.
  intros Ha Hy. unfold np_minimum. rewrite Ha, orb_false_r.
  destruct (a <=? y)%float eqn:Hle.
  - split; [exact Ha | apply leb_refl; exact Ha].
  - split; [exact Hy|]. destruct (leb_total a y Ha Hy); congruence.
Qed.

Lemma np_maximum_ge a y :
  is_nan a = false -> is_nan y = false ->
  let r := np_maximum a y in
  is_nan r = false /\ (a <=? r)%float = true.
Proof.
  intros Ha Hy. unfold np_maximum. rewrite Ha, orb_false_r.
  destruct (y <=? a)%float eqn:Hle.
  - split; [exact Ha | apply leb_refl; exact Ha].
  - split; [exact Hy|]. destruct (leb_total a y Ha Hy); congruence.
Qed.

Lemma fold_minimum_le xs a :
  is_nan a = false -> Forall (fun t => is_nan t = false) xs ->
  (fold_left np_minimum xs a <=? a)%float = true.
Proof.
  revert a. induction xs as [|y xs IH]; intros a Ha Hxs; simpl.
  - apply leb_refl. exact Ha.
  - apply Forall_cons in Hxs as [Hy Hxs].
    destruct (np_minimum_le a y Ha Hy) as [Hn Hle].
    eapply leb_trans; [apply IH; assumption | exact Hle].
Qed.

Lemma fold_maximum_ge xs a :
  is_nan a = false -> Forall (fun t => is_nan t = false) xs ->
  (a <=? fold_left np_maximum xs a)%float = true.
Proof.
  revert a. induction xs as [|y xs IH]; intros a Ha Hxs; simpl.
  - apply leb_refl. exact Ha.
  - apply Forall_cons in Hxs as [Hy Hxs].
    destruct (np_maximum_ge a y Ha Hy) as [Hn Hle].
    eapply leb_trans; [exact Hle | apply IH; assumption].
Qed.

(** Without a NaN among the samples the minimum is at most the maximum. *)
Lemma np_min_le_np_max xs mn mx :
  Forall (fun t => is_nan t = false) xs ->
  np_min xs = Ok mn -> np_max xs = Ok mx -> (mn <=? mx)%float = true.
Proof.
  destruct xs as [|x xs]; [discriminate|]. simpl.
  intros Hxs Hmn Hmx. injection Hmn as <-. injection Hmx as <-.
  apply Forall_cons in Hxs as [Hx Hxs].
  eapply leb_trans; [apply fold_minimum_le | apply fold_maximum_ge]; assumption.
Qed.

Lemma configurations_lookup_inv n_vec m_vec p_vec i n m p :
  configurations n_vec m_vec p_vec !! i = Some [n; m; p] ->
  n_vec !! i = Some n /\ m_vec !! i = Some m /\ p_vec !! i = Some p.
Proof.
  unfold configurations. rewrite lookup_zip_with.
  destruct (n_vec !! i) as [n'|]; [|discriminate]. simpl.
  rewrite lookup_zip_with.
  destruct (m_vec !! i) as [m'|]; [|discriminate]. simpl.
  destruct (p_vec !! i) as [p'|]; [|discriminate]. simpl.
  intros H. injection H as -> -> ->. repeat split.
Qed.

(** C6, as amended.  When [n_prob] is the number of declared
    configurations and [solve] returns, the report has exactly one row per
    configuration, in the declared order.  What the run wrote to the log
    after its header is one part per configuration, in that order, and row
    [i] pairs [n_vec[i]], [m_vec[i]], [p_vec[i]] with the minimum, maximum
    and mean of the [repeat] samples of part [i]: each of them is 1000
    times the time of the result the backend returned, in that repetition,
    for the instance generated there for the configuration.  The minimum is
    at most the maximum when no sample is a NaN.  The mean is the rounded
    binary64 mean [np.mean] computes; nothing is promised about its place
    between the two. *)
Theorem report_has_one_row_per_configuration {E : Externals}
  n_vec m_vec p_vec repeat dns seed solver (w : world) df w' :
  solve (Some (Z.of_nat (length n_vec))) n_vec m_vec p_vec repeat dns seed
        solver w = (Ok df, w') ->
  df_nrows df = length n_vec /\
  exists logs : list (list event * list float),
    length logs = length n_vec /\
    w_trace w' = w_trace (seeded seed solver w) ++ concat (map fst logs) /\
    forall i, (i < length n_vec)%nat ->
      exists n m p evs samples mx mn,
        n_vec !! i = Some n /\ m_vec !! i = Some m /\ p_vec !! i = Some p /\
        df_int df "n" i = Some n /\ df_int df "m" i = Some m /\
        df_int df "p" i = Some p /\
        logs !! i = Some (evs, samples) /\
        configuration_logged solver repeat dns n m p evs samples /\
        length samples = Z.to_nat repeat /\
        np_min samples = Ok mn /\ df_float df "t_min[ms]" i = Some mn /\
        np_max samples = Ok mx /\ df_float df "t_max[ms]" i = Some mx /\
        df_float df "t_avg[ms]" i = Some (np_mean samples) /\
        (Forall (fun t => is_nan t = false) samples -> (mn <=? mx)%float = true).
Proof.
  intros H.
  apply solve_ok in H
    as (k & st & Hk & _ & Hsw & Cn & Cm & Cp & Cmn & Cmx & Cavg & Hrows & _).
  injection Hk as <-. unfold sweep in Hsw. rewrite Nat2Z.id in Hsw.
  apply logged_prefix in Hsw as (logs & Htr & Llogs & Hr).
  split; [exact Hrows|]. exists logs.
  split; [exact Llogs | split; [exact Htr | ]]. intros i Hi.
  destruct (Hr i Hi)
    as (n & m & p & evs & samples & mx & mn & Ln & Lm & Lp & Hl & Hlog
        & Ha & Hmx & Hx & Hmn & Hn).
  exists n, m, p, evs, samples, mx, mn.
  unfold df_int, df_float. rewrite Cn, Cm, Cp, Cmn, Cmx, Cavg.
  repeat split; try assumption.
  - destruct Hlog as (reps & Lr & _ & _ & ->). rewrite length_map. exact Lr.
  - intros Hnan. eapply np_min_le_np_max; eassumption.
Qed.

Lemma report_has_one_row_per_configuration_witness :
  solve (E:=scripted calm) (Some (Z.of_nat (length [10]))) [10] [5] [2] 3
        0.6%float 0 "gurobi" (scripted_world calm 0 0)
  = (Ok example_report, snd example_run) /\
  df_nrows example_report = length [10] /\
  exists logs : list (list event * list float),
    length logs = length [10] /\
    w_trace (snd example_run)
    = w_trace (seeded 0 "gurobi" (scripted_world calm 0 0))
      ++ concat (map fst logs) /\
    forall i, (i < length [10])%nat ->
      exists n m p evs samples mx mn,
        [10] !! i = Some n /\ [5] !! i = Some m /\ [2] !! i = Some p /\
        df_int example_report "n" i = Some n /\
        df_int example_report "m" i = Some m /\
        df_int example_report "p" i = Some p /\
        logs !! i = Some (evs, samples) /\
        configuration_logged (E:=scripted calm) "gurobi" 3 0.6%float n m p
                             evs samples /\
        length samples = Z.to_nat 3 /\
        np_min samples = Ok mn /\
        df_float example_report "t_min[ms]" i = Some mn /\
        np_max samples = Ok mx /\
        df_float example_report "t_max[ms]" i = Some mx /\
        df_float example_report "t_avg[ms]" i = Some (np_mean samples) /\
        (Forall (fun t => is_nan t = false) samples -> (mn <=? mx)%float = true).
Proof.
  split; [vm_compute; reflexivity | ].
  apply (@report_has_one_row_per_configuration (scripted calm) [10] [5] [2] 3
           0.6%float 0 "gurobi" (scripted_world calm 0 0) example_report
           (snd example_run)).
  vm_compute. reflexivity.
Defined.

(** The claim fails: in the sweep of the spec's example, with a backend
    that takes the same tenth of a millisecond at each of the three
    repetitions, the rounded mean of the three equal samples is above their
    maximum. *)
Lemma mean_can_exceed_the_maximum :
  fst (solve (E:=scripted calm) (Some 1) [10] [5] [2] 3 0.6%float 0 "gurobi"
             (scripted_world calm 0 0)) = Ok example_report /\
  df_float example_report "t_max[ms]" 0 = Some 0x1.999999999999ap-4%float /\
  df_float example_report "t_avg[ms]" 0 = Some 0x1.999999999999bp-4%float /\
  (0x1.999999999999bp-4 <=? 0x1.999999999999ap-4)%float = false.
Proof. vm_compute. repeat split. Qed.

(** * Binary64 sums of a uniform draw with 1 and with -1

    Followed through the rounding of [SFadd]: the aligned sum has more
    digits than the format holds, and the rounding of the digits that are
    shifted out moves the result by at most one unit in the last place. *)

(** The number of binary digits of a positive number. *)
Lemma digits2_pos_bounds p :
  2 ^ (Zpos (digits2_pos p) - 1) <= Zpos p < 2 ^ Zpos (digits2_pos p).
Proof.
  induction p as [p IH|p IH|]; cbn [digits2_pos].
  - rewrite Pos2Z.inj_succ.
    replace (Z.succ (Zpos (digits2_pos p)) - 1) with (Z.succ (Zpos (digits2_pos p) - 1)) by lia.
    rewrite !Z.pow_succ_r by lia. lia.
  - rewrite Pos2Z.inj_succ.
    replace (Z.succ (Zpos (digits2_pos p)) - 1) with (Z.succ (Zpos (digits2_pos p) - 1)) by lia.
    rewrite !Z.pow_succ_r by lia. lia.
  - simpl. lia.
Qed.

Lemma digits2_pos_unique p k :
  2 ^ (k - 1) <= Zpos p < 2 ^ k -> Zpos (digits2_pos p) = k.
Proof.
  intros [Hlo Hhi]. pose proof (digits2_pos_bounds p) as [Dlo Dhi].
  set (d := Zpos (digits2_pos p)) in *.
  assert (Hk : 0 < k).
  { destruct (Z_lt_le_dec 0 k) as [?|Hk0]; [assumption|].
    exfalso. destruct (Z.eq_dec k 0) as [->|?].
    - simpl in Hhi. lia.
    - rewrite Z.pow_neg_r in Hhi by lia. lia. }
  destruct (Z.lt_trichotomy d k) as [Hlt|[Heq|Hgt]]; [ | exact Heq | ].
  - exfalso. assert (2 ^ d <= 2 ^ (k - 1)) by (apply Z.pow_le_mono_r; lia). lia.
  - exfalso. assert (2 ^ k <= 2 ^ (d - 1)) by (apply Z.pow_le_mono_r; lia). lia.
Qed.

Lemma iter_xO p d : Zpos (Pos.iter xO p d) = Zpos p * 2 ^ Zpos d.
Proof.
  induction d as [|d IH] using Pos.peano_ind.
  - simpl. lia.
  - rewrite Pos.iter_succ, Pos2Z.inj_succ, Z.pow_succ_r by lia.
    rewrite (Pos2Z.inj_xO (Pos.iter xO p d)), IH. lia.
Qed.

Lemma shr_1_half r : 0 <= shr_m r -> shr_m (shr_1 r) = shr_m r / 2.
Proof.
  destruct r as [m rb sb]. cbn [shr_m]. intros Hm.
  destruct m as [|[p|p|]|p]; cbn [shr_1 shr_m]; try lia.
  - reflexivity.
  - apply Z.div_unique with 1; lia.
  - apply Z.div_unique with 0; lia.
  - reflexivity.
Qed.

Lemma iter_shr_1 d r :
  0 <= shr_m r ->
  shr_m (SpecFloat.iter_pos shr_1 d r) = shr_m r / 2 ^ Zpos d.
Proof.
  revert r. induction d as [d IH|d IH|]; intros r Hr; cbn [SpecFloat.iter_pos].
  - assert (H1 : 0 <= shr_m (shr_1 r)).
    { rewrite shr_1_half by exact Hr. apply Z.div_pos; lia. }
    assert (H2 : 0 <= shr_m (SpecFloat.iter_pos shr_1 d (shr_1 r))).
    { rewrite IH by exact H1. apply Z.div_pos; lia. }
    rewrite IH by exact H2. rewrite IH by exact H1.
    rewrite shr_1_half by exact Hr.
    rewrite !Z.div_div by lia.
    rewrite (Pos2Z.inj_xI d).
    replace (2 * Zpos d + 1) with (1 + Zpos d + Zpos d) by lia.
    rewrite !Z.pow_add_r by lia. rewrite Z.pow_1_r. f_equal. ring.
  - assert (H2 : 0 <= shr_m (SpecFloat.iter_pos shr_1 d r)).
    { rewrite IH by exact Hr. apply Z.div_pos; lia. }
    rewrite IH by exact H2. rewrite IH by exact Hr.
    rewrite Z.div_div by lia.
    rewrite (Pos2Z.inj_xO d).
    replace (2 * Zpos d) with (Zpos d + Zpos d) by lia.
    rewrite Z.pow_add_r by lia. reflexivity.
  - apply shr_1_half. exact Hr.
Qed.

Lemma round_nearest_even_step m l :
  round_nearest_even m l = m \/ round_nearest_even m l = m + 1.
Proof.
  unfold round_nearest_even. destruct l as [|[| |]]; auto.
  destruct (Z.even m); auto.
Qed.

Lemma round_canonical s m e :
  bounded prec emax m e = true ->
  binary_round_aux prec emax s (Zpos m) e loc_Exact = S754_finite s m e.
Proof.
  unfold bounded, canonical_mantissa. intros H.
  apply andb_prop in H as [H1 H2]. apply Z.eqb_eq in H1.
  unfold binary_round_aux, shr_fexp. cbn [Zdigits2].
  rewrite H1, Z.sub_diag.
  cbn [shr shr_record_of_loc shr_m loc_of_shr_record round_nearest_even].
  cbn [Zdigits2]. rewrite H1, Z.sub_diag. cbn [shr shr_m].
  rewrite H2. reflexivity.
Qed.

(** Rounding a number with more than 53 digits: the mantissa loses its
    [n] low digits and is rounded; it may round up to the next power of 2. *)
Lemma round_shift s M e n :
  Zpos (digits2_pos M) = 53 + Zpos n ->
  -1074 <= e + Zpos n -> e + Zpos n + 1 <= 971 ->
  exists m2 e2,
    binary_round_aux prec emax s (Zpos M) e loc_Exact = S754_finite s m2 e2 /\
    ((e2 = e + Zpos n /\ 2 ^ 52 <= Zpos m2 < 2 ^ 53) \/
     (e2 = e + Zpos n + 1 /\ m2 = 4503599627370496%positive)).
Proof.
  intros Hd Hlo Hhi.
  pose proof (digits2_pos_bounds M) as [Mlo Mhi]. rewrite Hd in Mlo, Mhi.
  replace (53 + Zpos n - 1) with (52 + Zpos n) in Mlo by lia.
  rewrite Z.pow_add_r in Mlo, Mhi by lia.
  unfold binary_round_aux, shr_fexp. cbn [Zdigits2]. rewrite Hd.
  replace (fexp prec emax (53 + Zpos n + e) - e) with (Zpos n)
    by (unfold fexp, emin, prec, emax; lia).
  cbn [shr shr_record_of_loc].
  set (mrs := SpecFloat.iter_pos shr_1 n
                {| shr_m := Zpos M; shr_r := false; shr_s := false |}).
  assert (Hm1 : shr_m mrs = Zpos M / 2 ^ Zpos n).
  { subst mrs. rewrite iter_shr_1 by (simpl; lia). reflexivity. }
  assert (P2 : 0 < 2 ^ Zpos n) by (apply Z.pow_pos_nonneg; lia).
  assert (B1 : 2 ^ 52 <= shr_m mrs < 2 ^ 53).
  { rewrite Hm1. split.
    - apply Z.div_le_lower_bound; lia.
    - apply Z.div_lt_upper_bound; lia. }
  set (m2 := round_nearest_even (shr_m mrs) (loc_of_shr_record mrs)).
  assert (B2 : 2 ^ 52 <= m2 <= 2 ^ 53).
  { subst m2.
    destruct (round_nearest_even_step (shr_m mrs) (loc_of_shr_record mrs))
      as [->| ->]; lia. }
  destruct m2 as [|q|q] eqn:Hq; try lia.
  cbn [Zdigits2].
  destruct (Z.eq_dec (Zpos q) (2 ^ 53)) as [Heq|Hne].
  - assert (q = 9007199254740992%positive) as -> by lia.
    exists 4503599627370496%positive, (e + Zpos n + 1).
    split; [ | right; split; reflexivity].
    change (Zpos (digits2_pos 9007199254740992)) with 54.
    replace (fexp prec emax (54 + (e + Zpos n)) - (e + Zpos n)) with 1
      by (unfold fexp, emin, prec, emax; lia).
    cbn [shr SpecFloat.iter_pos shr_1 shr_m orb].
    replace (e + Zpos n + 1 <=? emax - prec) with true
      by (symmetry; apply Z.leb_le; unfold emax, prec; lia).
    reflexivity.
  - exists q, (e + Zpos n). split; [ | left; split; [reflexivity | lia]].
    rewrite (digits2_pos_unique q 53) by lia.
    replace (fexp prec emax (53 + (e + Zpos n)) - (e + Zpos n)) with 0
      by (unfold fexp, emin, prec, emax; lia).
    cbn [shr shr_m].
    replace (e + Zpos n <=? emax - prec) with true
      by (symmetry; apply Z.leb_le; unfold emax, prec; lia).
    reflexivity.
Qed.

Lemma compare_cont_Eq a b : Pos.compare_cont Eq a b = Pos.compare a b.
Proof. reflexivity. Qed.

(** A valid number in [[0, 1)] is a zero or a positive number with an
    exponent below the one of 1. *)
Lemma unit_interval_cases sr :
  valid_binary sr = true ->
  SFleb (S754_zero false) sr = true -> SFltb sr SF_one = true ->
  (exists s, sr = S754_zero s) \/
  (exists m e, sr = S754_finite false m e /\ -1074 <= e <= -53 /\
               bounded prec emax m e = true).
Proof.
  destruct sr as [s|s| |s m e]; intros Hv H0 H1.
  - left. exists s. reflexivity.
  - destruct s; discriminate.
  - discriminate.
  - right. destruct s; [discriminate|]. exists m, e.
    split; [reflexivity|]. split; [ | exact Hv].
    simpl in Hv. pose proof (bounded_cases m e Hv) as (_ & Hc).
    pose proof (digits2_pos_bounds m) as [Dlo Dhi].
    unfold SFltb, SF_one, SFcompare in H1.
    destruct (Z.compare_spec e (-52)) as [->|Hlt|Hgt]; [ | lia | discriminate].
    exfalso. destruct Hc as [[_ Hd]|[? _]]; [ | lia].
    rewrite Hd in Dlo. rewrite compare_cont_Eq in H1.
    destruct (Pos.compare_spec m 4503599627370496) as [?|Hm|?];
      try discriminate.
    assert (Hlt : Zpos m < 2 ^ 52) by (apply Pos2Z.pos_lt_pos in Hm; exact Hm).
    replace (53 - 1) with 52 in Dlo by reflexivity.
    apply (Z.lt_irrefl (Zpos m)). eapply Z.lt_le_trans; eassumption.
Qed.

Lemma two_le_pow k : 2 <= 2 ^ Zpos k.
Proof.
  change 2 with (2 ^ 1) at 1. apply Z.pow_le_mono_r; lia.
Qed.

Lemma SFadd_one_unit m e :
  bounded prec emax m e = true -> -1074 <= e <= -53 ->
  exists m2 e2,
    SFadd prec emax SF_one (S754_finite false m e) = S754_finite false m2 e2 /\
    ((e2 = -52 /\ 2 ^ 52 <= Zpos m2 < 2 ^ 53) \/
     (e2 = -51 /\ m2 = 4503599627370496%positive)).
Proof.
  intros Hb He.
  pose proof (bounded_cases m e Hb) as (_ & Hc).
  pose proof (digits2_pos_bounds m) as [_ Dhi].
  assert (Hm : Zpos m < 2 ^ 53).
  { eapply Z.lt_le_trans; [exact Dhi|]. apply Z.pow_le_mono_r; lia. }
  unfold SFadd, SF_one.
  replace (Z.min (-52) e) with e by lia.
  unfold shl_align. rewrite Z.sub_diag.
  destruct (e - -52) as [|k|k] eqn:Hk; try lia.
  cbn [fst cond_Zopp].
  rewrite <- Pos2Z.inj_add. cbn [binary_normalize].
  set (M := (Pos.iter xO 4503599627370496 k + m)%positive).
  assert (HM : Zpos M = 2 ^ 52 * 2 ^ Zpos k + Zpos m).
  { subst M. rewrite Pos2Z.inj_add, iter_xO. reflexivity. }
  pose proof (two_le_pow k) as P2.
  assert (Hd : Zpos (digits2_pos M) = 53 + Zpos k).
  { apply digits2_pos_unique.
    replace (53 + Zpos k - 1) with (52 + Zpos k) by lia.
    rewrite !Z.pow_add_r by lia. rewrite HM. lia. }
  unfold binary_round, shl_align. rewrite Hd.
  replace (fexp prec emax (53 + Zpos k + e) - e) with (Zpos k)
    by (unfold fexp, emin, prec, emax; lia).
  destruct (round_shift false M e k Hd) as (m2 & e2 & Hr & Hcases);
    [lia | lia | ].
  exists m2, e2. split; [exact Hr|].
  destruct Hcases as [[-> B]|[-> ->]]; [left | right]; split; lia.
Qed.

Lemma SFadd_minus_one_unit m e :
  bounded prec emax m e = true -> -1074 <= e <= -53 ->
  exists m2 e2,
    SFadd prec emax SF_minus_one (S754_finite false m e)
    = S754_finite true m2 e2 /\
    (e2 < -52 \/ (e2 = -52 /\ m2 = 4503599627370496%positive)).
Proof.
  intros Hb He.
  pose proof (digits2_pos_bounds m) as [_ Dhi].
  pose proof (bounded_cases m e Hb) as (_ & Hc).
  assert (Hm : Zpos m < 2 ^ 53).
  { eapply Z.lt_le_trans; [exact Dhi|]. apply Z.pow_le_mono_r; lia. }
  unfold SFadd, SF_minus_one.
  replace (Z.min (-52) e) with e by lia.
  unfold shl_align. rewrite Z.sub_diag.
  destruct (e - -52) as [|k|k] eqn:Hk; try lia.
  cbn [fst cond_Zopp Z.opp].
  pose proof (two_le_pow k) as P2.
  pose proof (iter_xO 4503599627370496 k) as HA.
  change (Zpos 4503599627370496) with (2 ^ 52) in HA.
  destruct (- Zpos (Pos.iter xO 4503599627370496%positive k) + Zpos m)
    as [|M|M] eqn:HM;
    try lia.
  assert (HM' : Zpos M = 2 ^ 52 * 2 ^ Zpos k - Zpos m) by lia.
  cbn [binary_normalize]. unfold binary_round.
  pose proof (digits2_pos_bounds M) as [Mlo Mhi].
  set (dM := Zpos (digits2_pos M)) in *.
  assert (HdM : dM <= 52 + Zpos k).
  { destruct (Z_le_gt_dec dM (52 + Zpos k)) as [?|Hgt]; [assumption|].
    exfalso.
    assert (2 ^ (52 + Zpos k) <= 2 ^ (dM - 1)) by (apply Z.pow_le_mono_r; lia).
    rewrite Z.pow_add_r in * by lia. lia. }
  destruct (Z_le_gt_dec dM 53) as [Hsmall|Hbig].
  - (* the difference has at most 53 digits: it is representable *)
    assert (Hf : fexp prec emax (dM + e) <= e)
      by (unfold fexp, emin, prec, emax; lia).
    unfold shl_align.
    destruct (fexp prec emax (dM + e) - e) as [|j|j] eqn:Hj; try lia;
      cbv beta iota.
    + rewrite round_canonical.
      * exists M, e. split; [reflexivity | left; lia].
      * unfold bounded, canonical_mantissa. fold dM.
        apply andb_true_intro. split.
        -- apply Z.eqb_eq. lia.
        -- apply Z.leb_le. unfold emax, prec. lia.
    + rewrite round_canonical.
      * exists (Pos.iter xO M j), (fexp prec emax (dM + e)).
        split; [reflexivity | left; lia].
      * unfold bounded, canonical_mantissa.
        assert (Hdj : Zpos (digits2_pos (Pos.iter xO M j)) = dM + Zpos j).
        { apply digits2_pos_unique. rewrite iter_xO.
          replace (dM + Zpos j - 1) with (dM - 1 + Zpos j) by lia.
          pose proof (two_le_pow j).
          rewrite !Z.pow_add_r by (unfold dM; lia). nia. }
        rewrite Hdj. apply andb_true_intro. split.
        -- apply Z.eqb_eq.
           replace (dM + Zpos j + fexp prec emax (dM + e)) with (dM + e) by lia.
           reflexivity.
        -- apply Z.leb_le. change (emax - prec) with 971. lia.
  - (* more than 53 digits: rounding *)
    destruct (dM - 53) as [|n|n] eqn:Hn; try lia.
    unfold shl_align.
    replace (fexp prec emax (dM + e) - e) with (Zpos n)
      by (unfold fexp, emin, prec, emax; lia).
    cbv beta iota.
    destruct (round_shift true M e n) as (m2 & e2 & Hr & Hcases);
      [fold dM; lia | lia | lia | ].
    exists m2, e2. split; [exact Hr|].
    destruct Hcases as [[-> B]|[-> ->]]; [left; lia | ].
    destruct (Z.eq_dec (e + Zpos n + 1) (-52)) as [Heq|Hne];
      [right; split; [exact Heq | reflexivity] | left; lia].
Qed.

Lemma SFltb_leb_trans a b c :
  SFltb a b = true -> SFleb b c = true -> SFltb a c = true.
Proof.
  unfold SFltb, SFleb, SFcompare.
  destruct a as [sa|sa| |sa ma ea], b as [sb|sb| |sb mb eb],
           c as [sc|sc| |sc mc ec];
    try destruct sa; try destruct sb; try destruct sc;
    try discriminate; try reflexivity; intros H1 H2;
    repeat match goal with
    | H : context [Z.compare ?a ?b] |- _ =>
        destruct (Z.compare_spec a b); try subst
    | |- context [Z.compare ?a ?b] =>
        destruct (Z.compare_spec a b); try subst
    | H : context [Pos.compare_cont Eq ?a ?b] |- _ =>
        rewrite (compare_cont_Eq a b) in H;
        destruct (Pos.compare_spec a b); try subst
    | |- context [Pos.compare_cont Eq ?a ?b] =>
        rewrite (compare_cont_Eq a b);
        destruct (Pos.compare_spec a b); try subst
    end; simpl in *; try discriminate; try reflexivity; try lia.
Qed.

Lemma ltb_leb_trans (x y z : float) :
  (x <? y)%float = true -> (y <=? z)%float = true -> (x <? z)%float = true.
Proof.
  rewrite !FloatAxioms.ltb_spec, FloatAxioms.leb_spec. apply SFltb_leb_trans.
Qed.

Lemma pos_ge_pow52 m2 :
  2 ^ 52 <= Zpos m2 ->
  Pos.compare 4503599627370496 m2 <> Gt.
Proof.
  intros H Hc. apply Pos.compare_gt_iff in Hc.
  apply Pos2Z.pos_lt_pos in Hc.
  apply (Z.lt_irrefl (Zpos m2)). eapply Z.lt_le_trans; eassumption.
Qed.

(** For a draw [r] in [[0, 1)] the sum [1 + r] lies in [[1, 2]]. *)
Lemma one_plus_unit (r : float) :
  (0 <=? r)%float = true -> (r <? 1)%float = true ->
  (1 <=? 1 + r)%float = true /\ (1 + r <=? 2)%float = true.
Proof.
  rewrite !FloatAxioms.leb_spec, FloatAxioms.ltb_spec, FloatAxioms.add_spec.
  change (Prim2SF 0) with (S754_zero false).
  change (Prim2SF 1) with SF_one. change (Prim2SF 2) with SF_two.
  intros H0 H1.
  destruct (unit_interval_cases (Prim2SF r) (Prim2SF_valid r) H0 H1)
    as [[s ->]|(m & e & -> & He & Hb)].
  - destruct s; split; reflexivity.
  - destruct (SFadd_one_unit m e Hb He) as (m2 & e2 & Hadd & Hcases).
    unfold SF64add. rewrite Hadd.
    destruct Hcases as [[-> B]|[-> ->]]; [ | split; reflexivity].
    split; [ | reflexivity].
    unfold SFleb, SF_one, SFcompare. cbn [Z.compare Pos.compare Pos.compare_cont].
    rewrite compare_cont_Eq.
    pose proof (pos_ge_pow52 m2 (proj1 B)) as Hc.
    destruct (Pos.compare 4503599627370496 m2); [reflexivity | reflexivity | congruence].
Qed.

(** For a draw [r] in [[0, 1)] the sum [-1 + r] lies in [[-1, 0)]. *)
Lemma minus_one_plus_unit (r : float) :
  (0 <=? r)%float = true -> (r <? 1)%float = true ->
  (-1 <=? -1 + r)%float = true /\ (-1 + r <? 0)%float = true.
Proof.
  rewrite !FloatAxioms.leb_spec, !FloatAxioms.ltb_spec, FloatAxioms.add_spec.
  change (Prim2SF 0) with (S754_zero false).
  change (Prim2SF 1) with SF_one. change (Prim2SF (-1)) with SF_minus_one.
  intros H0 H1.
  destruct (unit_interval_cases (Prim2SF r) (Prim2SF_valid r) H0 H1)
    as [[s ->]|(m & e & -> & He & Hb)].
  - destruct s; split; reflexivity.
  - destruct (SFadd_minus_one_unit m e Hb He) as (m2 & e2 & Hadd & Hcases).
    unfold SF64add. rewrite Hadd. split; [ | reflexivity].
    unfold SFleb, SF_minus_one, SFcompare.
    destruct Hcases as [Hlt|[-> ->]]; [ | reflexivity].
    destruct (Z.compare_spec (-52) e2) as [?|?|?]; try lia; try reflexivity.
Qed.

(** * C9: the bounds of the base rows *)

Lemma lookup_bounds (f : float -> float) (r : nat -> float) m k :
  (k < m)%nat -> map f (map r (seq 0 m)) !! k = Some (f (r k)).
Proof.
  intros Hk. rewrite map_map, lookup_map_seq.
  destruct (Nat.ltb_spec k m) as [_|?]; [reflexivity | lia].
Qed.

(** Base row [k] of a generated instance: its bounds are [-1 + r'] and
    [1 + r] for two draws of [sp.rand]. *)
Lemma generated_base_row {E : Externals} n m p dns (w : world) inst w' k :
  generate n m p dns w = (Ok inst, w') -> (k < Z.to_nat m)%nat ->
  exists row (stl stu : rng),
    constraint_rows inst !! k
    = Some (row, ((-1 + fst (draw_rand stl (Z.to_nat m)) k)%float,
                  (1 + fst (draw_rand stu (Z.to_nat m)) k)%float)).
Proof.
  intros H Hk.
  apply generate_ok in H
    as (Hn & Hp & Hm & _ & st1 & st3 & st4 & st5 & _ & _ & Hab & _).
  cbv zeta in Hab. unfold add_bounds in Hab.
  injection Hab as HA Hl Hu.
  unfold constraint_rows. rewrite HA, Hl, Hu. cbn [entries tabulate].
  exists (map (fst (draw_sparse st3 (Z.to_nat m) (Z.to_nat n) dns) k)
              (seq 0 (Z.to_nat n))), st5, st4.
  rewrite lookup_zip_with.
  rewrite lookup_app_l by (rewrite length_map_seq; exact Hk).
  rewrite lookup_map_seq.
  destruct (Nat.ltb_spec k (Z.to_nat m)) as [_|?]; [ | lia]. cbn [mbind option_bind].
  rewrite lookup_zip_with.
  unfold lower_bounds, upper_bounds.
  rewrite lookup_app_l by (rewrite !length_map, length_seq; exact Hk).
  rewrite lookup_bounds by exact Hk. cbn [mbind option_bind].
  rewrite lookup_app_l by (rewrite !length_map, length_seq; exact Hk).
  rewrite lookup_bounds by exact Hk. reflexivity.
Qed.

(** C9, as amended.  In every generated instance each of the [m] base
    rows has its upper bound in the closed interval [[1, 2]] and its lower
    bound in the half-open interval [[-1, 0)], hence lower < upper: the bounds
    are [1 + r] and [-1 + r'] for draws of [sp.rand], which are uniform on
    [[0, 1)], so 1 and -1 are attained at a draw of 0, and 2 at the largest
    draw, by rounding. *)
Theorem base_rows_have_lower_below_upper
  {E : Externals} {C : NumpyContract E} n m p dns (w : world) inst w' k :
  generate n m p dns w = (Ok inst, w') -> (k < Z.to_nat m)%nat ->
  exists row l u,
    constraint_rows inst !! k = Some (row, (l, u)) /\
    (-1 <=? l)%float = true /\ (l <? 0)%float = true /\
    (1 <=? u)%float = true /\ (u <=? 2)%float = true /\
    (l <? u)%float = true.
Proof.
  intros H Hk.
  destruct (generated_base_row n m p dns w inst w' k H Hk)
    as (row & stl & stu & Hrow).
  destruct (rand_spec stl (Z.to_nat m) k) as [L0 L1].
  destruct (rand_spec stu (Z.to_nat m) k) as [U0 U1].
  destruct (minus_one_plus_unit _ L0 L1) as [Ll Lu].
  destruct (one_plus_unit _ U0 U1) as [Ul Uu].
  eexists row, _, _. split; [exact Hrow|].
  repeat split; try assumption.
  eapply ltb_leb_trans; [exact Lu|].
  eapply leb_trans; [ | exact Ul]. reflexivity.
Qed.

Lemma base_rows_have_lower_below_upper_witness :
  generate (E:=scripted calm) 4 2 2 0.6%float (scripted_world calm 1 0)
  = (Ok small_instance, snd small_run) /\ (1 < Z.to_nat 2)%nat /\
  exists row l u,
    constraint_rows small_instance !! 1%nat = Some (row, (l, u)) /\
    (-1 <=? l)%float = true /\ (l <? 0)%float = true /\
    (1 <=? u)%float = true /\ (u <=? 2)%float = true /\
    (l <? u)%float = true.
Proof.
  split; [vm_compute; reflexivity | ].
  split; [vm_compute; lia | ].
  apply (@base_rows_have_lower_below_upper (scripted calm) calm_contract
           4 2 2 0.6%float (scripted_world calm 1 0) small_instance
           (snd small_run) 1%nat).
  - vm_compute. reflexivity.
  - vm_compute. lia.
Defined.

Lemma edge_contract : NumpyContract (scripted edge).
Proof.
  constructor.
  - intros st k. simpl. destruct (Nat.odd st); [ | reflexivity].
    symmetry. apply Permutation_rev.
  - intros st k i. split; reflexivity.
Qed.

(** The claim fails: when [sp.rand] draws 0 the base row has upper bound
    exactly 1 and lower bound exactly -1, outside the open intervals; and
    the largest draw below 1 gives the upper bound 2. *)
Lemma bounds_reach_the_ends_of_the_intervals :
  constraint_rows
    (match fst (generate (E:=scripted edge) 3 1 1 0.6%float
                         (scripted_world edge 0 0)) with
     | Ok inst => inst
     | Raise _ => small_instance
     end) !! 0%nat
  = Some ([0.125%float; 0%float; 0%float], ((-1)%float, 1%float)) /\
  (1 <? 1)%float = false /\ (-1 <? -1)%float = false /\
  (0x1.fffffffffffffp-1 <? 1)%float = true /\
  (1 + 0x1.fffffffffffffp-1 <? 2)%float = false.
Proof. vm_compute. repeat split. Qed.

(** * C7: the cost matrix *)

Lemma SFmul_comm x y : SFmul prec emax x y = SFmul prec emax y x.
Proof.
  destruct x as [sx|sx| |sx mx ex], y as [sy|sy| |sy my ey]; simpl;
    try reflexivity; try (rewrite (xorb_comm sx sy); reflexivity).
  rewrite (xorb_comm sx sy), (Pos.mul_comm mx my), (Z.add_comm ex ey).
  reflexivity.
Qed.

(** Binary64 multiplication is commutative. *)
Lemma mul_comm (x y : float) : (x * y)%float = (y * x)%float.
Proof.
  apply Prim2SF_inj. rewrite !FloatAxioms.mul_spec. apply SFmul_comm.
Qed.

Lemma mget_tabulate r c f i j :
  mget (tabulate r c f) i j
  = if (i <? r)%nat && (j <? c)%nat then f i j else 0%float.
Proof.
  unfold mget, tabulate. cbn [entries]. rewrite lookup_map_seq.
  destruct (i <? r)%nat; [ | reflexivity]. cbn [andb].
  rewrite lookup_map_seq. destruct (j <? c)%nat; reflexivity.
Qed.

Lemma fold_left_ext_in {A B} (f g : A -> B -> A) (l : list B) :
  (forall a k, In k l -> f a k = g a k) ->
  forall a, fold_left f l a = fold_left g l a.
Proof.
  induction l as [|k l IH]; intros H a; simpl; [reflexivity|].
  rewrite (H a k) by (left; reflexivity).
  apply IH. intros b k' Hk'. apply H. right. exact Hk'.
Qed.

(** The Gram product [a.T * a], as [np.dot] computes it, is symmetric. *)
Lemma gram_symmetric (a : matrix) i j :
  mget (tabulate (ncols a) (ncols a) (dot_entry (transpose a) a)) i j
  = mget (tabulate (ncols a) (ncols a) (dot_entry (transpose a) a)) j i.
Proof.
  rewrite !mget_tabulate.
  destruct (Nat.ltb_spec i (ncols a)) as [Hi|Hi],
           (Nat.ltb_spec j (ncols a)) as [Hj|Hj]; cbn [andb];
    try reflexivity.
  unfold dot_entry. apply fold_left_ext_in.
  intros acc k Hk. apply in_seq in Hk. cbn [transpose ncols tabulate] in Hk.
  f_equal. unfold transpose. rewrite !mget_tabulate.
  destruct (Nat.ltb_spec i (ncols a)) as [_|?]; [ | lia].
  destruct (Nat.ltb_spec j (ncols a)) as [_|?]; [ | lia].
  destruct (Nat.ltb_spec k (nrows a)) as [_|?]; [ | lia].
  cbn [andb]. apply mul_comm.
Qed.

(** ** Exact arithmetic

    Sums of rationals, to say what holds of the Gram product before
    rounding. *)

Section ExactSums.

Local Open Scope Q_scope.

Lemma sumQ_ext l f g : (forall k, f k == g k) -> sumQ l f == sumQ l g.
Proof.
  intros H. induction l as [|k l IH]; simpl; [reflexivity|].
  rewrite (H k), IH. reflexivity.
Qed.

Lemma sumQ_add l f g : sumQ l (fun k => f k + g k) == sumQ l f + sumQ l g.
Proof.
  induction l as [|k l IH]; simpl; [ring|]. rewrite IH. ring.
Qed.

Lemma sumQ_scale l c f : sumQ l (fun k => c * f k) == c * sumQ l f.
Proof.
  induction l as [|k l IH]; simpl; [ring|]. rewrite IH. ring.
Qed.

Lemma sumQ_zero l : sumQ l (fun _ => 0) == 0.
Proof. induction l as [|k l IH]; simpl; [reflexivity|]. rewrite IH. ring. Qed.

Lemma sumQ_swap l1 l2 (f : nat -> nat -> Q) :
  sumQ l1 (fun i => sumQ l2 (fun j => f i j))
  == sumQ l2 (fun j => sumQ l1 (fun i => f i j)).
Proof.
  induction l1 as [|i l1 IH]; simpl.
  - symmetry. apply sumQ_zero.
  - rewrite IH. symmetry. apply sumQ_add.
Qed.

Lemma sumQ_nonneg l f : (forall k, 0 <= f k) -> 0 <= sumQ l f.
Proof.
  intros H. induction l as [|k l IH]; simpl; [apply Qle_refl|].
  replace 0 with (0 + 0) by reflexivity. apply Qplus_le_compat; [apply H | exact IH].
Qed.

(** The quadratic form of an exact Gram product is a sum of squares. *)
Lemma gram_form_sum_of_squares (a : nat -> nat -> Q) (x : nat -> Q) rows cols :
  sumQ cols (fun i => sumQ cols (fun j =>
     sumQ rows (fun k => a k i * a k j) * x i * x j))
  == sumQ rows (fun k =>
       sumQ cols (fun i => a k i * x i) * sumQ cols (fun i => a k i * x i)).
Proof.
  transitivity
    (sumQ cols (fun i => sumQ rows (fun k =>
       (a k i * x i) * sumQ cols (fun j => a k j * x j)))).
  - apply sumQ_ext. intros i.
    transitivity
      (sumQ cols (fun j => sumQ rows (fun k => a k i * x i * (a k j * x j)))).
    + apply sumQ_ext. intros j. symmetry.
      transitivity (sumQ rows (fun k => (x i * x j) * (a k i * a k j))).
      * apply sumQ_ext. intros k. ring.
      * etransitivity; [apply sumQ_scale | ring].
    + etransitivity; [apply sumQ_swap | ].
      apply sumQ_ext. intros k. apply sumQ_scale.
  - etransitivity; [apply sumQ_swap | ].
    apply sumQ_ext. intros k.
    transitivity
      (sumQ cols (fun i => sumQ cols (fun j => a k j * x j) * (a k i * x i))).
    + apply sumQ_ext. intros i. ring.
    + etransitivity; [apply sumQ_scale | ring].
Qed.

Lemma Qsquare_nonneg (s : Q) : 0 <= s * s.
Proof.
  unfold Qle. simpl. rewrite Z.mul_1_r. apply Z.square_nonneg.
Qed.

Lemma gram_form_nonneg (a : nat -> nat -> Q) (x : nat -> Q) rows cols :
  0 <= sumQ cols (fun i => sumQ cols (fun j =>
         sumQ rows (fun k => a k i * a k j) * x i * x j)).
Proof.
  rewrite gram_form_sum_of_squares. apply sumQ_nonneg.
  intros k. apply Qsquare_nonneg.
Qed.

End ExactSums.

(** C7, as amended.  In every generated instance the cost matrix is the
    Gram product [Pt.T * Pt] of the drawn n-by-n matrix with itself, computed
    in binary64; it is n-by-n and symmetric, and its construction cannot
    fail: the product of the transpose of a matrix with the matrix is always
    defined.  In exact arithmetic the quadratic form of that product is a
    sum of squares, hence never negative; the entries the code computes are
    rounded sums of rounded products, and nothing is promised about the
    eigenvalues of the matrix they form. *)
Theorem cost_matrix_is_a_symmetric_gram_product {E : Externals}
  n m p dns (w : world) inst w' :
  generate n m p dns w = (Ok inst, w') ->
  (exists st,
     let Pt := drawn_matrix st (Z.to_nat n) (Z.to_nat n) dns in
     np_dot (transpose Pt) Pt = Ok (inst_P inst) /\
     forall x, (0 <= exact_gram_form Pt x)%Q) /\
  nrows (inst_P inst) = Z.to_nat n /\ ncols (inst_P inst) = Z.to_nat n /\
  (forall i j, mget (inst_P inst) i j = mget (inst_P inst) j i) /\
  (forall a : matrix, exists g, np_dot (transpose a) a = Ok g).
Proof.
  intros H.
  apply generate_ok in H
    as (Hn & Hp & Hm & _ & st1 & st3 & st4 & st5 & _ & HP & _).
  cbv zeta in HP. pose proof HP as HP'. rewrite np_dot_gram in HP'.
  injection HP' as HP'. cbn [ncols tabulate] in HP'.
  split.
  { exists st1. split; [exact HP | ].
    intros x. unfold exact_gram_form. apply gram_form_nonneg. }
  rewrite <- HP'. cbn [nrows ncols tabulate].
  split; [reflexivity | split; [reflexivity | split]].
  - intros i j.
    apply (gram_symmetric
             (tabulate (Z.to_nat n) (Z.to_nat n)
                (fst (draw_sparse st1 (Z.to_nat n) (Z.to_nat n) dns))) i j).
  - intros a. eexists. apply np_dot_gram.
Qed.

Lemma cost_matrix_is_a_symmetric_gram_product_witness :
  generate (E:=scripted calm) 4 2 2 0.6%float (scripted_world calm 1 0)
  = (Ok small_instance, snd small_run) /\
  (exists st,
     let Pt := drawn_matrix (E:=scripted calm) st (Z.to_nat 4) (Z.to_nat 4)
                            0.6%float in
     np_dot (transpose Pt) Pt = Ok (inst_P small_instance) /\
     forall x, (0 <= exact_gram_form Pt x)%Q) /\
  nrows (inst_P small_instance) = Z.to_nat 4 /\
  ncols (inst_P small_instance) = Z.to_nat 4 /\
  (forall i j, mget (inst_P small_instance) i j = mget (inst_P small_instance) j i) /\
  (forall a : matrix, exists g, np_dot (transpose a) a = Ok g).
Proof.
  split; [vm_compute; reflexivity | ].
  apply (@cost_matrix_is_a_symmetric_gram_product (scripted calm)
           4 2 2 0.6%float (scripted_world calm 1 0) small_instance
           (snd small_run)).
  vm_compute. reflexivity.
Defined.

(** The claim fails: for the drawn matrix [[0.5, 0.7], [0, 0]] the computed
    Gram product is [[0.25, 0.35], [0.35, 0.49]] with the last entry rounded
    below the square of the binary64 number 0.7, and its quadratic form is
    negative at [x = (-2 * 0.7, 1)] (scaled by 2^52 below): the cost matrix
    has a negative eigenvalue. *)
Lemma rounded_gram_product_can_be_indefinite :
  fst (generate (E:=scripted skewed) 2 1 1 0.6%float (scripted_world skewed 0 0))
  = Ok skewed_instance /\
  inst_P skewed_instance
  = Matrix 2 2 [ [0.25%float; 0x1.6666666666666p-2%float];
                 [0x1.6666666666666p-2%float; 0x1.f5c28f5c28f5bp-2%float] ] /\
  (quadratic_form (inst_P skewed_instance)
                  [inject_Z (-6305039478318694); inject_Z 4503599627370496]
   < 0)%Q /\
  ~ positive_semidefinite (inst_P skewed_instance).
Proof.
  split; [vm_compute; reflexivity | ].
  split; [vm_compute; reflexivity | ].
  split; [vm_compute; reflexivity | ].
  intros H.
  specialize (H [inject_Z (-6305039478318694); inject_Z 4503599627370496]
                eq_refl).
  vm_compute in H. apply H. reflexivity.
Qed.

(** * Further properties of the script

    Properties of [solve] and of the block that runs it which the code
    shows beyond the ones above. *)

(** * Scripted libraries that behave *)

Lemma calm_is_cooperative : cooperative (scripted calm).
Proof.
  split; [ | split].
  - intros x inst. eexists. reflexivity.
  - intros x inst. eexists. split; reflexivity.
  - intros x. reflexivity.
Qed.

Lemma calm_is_always_optimal : always_optimal (scripted calm).
Proof.
  split.
  - intros x inst res H. injection H as <-. reflexivity.
  - intros x inst res H. injection H as <-. reflexivity.
Qed.

(** * The exceptions of a well-formed sweep *)

Section Yields.

Context {E : Externals}.

Lemma yields_ret {A} (Q : A -> Prop) P (a : A) : Q a -> yields Q P (ret a).
Proof. intros H w. exact H. Qed.

Lemma yields_raise {A} (Q : A -> Prop) (P : exn -> Prop) e :
  P e -> yields Q P (@raise _ A e).
Proof. intros H w. exact H. Qed.

Lemma yields_lift {A} (Q : A -> Prop) (P : exn -> Prop) (o : outcome A) :
  match o with Ok a => Q a | Raise e => P e end -> yields Q P (lift o).
Proof. intros H w. exact H. Qed.

Lemma yields_emit (Q : unit -> Prop) P ev : Q tt -> yields Q P (emit ev).
Proof. intros H w. exact H. Qed.

Lemma yields_draw {A} (Q : A -> Prop) P (f : rng -> A * rng) :
  (forall st, Q (fst (f st))) -> yields Q P (draw f).
Proof. intros H w. apply H. Qed.

Lemma yields_extern {A} (Q : A -> Prop) P (f : ext -> A * ext) :
  (forall x, Q (fst (f x))) -> yields Q P (extern f).
Proof. intros H w. apply H. Qed.

Lemma yields_bind {A B} (Q1 : A -> Prop) (Q : B -> Prop) P
  (c : M A) (k : A -> M B) :
  yields Q1 P c -> (forall a, Q1 a -> yields Q P (k a)) ->
  yields Q P (bind c k).
Proof.
  intros Hc Hk w. rewrite bind_run. specialize (Hc w).
  destruct (c w) as [[a|e] w1]; simpl in *.
  - apply Hk. exact Hc.
  - exact Hc.
Qed.

Lemma yields_for_each {A S} (I : S -> Prop) P (xs : list A)
  (body : A -> S -> M S) :
  (forall x s, In x xs -> I s -> yields I P (body x s)) ->
  forall s, I s -> yields I P (for_each xs body s).
Proof.
  induction xs as [|x xs IH]; intros Hb s Hs; simpl.
  - apply yields_ret. exact Hs.
  - apply (yields_bind I).
    + apply Hb; [left; reflexivity | exact Hs].
    + intros s' Hs'. apply IH; [ | exact Hs'].
      intros y t Hy. apply Hb. right. exact Hy.
Qed.

Lemma yields_local {A} (Q : A -> Prop) P name (v : option A) :
  (exists a, v = Some a /\ Q a) -> yields Q P (local name v).
Proof. intros (a & -> & H). apply yields_ret. exact H. Qed.

Lemma yields_run {A} (Q : A -> Prop) P (c : M A) :
  (forall w, exists a w', c w = (Ok a, w') /\ Q a) -> yields Q P c.
Proof. intros H w. destruct (H w) as (a & w' & -> & Ha). exact Ha. Qed.

Lemma ipdb_yields : yields (fun _ => True) outside_the_script ipdb_set_trace.
Proof.
  unfold ipdb_set_trace.
  apply (yields_bind (fun _ => True)); [apply yields_emit; exact I | intros _ _].
  apply (yields_bind (fun a => exists x, a = fst (ipdb_session x))).
  - apply yields_extern. intros x. exists x. reflexivity.
  - intros a (x & ->). destruct (fst (ipdb_session x)) eqn:Hx.
    + apply yields_ret. exact I.
    + apply yields_raise. right; right; left. split; [reflexivity|].
      exists x. exact Hx.
Qed.

Lemma set_item_length {A} (a : list A) i v :
  (i < length a)%nat ->
  exists a', set_item a i v = Ok a' /\ length a' = length a.
Proof.
  intros Hi. unfold set_item.
  destruct (Nat.ltb_spec i (length a)) as [_|?]; [|lia].
  eexists. split; [reflexivity | apply length_insert].
Qed.

Lemma solve_gurobi_yields solver r inst j s :
  (j < r)%nat -> samples_shape solver r s ->
  yields (samples_shape solver r) outside_the_script (solve_gurobi inst j s).
Proof.
  intros Hj [Hlen Ho]. unfold solve_gurobi.
  apply (yields_bind (fun _ => True)); [apply yields_emit; exact I | intros _ _].
  apply (yields_bind (fun a => exists x, a = fst (gurobi_solve x inst))).
  { apply yields_extern. intros x. exists x. reflexivity. }
  intros a (x & ->).
  apply (yields_bind (fun _ => True)).
  { apply yields_lift. destruct (fst (gurobi_solve x inst)) as [res|e] eqn:Hx.
    - exact I.
    - left. exists x, inst. exact Hx. }
  intros res _.
  apply (yields_bind (fun _ => True)); [apply yields_emit; exact I | intros _ _].
  apply (yields_bind (fun _ => True)).
  { destruct (negb _); [apply ipdb_yields | apply yields_ret; exact I]. }
  intros _ _.
  destruct (set_item_length (solve_time_temp s) j (1000 * g_cputime res)%float)
    as (t & Ht & Lt); [lia|].
  rewrite Ht.
  apply (yields_bind (fun a => a = t)); [apply yields_lift; reflexivity|].
  intros ? ->. apply yields_ret. split; simpl; [lia | exact Ho].
Qed.

Lemma solve_miosqp_yields solver r inst j s :
  String.eqb solver "miosqp" = true ->
  (j < r)%nat -> samples_shape solver r s ->
  yields (samples_shape solver r) outside_the_script (solve_miosqp inst j s).
Proof.
  intros Hs Hj [Hlen Ho]. destruct (Ho Hs) as (o & Eo & Lo).
  unfold solve_miosqp.
  apply (yields_bind (fun _ => True)); [apply yields_emit; exact I | intros _ _].
  apply (yields_bind (fun a => exists x,
           a = fst (miosqp_solve x inst miosqp_settings osqp_settings))).
  { apply yields_extern. intros x. exists x. reflexivity. }
  intros a (x & ->).
  apply (yields_bind (fun res =>
           fst (miosqp_solve x inst miosqp_settings osqp_settings) = Ok res)).
  { apply yields_lift.
    destruct (fst (miosqp_solve x inst miosqp_settings osqp_settings))
      as [res|e] eqn:Hx.
    - reflexivity.
    - right; left. exists x, inst. exact Hx. }
  intros res Hres.
  apply (yields_bind (fun _ => True)); [apply yields_emit; exact I | intros _ _].
  apply (yields_bind (fun _ => True)).
  { destruct (negb _); [apply ipdb_yields | apply yields_ret; exact I]. }
  intros _ _. rewrite Eo.
  apply (yields_bind (fun a => a = o)); [apply yields_ret; reflexivity|].
  intros ? ->.
  apply (yields_bind (fun _ => True)).
  { apply yields_lift. unfold py_div.
    destruct (mi_run_time res =? 0)%float eqn:Hz; [ | exact I].
    right; right; right. split; [reflexivity|].
    exists x, inst, res. split; assumption. }
  intros ratio _.
  destruct (set_item_length o j (100 * ratio)%float) as (o' & Ho' & Lo');
    [lia|].
  rewrite Ho'.
  apply (yields_bind (fun a => a = o')); [apply yields_lift; reflexivity|].
  intros ? ->.
  destruct (set_item_length (solve_time_temp s) j (1000 * mi_run_time res)%float)
    as (t & Ht & Lt); [lia|].
  rewrite Ht.
  apply (yields_bind (fun a => a = t)); [apply yields_lift; reflexivity|].
  intros ? ->. apply yields_ret. split; simpl; [lia|].
  intros _. exists o'. split; [reflexivity | lia].
Qed.

Lemma repetition_yields solver n m p dns r j s :
  admissible [n; m; p] = true -> valid_density dns = true ->
  (j < r)%nat -> samples_shape solver r s ->
  yields (samples_shape solver r) outside_the_script
         (repetition solver n m p dns j s).
Proof.
  intros Hadm Hd Hj Hs. unfold repetition.
  apply (yields_bind (fun _ => True)).
  - apply yields_run. intros w.
    simpl in Hadm. apply andb_prop in Hadm as [Hadm H4].
    apply andb_prop in Hadm as [Hadm H3]. apply andb_prop in Hadm as [H1 H2].
    destruct (generate_succeeds n m p dns w) as (inst & w' & Hg);
      try assumption; try lia.
    exists inst, w'. split; [exact Hg | exact I].
  - intros inst _.
    destruct (String.eqb solver "gurobi").
    + apply solve_gurobi_yields; assumption.
    + destruct (String.eqb solver "miosqp") eqn:Hm.
      * apply solve_miosqp_yields; assumption.
      * apply yields_ret. exact Hs.
Qed.

Lemma fresh_samples_shape solver repeat :
  samples_shape solver (Z.to_nat repeat) (fresh_samples repeat solver).
Proof.
  unfold fresh_samples. split; simpl.
  - apply length_replicate.
  - intros ->. eexists. split; [reflexivity | apply length_replicate].
Qed.

Lemma aggregate_some xs :
  xs <> [] -> exists v, aggregate xs = Ok v.
Proof.
  destruct xs as [|x xs]; [congruence|]. intros _. unfold aggregate. simpl.
  eexists. reflexivity.
Qed.

Lemma store3_some i v avg mx mn len :
  (i < len)%nat -> length avg = len -> length mx = len -> length mn = len ->
  exists avg' mx' mn',
    store3 i v avg mx mn = Ok (avg', mx', mn') /\
    length avg' = len /\ length mx' = len /\ length mn' = len.
Proof.
  intros Hi La Lx Ln. destruct v as [[a b] c]. unfold store3.
  destruct (set_item_length avg i a) as (avg' & -> & L1); [lia|].
  destruct (set_item_length mx i b) as (mx' & -> & L2); [lia|].
  destruct (set_item_length mn i c) as (mn' & -> & L3); [lia|].
  exists avg', mx', mn'. repeat split; lia.
Qed.

Lemma configuration_yields n_vec m_vec p_vec repeat dns solver i st n m p :
  n_vec !! i = Some n -> m_vec !! i = Some m -> p_vec !! i = Some p ->
  admissible [n; m; p] = true -> valid_density dns = true -> 1 <= repeat ->
  statistics_shape solver (length n_vec) st ->
  yields (statistics_shape solver (length n_vec)) outside_the_script
         (configuration n_vec m_vec p_vec repeat dns solver i st).
Proof.
  intros Hn Hm Hp Hadm Hd Hr (La & Ln & Lx & Ho).
  pose proof (lookup_lt_Some _ _ _ Hn) as Hi.
  unfold configuration, get_item. rewrite Hn, Hm, Hp.
  apply (yields_bind (fun a => a = n)); [apply yields_lift; reflexivity|].
  intros ? ->.
  apply (yields_bind (fun a => a = m)); [apply yields_lift; reflexivity|].
  intros ? ->.
  apply (yields_bind (fun a => a = p)); [apply yields_lift; reflexivity|].
  intros ? ->.
  apply (yields_bind (fun _ => True)); [apply yields_emit; exact I | intros _ _].
  unfold np_zeros. destruct (Z.ltb_spec repeat 0) as [?|_]; [lia|].
  apply (yields_bind (fun a => a = replicate (Z.to_nat repeat) 0%float));
    [apply yields_lift; reflexivity|].
  intros ? ->.
  apply (yields_bind (fun a =>
           a = osqp_solve_time_temp (fresh_samples repeat solver))).
  { unfold fresh_samples. simpl. destruct (String.eqb solver "miosqp").
    - apply (yields_bind (fun a => a = replicate (Z.to_nat repeat) 0%float));
        [apply yields_lift; reflexivity|].
      intros ? ->. apply yields_ret. reflexivity.
    - apply yields_ret. reflexivity. }
  intros ? ->.
  change (Samples (replicate (Z.to_nat repeat) 0%float)
                  (osqp_solve_time_temp (fresh_samples repeat solver)))
    with (fresh_samples repeat solver).
  apply (yields_bind (samples_shape solver (Z.to_nat repeat))).
  { apply yields_for_each; [ | apply fresh_samples_shape].
    intros j s Hj Hs. apply in_seq in Hj.
    apply repetition_yields; try assumption. lia. }
  intros s [Ls Hso].
  destruct (aggregate_some (solve_time_temp s)) as (a & Ha).
  { intros Hnil. rewrite Hnil in Ls. simpl in Ls. lia. }
  rewrite Ha.
  apply (yields_bind (fun v => v = a)); [apply yields_lift; reflexivity|].
  intros ? ->.
  destruct (store3_some i a (avg_solve_time st) (max_solve_time st)
              (min_solve_time st) (length n_vec))
    as (avg' & mx' & mn' & Hst & L1 & L2 & L3); try assumption.
  rewrite Hst.
  apply (yields_bind (fun v => v = (avg', mx', mn')));
    [apply yields_lift; reflexivity|].
  intros ? ->.
  destruct (String.eqb solver "miosqp") eqn:Hsolver.
  - destruct (Hso eq_refl) as (o & Eo & Lo).
    destruct (Ho eq_refl) as (oa & ob & oc & Ea & Eb & Ec & Loa & Lob & Loc).
    rewrite Eo, Ea, Eb, Ec.
    apply (yields_bind (fun v => v = o)); [apply yields_ret; reflexivity|].
    intros ? ->.
    apply (yields_bind (fun v => v = oa)); [apply yields_ret; reflexivity|].
    intros ? ->.
    apply (yields_bind (fun v => v = oc)); [apply yields_ret; reflexivity|].
    intros ? ->.
    apply (yields_bind (fun v => v = ob)); [apply yields_ret; reflexivity|].
    intros ? ->.
    destruct (aggregate_some o) as (b & Hb).
    { intros Hnil. rewrite Hnil in Lo. simpl in Lo. lia. }
    rewrite Hb.
    apply (yields_bind (fun v => v = b)); [apply yields_lift; reflexivity|].
    intros ? ->.
    destruct (store3_some i b oa oc ob (length n_vec))
      as (oa' & oc' & ob' & Host & M1 & M2 & M3); try assumption.
    rewrite Host.
    apply (yields_bind (fun v => v = (oa', oc', ob')));
      [apply yields_lift; reflexivity|].
    intros ? ->. apply yields_ret.
    repeat split; simpl; try assumption.
    intros _. exists oa', ob', oc'. repeat split; assumption.
  - apply yields_ret. repeat split; simpl; try assumption.
    intros Hc. congruence.
Qed.

Lemma initial_statistics_shape n_vec solver :
  statistics_shape solver (length n_vec) (initial_statistics n_vec solver).
Proof.
  unfold initial_statistics.
  destruct (String.eqb solver "miosqp") eqn:Hs; repeat split; simpl;
    try apply length_replicate.
  - intros _. do 3 eexists. repeat split; apply length_replicate.
  - intros Hc. congruence.
Qed.

Lemma well_formed_spec k n_vec m_vec p_vec repeat dns seed :
  well_formed k n_vec m_vec p_vec repeat dns seed = true ->
  0 <= seed < 2 ^ 32 /\ (Z.to_nat k <= length n_vec)%nat /\
  length m_vec = length n_vec /\ length p_vec = length n_vec /\
  1 <= repeat /\ valid_density dns = true /\
  forall i, (i < Z.to_nat k)%nat ->
    exists n m p,
      n_vec !! i = Some n /\ m_vec !! i = Some m /\ p_vec !! i = Some p /\
      admissible [n; m; p] = true.
Proof.
  unfold well_formed. intros H.
  repeat (apply andb_prop in H as [H ?]).
  assert (Hk : (Z.to_nat k <= length n_vec)%nat)
    by (apply Nat.leb_le; assumption).
  assert (Lm : length m_vec = length n_vec) by (apply Nat.eqb_eq; assumption).
  assert (Lp : length p_vec = length n_vec) by (apply Nat.eqb_eq; assumption).
  repeat split; try lia; try assumption.
  intros i Hi.
  destruct (lookup_lt_is_Some_2 n_vec i) as [n Hn]; [lia|].
  destruct (lookup_lt_is_Some_2 m_vec i) as [m Hm]; [lia|].
  destruct (lookup_lt_is_Some_2 p_vec i) as [p Hp]; [lia|].
  exists n, m, p. repeat split; try assumption.
  match goal with
  | Hall : forallb admissible _ = true |- _ =>
      rewrite forallb_forall in Hall; apply Hall
  end.
  apply list_elem_of_In. apply list_elem_of_lookup. exists i.
  rewrite lookup_take_lt by exact Hi.
  apply configurations_lookup; assumption.
Qed.

Lemma pd_DataFrame_some keeps (d : list (string * column)) len :
  Forall (fun kc => column_length (snd kc) = len) d ->
  pd_DataFrame keeps d = Ok (if keeps then d else sort_columns d).
Proof.
  destruct d as [|[name c] r]; [destruct keeps; reflexivity|]. intros H.
  apply Forall_cons in H as [Hc Hr]. simpl in Hc. unfold pd_DataFrame.
  replace (forallb _ r) with true; [reflexivity|].
  symmetry. apply forallb_forall. intros kc Hin. apply Nat.eqb_eq.
  rewrite Forall_forall in Hr. rewrite Hc. apply Hr.
  apply list_elem_of_In. exact Hin.
Qed.

(** A well-formed call of [solve] returns a report or raises an exception
    that comes from outside the script. *)
Lemma solve_yields k n_vec m_vec p_vec repeat dns seed solver :
  well_formed k n_vec m_vec p_vec repeat dns seed = true ->
  yields (fun _ => True) outside_the_script
         (solve (Some k) n_vec m_vec p_vec repeat dns seed solver).
Proof.
  intros Hwf.
  apply well_formed_spec in Hwf as (Hseed & Hk & Lm & Lp & Hr & Hd & Hcfg).
  intros w. rewrite solve_run by exact Hseed.
  generalize (seeded seed solver w). clear w.
  change (yields (fun _ => True) outside_the_script
            (bind (local "n_prob" (Some k))
               (fun k0 =>
                  st <- sweep n_vec m_vec p_vec repeat dns solver k0 ;;
                  d <- df_dict n_vec m_vec p_vec solver st ;;
                  timings <- lift (pd_DataFrame keeps_dict_order d) ;; ret timings))).
  apply (yields_bind (fun a => a = k)); [apply yields_ret; reflexivity|].
  intros ? ->.
  apply (yields_bind (statistics_shape solver (length n_vec))).
  { unfold sweep. apply yields_for_each; [ | apply initial_statistics_shape].
    intros i st Hi Hst. apply in_seq in Hi.
    destruct (Hcfg i) as (n & m & p & Hn & Hm & Hp & Hadm); [lia|].
    eapply configuration_yields; eassumption. }
  intros st (La & Ln & Lx & Ho).
  apply (yields_bind
           (Forall (fun kc => column_length (snd kc) = length n_vec))).
  - unfold df_dict. destruct (String.eqb solver "miosqp") eqn:Hs.
    + destruct (Ho eq_refl) as (oa & ob & oc & Ea & Eb & Ec & Loa & Lob & Loc).
      rewrite Ea, Eb, Ec.
      apply (yields_bind (fun v => v = ob)); [apply yields_ret; reflexivity|].
      intros ? ->.
      apply (yields_bind (fun v => v = oc)); [apply yields_ret; reflexivity|].
      intros ? ->.
      apply (yields_bind (fun v => v = oa)); [apply yields_ret; reflexivity|].
      intros ? ->. apply yields_ret.
      repeat (apply Forall_cons; split; [simpl; lia | ]). constructor.
    + apply yields_ret.
      repeat (apply Forall_cons; split; [simpl; lia | ]). constructor.
  - intros d Hcols. rewrite (pd_DataFrame_some _ d _ Hcols).
    apply (yields_bind (fun _ => True)); [apply yields_lift; exact I|].
    intros df _. apply yields_ret. exact I.
Qed.

End Yields.

(** X1.  A call of [solve] whose arguments are well formed (a seed numpy
    accepts, [n_prob] within the three vectors, vectors of one length, at
    least one repetition, a density in [[0, 1]], and [0 < n], [0 <= p <= n],
    [0 <= m] in every configuration the loop visits) raises nothing of its
    own, whatever the tag: an exception that ends it was raised by a
    backend, or is the [BdbQuit] of a debugger session that was quit, or is
    the [ZeroDivisionError] of line 120 on a MIOSQP result whose run time
    is 0. *)
Theorem well_formed_sweep_fails_only_outside_the_script {E : Externals}
  k n_vec m_vec p_vec repeat dns seed solver (w : world) e w' :
  well_formed k n_vec m_vec p_vec repeat dns seed = true ->
  solve (Some k) n_vec m_vec p_vec repeat dns seed solver w = (Raise e, w') ->
  outside_the_script e.
Proof.
  intros Hwf H.
  pose proof (solve_yields k n_vec m_vec p_vec repeat dns seed solver Hwf w) as Y.
  rewrite H in Y. exact Y.
Qed.

Lemma well_formed_sweep_fails_only_outside_the_script_witness :
  let quit := troubled "infeasible" DbgQuit in
  let run := solve (E:=scripted quit) (Some 1) [4] [2] [1] 3 0.6%float 0
                   "gurobi" (scripted_world quit 0 0) in
  well_formed 1 [4] [2] [1] 3 0.6%float 0 = true /\
  run = (Raise BdbQuit, snd run) /\
  outside_the_script (E:=scripted quit) BdbQuit.
Proof.
  intros quit run.
  split; [reflexivity | split; [vm_compute; reflexivity | ]].
  apply (@well_formed_sweep_fails_only_outside_the_script (scripted quit)
           1 [4] [2] [1] 3 0.6%float 0 "gurobi" (scripted_world quit 0 0)
           BdbQuit (snd run)).
  - reflexivity.
  - vm_compute. reflexivity.
Defined.

Lemma cooperative_outside {E : Externals} (e : exn) :
  cooperative E -> ~ outside_the_script e.
Proof.
  intros (Hg & Hm & Hd)
    [(x & inst & Hx) | [(x & inst & Hx) | [(_ & x & Hx) |
     (_ & x & inst & res & Hx & Hz)]]].
  - destruct (Hg x inst) as (res & Hres). congruence.
  - destruct (Hm x inst) as (res & Hres & _). congruence.
  - rewrite Hd in Hx. discriminate.
  - destruct (Hm x inst) as (res' & Hres & Hnz). congruence.
Qed.

(** X2.  With well-formed arguments and libraries with which nothing goes
    wrong outside the script (the backends always return a result, MIOSQP
    never reports a run time of 0, every debugger session is resumed),
    [solve] returns a report, whatever the tag and the statuses of the
    results. *)
Theorem well_formed_sweep_returns_a_report {E : Externals}
  k n_vec m_vec p_vec repeat dns seed solver (w : world) :
  well_formed k n_vec m_vec p_vec repeat dns seed = true ->
  cooperative E ->
  exists df w',
    solve (Some k) n_vec m_vec p_vec repeat dns seed solver w = (Ok df, w').
Proof.
  intros Hwf Hco.
  pose proof (solve_yields k n_vec m_vec p_vec repeat dns seed solver Hwf w) as Y.
  destruct (solve (Some k) n_vec m_vec p_vec repeat dns seed solver w)
    as [[df|e] w'] eqn:Hrun.
  - exists df, w'. reflexivity.
  - exfalso. simpl in Y. exact (cooperative_outside e Hco Y).
Qed.

Lemma well_formed_sweep_returns_a_report_witness :
  well_formed 2 [4; 6] [2; 3] [1; 2] 2 0.6%float 0 = true /\
  cooperative (scripted calm) /\
  exists df w',
    solve (E:=scripted calm) (Some 2) [4; 6] [2; 3] [1; 2] 2 0.6%float 0
          "miosqp" (scripted_world calm 5 0) = (Ok df, w').
Proof.
  split; [reflexivity | split; [exact calm_is_cooperative | ]].
  apply (@well_formed_sweep_returns_a_report (scripted calm)
           2 [4; 6] [2; 3] [1; 2] 2 0.6%float 0 "miosqp"
           (scripted_world calm 5 0)).
  - reflexivity.
  - exact calm_is_cooperative.
Defined.

(** * Runs side by side *)

Section Lockstep.

Context {E : Externals}.
Variables g1 g2 : list instance.

Lemma lockstep_ret {A} (a : A) : lockstep g1 g2 (ret a).
Proof. intros w1 w2 H. split; [reflexivity | exact H]. Qed.

Lemma lockstep_raise {A} (e : exn) : lockstep g1 g2 (@raise _ A e).
Proof. intros w1 w2 H. split; [reflexivity | exact H]. Qed.

Lemma lockstep_lift {A} (o : outcome A) : lockstep g1 g2 (lift o).
Proof. intros w1 w2 H. split; [reflexivity | exact H]. Qed.

Lemma lockstep_emit ev : lockstep g1 g2 (emit ev).
Proof.
  intros w1 w2 (Hr & gs & H1 & H2). split; [reflexivity|].
  split; [exact Hr|]. simpl.
  exists (gs ++ generated_instances [ev]).
  unfold generated_instances in *. rewrite !flat_map_app, H1, H2, !app_assoc.
  split; reflexivity.
Qed.

Lemma lockstep_draw {A} (f : rng -> A * rng) : lockstep g1 g2 (draw f).
Proof.
  intros w1 w2 (Hr & gs & H1 & H2). unfold draw. simpl. rewrite Hr.
  split; [reflexivity|]. split; [reflexivity|]. exists gs. split; assumption.
Qed.

Lemma lockstep_bind {A B} (c : M A) (k : A -> M B) :
  lockstep g1 g2 c -> (forall a, lockstep g1 g2 (k a)) ->
  lockstep g1 g2 (bind c k).
Proof.
  intros Hc Hk w1 w2 H. rewrite !bind_run.
  destruct (Hc w1 w2 H) as [Ho Hw].
  destruct (c w1) as [[a1|e1] u1], (c w2) as [[a2|e2] u2]; simpl in *;
    try discriminate.
  - injection Ho as ->. apply Hk. exact Hw.
  - injection Ho as ->. split; [reflexivity | exact Hw].
Qed.

Lemma lockstep_generate n m p dns : lockstep g1 g2 (generate n m p dns).
Proof.
  unfold generate, np_random_choice, spa_random, sp_randn, sp_rand.
  repeat first
    [ apply lockstep_ret | apply lockstep_raise | apply lockstep_lift
    | apply lockstep_emit | apply lockstep_draw
    | apply lockstep_bind; [ | intros]
    | match goal with
      | |- lockstep _ _ (if ?b then _ else _) => destruct b
      | |- lockstep _ _ (match ?x with _ => _ end) => destruct x
      end ].
Qed.

Lemma synced_quiet w1 w2 w1' w2' :
  synced g1 g2 w1 w2 -> quiet w1 w1' -> quiet w2 w2' -> synced g1 g2 w1' w2'.
Proof.
  intros (Hr & gs & H1 & H2) [R1 G1] [R2 G2]. split; [congruence|].
  exists gs. rewrite G1, G2. split; assumption.
Qed.

End Lockstep.

Section Quiet.

Context {E : Externals}.

Lemma quiet_refl w : quiet w w.
Proof. split; reflexivity. Qed.

Lemma quiet_trans w1 w2 w3 : quiet w1 w2 -> quiet w2 w3 -> quiet w1 w3.
Proof. intros [A1 B1] [A2 B2]. split; congruence. Qed.

Lemma quiet_emit ev :
  match ev with EvGenerated _ => False | _ => True end ->
  keeps quiet (emit ev).
Proof.
  intros Hev w. split; [reflexivity|]. simpl. unfold generated_instances.
  rewrite flat_map_app. simpl.
  destruct ev; try contradiction; simpl; apply app_nil_r.
Qed.

Lemma quiet_extern {A} (f : ext -> A * ext) : keeps quiet (extern f).
Proof. intros w. split; reflexivity. Qed.

Lemma quiet_ipdb : keeps quiet ipdb_set_trace.
Proof.
  pose proof quiet_refl as R. pose proof quiet_trans as T.
  unfold ipdb_set_trace.
  repeat first [ apply quiet_emit; exact I | apply quiet_extern | keeps_step ].
Qed.

Lemma quiet_solve_gurobi inst j s : keeps quiet (solve_gurobi inst j s).
Proof.
  pose proof quiet_refl as R. pose proof quiet_trans as T.
  unfold solve_gurobi.
  repeat first
    [ apply quiet_emit; exact I | apply quiet_extern | apply quiet_ipdb
    | keeps_step ].
Qed.

Lemma quiet_solve_miosqp inst j s : keeps quiet (solve_miosqp inst j s).
Proof.
  pose proof quiet_refl as R. pose proof quiet_trans as T.
  unfold solve_miosqp.
  repeat first
    [ apply quiet_emit; exact I | apply quiet_extern | apply quiet_ipdb
    | keeps_step ].
Qed.

Lemma keeps_run {A} (R : world -> world -> Prop) (c : M A) w o w' :
  keeps R c -> c w = (o, w') -> R w w'.
Proof. intros K H. specialize (K w). rewrite H in K. exact K. Qed.

(** The part of a repetition after the generation of its instance. *)
Lemma quiet_backend solver inst j s :
  keeps quiet (if String.eqb solver "gurobi" then solve_gurobi inst j s
               else if String.eqb solver "miosqp" then solve_miosqp inst j s
               else ret s).
Proof.
  destruct (String.eqb solver "gurobi"); [apply quiet_solve_gurobi|].
  destruct (String.eqb solver "miosqp"); [apply quiet_solve_miosqp|].
  apply keeps_ret. apply quiet_refl.
Qed.

Lemma for_each_pair {A S1 S2} (R : world -> world -> Prop)
  (body1 : A -> S1 -> M S1) (body2 : A -> S2 -> M S2) (xs : list A) :
  (forall x s1 s2 w1 w2 s1' s2' w1' w2',
      R w1 w2 -> body1 x s1 w1 = (Ok s1', w1') ->
      body2 x s2 w2 = (Ok s2', w2') -> R w1' w2') ->
  forall s1 s2 w1 w2 s1' s2' w1' w2',
    R w1 w2 -> for_each xs body1 s1 w1 = (Ok s1', w1') ->
    for_each xs body2 s2 w2 = (Ok s2', w2') -> R w1' w2'.
Proof.
  intros Hb. induction xs as [|x xs IH];
    intros s1 s2 w1 w2 s1' s2' w1' w2' HR H1 H2; simpl in H1, H2.
  - apply ret_ok in H1 as [_ ->]. apply ret_ok in H2 as [_ ->]. exact HR.
  - apply bind_ok in H1 as (t1 & u1 & B1 & H1).
    apply bind_ok in H2 as (t2 & u2 & B2 & H2).
    eapply IH; [ | exact H1 | exact H2].
    eapply Hb; eassumption.
Qed.

Lemma repetition_pair g1 g2 solver1 solver2 n m p dns j s1 s2 w1 w2
  s1' s2' w1' w2' :
  synced g1 g2 w1 w2 ->
  repetition solver1 n m p dns j s1 w1 = (Ok s1', w1') ->
  repetition solver2 n m p dns j s2 w2 = (Ok s2', w2') ->
  synced g1 g2 w1' w2'.
Proof.
  intros HS H1 H2. unfold repetition in H1, H2.
  apply bind_ok in H1 as (i1 & u1 & G1 & H1).
  apply bind_ok in H2 as (i2 & u2 & G2 & H2).
  destruct (lockstep_generate g1 g2 n m p dns w1 w2 HS) as [_ HS'].
  rewrite G1, G2 in HS'. simpl in HS'.
  eapply synced_quiet; [exact HS' | | ].
  - eapply keeps_run; [apply quiet_backend | exact H1].
  - eapply keeps_run; [apply quiet_backend | exact H2].
Qed.

Lemma synced_announced g1 g2 n m p w1 w2 :
  synced g1 g2 w1 w2 -> synced g1 g2 (announced n m p w1) (announced n m p w2).
Proof.
  intros HS.
  apply (lockstep_emit g1 g2 (EvPrint "problem n = %i, m = %i, p = %i" [n; m; p])
           w1 w2 HS).
Qed.

Lemma configuration_pair g1 g2 solver1 solver2 n_vec m_vec p_vec repeat dns
  i st1 st2 w1 w2 st1' st2' w1' w2' :
  synced g1 g2 w1 w2 ->
  configuration n_vec m_vec p_vec repeat dns solver1 i st1 w1 = (Ok st1', w1') ->
  configuration n_vec m_vec p_vec repeat dns solver2 i st2 w2 = (Ok st2', w2') ->
  synced g1 g2 w1' w2'.
Proof.
  intros HS H1 H2.
  apply configuration_ok in H1
    as (n & m & p & t1 & ? & ? & Hn & Hm & Hp & _ & L1 & _).
  apply configuration_ok in H2
    as (n' & m' & p' & t2 & ? & ? & Hn' & Hm' & Hp' & _ & L2 & _).
  assert (n' = n) as -> by congruence.
  assert (m' = m) as -> by congruence.
  assert (p' = p) as -> by congruence.
  eapply (for_each_pair (synced g1 g2)); [ | | exact L1 | exact L2].
  - intros. eapply repetition_pair; eassumption.
  - apply synced_announced. exact HS.
Qed.

Lemma generated_seeded seed solver w :
  generated_instances (w_trace (seeded seed solver w))
  = generated_instances (w_trace w).
Proof.
  unfold seeded, generated_instances. simpl. rewrite flat_map_app. simpl.
  apply app_nil_r.
Qed.

End Quiet.

(** X3.  Two completed calls of [solve] with the same vectors, the same
    [repeat], density and seed generate the same instances in the same
    order, whatever the two tags, the backends and the worlds the calls
    start in, and leave numpy's generator in the same state: line 48 reseeds
    the generator and only the draws of lines 68-76 advance it (the backends
    have no access to it).  A call whose tag names a backend calls this
    backend on each of these instances, once and in their order, and on
    nothing else, so that a comparison of two backends is made on the same
    problems. *)
Theorem backends_are_given_the_same_instances {E : Externals}
  n_prob n_vec m_vec p_vec repeat dns seed solver1 solver2
  (w1 w2 : world) df1 df2 w1' w2' :
  solve n_prob n_vec m_vec p_vec repeat dns seed solver1 w1 = (Ok df1, w1') ->
  solve n_prob n_vec m_vec p_vec repeat dns seed solver2 w2 = (Ok df2, w2') ->
  w_rng w1' = w_rng w2' /\
  exists gs,
    generated_instances (w_trace w1') = generated_instances (w_trace w1) ++ gs /\
    generated_instances (w_trace w2') = generated_instances (w_trace w2) ++ gs /\
    (solver1 = "gurobi" \/ solver1 = "miosqp" ->
     calls (w_trace w1') = calls (w_trace w1) ++ map (pair solver1) gs) /\
    (solver2 = "gurobi" \/ solver2 = "miosqp" ->
     calls (w_trace w2') = calls (w_trace w2) ++ map (pair solver2) gs).
Proof.
  intros H1 H2.
  pose proof (fun Hs => solve_calls _ _ _ _ _ _ _ _ _ _ _ Hs H1) as C1.
  pose proof (fun Hs => solve_calls _ _ _ _ _ _ _ _ _ _ _ Hs H2) as C2.
  apply solve_ok in H1 as (k & st1 & Hk & _ & S1 & _).
  apply solve_ok in H2 as (k' & st2 & Hk' & _ & S2 & _).
  assert (k' = k) as -> by congruence.
  unfold sweep in S1, S2.
  assert (HS : synced (generated_instances (w_trace w1))
                      (generated_instances (w_trace w2)) w1' w2').
  { eapply (for_each_pair
              (synced (generated_instances (w_trace w1))
                      (generated_instances (w_trace w2))));
      [ | | exact S1 | exact S2].
    - intros. eapply configuration_pair; eassumption.
    - split; [reflexivity|]. exists [].
      rewrite !generated_seeded, !app_nil_r. split; reflexivity. }
  destruct HS as (Hrng & gs & G1 & G2).
  split; [exact Hrng|]. exists gs.
  split; [exact G1 | split; [exact G2 | split]].
  - intros Hs. destruct (C1 Hs) as (gs' & G' & Hc).
    rewrite G1 in G'. apply app_inv_head in G'. subst gs'. exact Hc.
  - intros Hs. destruct (C2 Hs) as (gs' & G' & Hc).
    rewrite G2 in G'. apply app_inv_head in G'. subst gs'. exact Hc.
Qed.

Lemma backends_are_given_the_same_instances_witness :
  let w1 := scripted_world calm 0 0 in
  let w2 := scripted_world calm 9 4 in
  let run1 := solve (E:=scripted calm) (Some 1) [4] [2] [1] 2 0.6%float 0
                    "gurobi" w1 in
  let run2 := solve (E:=scripted calm) (Some 1) [4] [2] [1] 2 0.6%float 0
                    "miosqp" w2 in
  (exists df1, run1 = (Ok df1, snd run1)) /\
  (exists df2, run2 = (Ok df2, snd run2)) /\
  w_rng (snd run1) = w_rng (snd run2) /\
  exists gs,
    generated_instances (w_trace (snd run1))
    = generated_instances (w_trace w1) ++ gs /\
    generated_instances (w_trace (snd run2))
    = generated_instances (w_trace w2) ++ gs /\
    ("gurobi" = "gurobi" \/ "gurobi" = "miosqp" ->
     calls (w_trace (snd run1))
     = calls (w_trace w1) ++ map (pair "gurobi") gs) /\
    ("miosqp" = "gurobi" \/ "miosqp" = "miosqp" ->
     calls (w_trace (snd run2))
     = calls (w_trace w2) ++ map (pair "miosqp") gs).
Proof.
  intros w1 w2 run1 run2.
  assert (H1 : exists df1, run1 = (Ok df1, snd run1))
    by (eexists; vm_compute; reflexivity).
  assert (H2 : exists df2, run2 = (Ok df2, snd run2))
    by (eexists; vm_compute; reflexivity).
  split; [exact H1 | split; [exact H2 | ]].
  destruct H1 as (df1 & H1). destruct H2 as (df2 & H2).
  exact (@backends_are_given_the_same_instances (scripted calm)
           (Some 1) [4] [2] [1] 2 0.6%float 0 "gurobi" "miosqp" w1 w2
           df1 df2 (snd run1) (snd run2) H1 H2).
Defined.

(** * Counting the work of a sweep *)

Section Counting.

Context {E : Externals}.
Variable solver : string.

Lemma grown_zero w : grown solver 0 w w.
Proof. split; [lia | simpl; rewrite app_nil_r; reflexivity]. Qed.

Lemma grown_add a b w1 w2 w3 :
  grown solver a w1 w2 -> grown solver b w2 w3 -> grown solver (a + b) w1 w3.
Proof.
  intros [A1 B1] [A2 B2]. split; [lia|].
  rewrite B2, B1, replicate_add, app_assoc. reflexivity.
Qed.

Lemma for_each_grown {A S} (c : nat) (body : A -> S -> M S) (xs : list A) :
  (forall x s w s' w', body x s w = (Ok s', w') -> grown solver c w w') ->
  forall s w s' w',
    for_each xs body s w = (Ok s', w') -> grown solver (length xs * c) w w'.
Proof.
  intros Hb. induction xs as [|x xs IH]; intros s w s' w' H; simpl in H.
  - apply ret_ok in H as [_ ->]. apply grown_zero.
  - apply bind_ok in H as (t & u & B & H). simpl.
    eapply grown_add; [eapply Hb; exact B | eapply IH; exact H].
Qed.

Lemma calls_emit ev (w : world) :
  solver_calls (w_trace (snd (emit ev w)))
  = solver_calls (w_trace w) ++ solver_calls [ev].
Proof. simpl. unfold solver_calls. apply flat_map_app. Qed.

Lemma no_call_ipdb : keeps no_call ipdb_set_trace.
Proof.
  pose proof no_call_refl as R. pose proof no_call_trans as T.
  unfold ipdb_set_trace.
  repeat first
    [ apply no_call_emit; exact I | apply same_on_extern | keeps_step ].
Qed.

Lemma solve_gurobi_calls inst j s w s' w' :
  solve_gurobi inst j s w = (Ok s', w') ->
  solver_calls (w_trace w') = solver_calls (w_trace w) ++ ["gurobi"].
Proof.
  unfold solve_gurobi. intros H.
  apply bind_ok in H as ([] & u & Hu & H).
  pose proof (calls_emit (EvSolverCall "gurobi" inst) w) as Hc.
  rewrite Hu in Hc. simpl in Hc. rewrite <- Hc.
  eapply (keeps_run no_call); [ | exact H].
  pose proof no_call_refl as R. pose proof no_call_trans as T.
  repeat first
    [ apply same_on_extern | apply no_call_ipdb | apply no_call_emit; exact I
    | keeps_step ].
Qed.

Lemma solve_miosqp_calls inst j s w s' w' :
  solve_miosqp inst j s w = (Ok s', w') ->
  solver_calls (w_trace w') = solver_calls (w_trace w) ++ ["miosqp"].
Proof.
  unfold solve_miosqp. intros H.
  apply bind_ok in H as ([] & u & Hu & H).
  pose proof (calls_emit (EvSolverCall "miosqp" inst) w) as Hc.
  rewrite Hu in Hc. simpl in Hc. rewrite <- Hc.
  eapply (keeps_run no_call); [ | exact H].
  pose proof no_call_refl as R. pose proof no_call_trans as T.
  repeat first
    [ apply same_on_extern | apply no_call_ipdb | apply no_call_emit; exact I
    | keeps_step ].
Qed.

Hypothesis known : solver = "gurobi" \/ solver = "miosqp".

Lemma repetition_grown n m p dns j s w s' w' :
  repetition solver n m p dns j s w = (Ok s', w') -> grown solver 1 w w'.
Proof.
  unfold repetition. intros H.
  apply bind_ok in H as (inst & u & G & H).
  pose proof (keeps_run _ _ _ _ _ (no_call_generate n m p dns) G) as Cu.
  apply generate_ok in G as (_ & _ & _ & _ & _ & _ & _ & _ & _ & _ & _ & Gu).
  pose proof (keeps_run _ _ _ _ _ (quiet_backend solver inst j s) H) as [_ Gw].
  split.
  - rewrite Gw, Gu, length_app. reflexivity.
  - unfold no_call, same_on in Cu. rewrite <- Cu.
    destruct known as [->| ->]; simpl in H.
    + apply solve_gurobi_calls in H. exact H.
    + apply solve_miosqp_calls in H. exact H.
Qed.

Lemma configuration_grown n_vec m_vec p_vec repeat dns i st w st' w' :
  configuration n_vec m_vec p_vec repeat dns solver i st w = (Ok st', w') ->
  grown solver (Z.to_nat repeat) w w'.
Proof.
  intros H.
  apply configuration_ok in H as (n & m & p & t & ? & ? & _ & _ & _ & _ & L & _).
  apply (for_each_grown 1 _ _ (repetition_grown n m p dns)) in L.
  rewrite length_seq, Nat.mul_1_r in L.
  destruct L as [A B]. unfold announced in A, B. simpl in A, B.
  unfold generated_instances in A. unfold solver_calls in B.
  rewrite flat_map_app in A, B. simpl in A, B. rewrite app_nil_r in A, B.
  split; assumption.
Qed.

End Counting.

(** X4.  A call of [solve] with the tag ['gurobi'] or ['miosqp'] that
    returns has generated exactly [n_prob * repeat] instances and has called
    the backend of its tag exactly [n_prob * repeat] times, and no other
    backend: every repetition generates one instance and solves it once. *)
Theorem completed_sweep_solves_every_repetition {E : Externals}
  k n_vec m_vec p_vec repeat dns seed solver (w : world) df w' :
  solver = "gurobi" \/ solver = "miosqp" ->
  solve (Some k) n_vec m_vec p_vec repeat dns seed solver w = (Ok df, w') ->
  length (generated_instances (w_trace w'))
  = (length (generated_instances (w_trace w))
     + Z.to_nat k * Z.to_nat repeat)%nat /\
  solver_calls (w_trace w')
  = solver_calls (w_trace w)
    ++ replicate (Z.to_nat k * Z.to_nat repeat) solver.
Proof.
  intros Hs H.
  apply solve_ok in H as (k' & st & Hk & _ & Hsw & _).
  injection Hk as <-. unfold sweep in Hsw.
  apply (for_each_grown solver (Z.to_nat repeat) _ _
           (fun i st w st' w' =>
              configuration_grown solver Hs n_vec m_vec p_vec repeat dns
                                  i st w st' w')) in Hsw.
  rewrite length_seq in Hsw. destruct Hsw as [A B].
  rewrite generated_seeded in A. split; [exact A|].
  rewrite B. unfold seeded, solver_calls. simpl. rewrite flat_map_app. simpl.
  rewrite app_nil_r. reflexivity.
Qed.

Lemma completed_sweep_solves_every_repetition_witness :
  let w := scripted_world calm 0 0 in
  let run := solve (E:=scripted calm) (Some 2) [4; 6] [2; 3] [1; 2] 3
                   0.6%float 0 "miosqp" w in
  ("miosqp" = "gurobi" \/ "miosqp" = "miosqp") /\
  (exists df, run = (Ok df, snd run)) /\
  length (generated_instances (w_trace (snd run)))
  = (length (generated_instances (w_trace w)) + Z.to_nat 2 * Z.to_nat 3)%nat /\
  solver_calls (w_trace (snd run))
  = solver_calls (w_trace w) ++ replicate (Z.to_nat 2 * Z.to_nat 3) "miosqp".
Proof.
  intros w run.
  assert (H : exists df, run = (Ok df, snd run))
    by (eexists; vm_compute; reflexivity).
  split; [right; reflexivity | split; [exact H | ]].
  destruct H as (df & H).
  exact (@completed_sweep_solves_every_repetition (scripted calm)
           2 [4; 6] [2; 3] [1; 2] 3 0.6%float 0 "miosqp" w df (snd run)
           (or_intror eq_refl) H).
Defined.

(** * The debugger *)

Section Debugger.

Context {E : Externals}.
Hypothesis optimal : always_optimal E.

Lemma breakpoints_app tr ev :
  match ev with EvBreakpoint => False | _ => True end ->
  breakpoints (tr ++ [ev]) = breakpoints tr.
Proof.
  intros Hev. unfold breakpoints. rewrite flat_map_app, length_app.
  destruct ev; try contradiction; simpl; lia.
Qed.

Lemma undisturbed_refl w : undisturbed w w.
Proof. reflexivity. Qed.

Lemma undisturbed_trans w1 w2 w3 :
  undisturbed w1 w2 -> undisturbed w2 w3 -> undisturbed w1 w3.
Proof. unfold undisturbed. congruence. Qed.

Lemma undisturbed_emit ev :
  match ev with EvBreakpoint => False | _ => True end ->
  keeps undisturbed (emit ev).
Proof. intros Hev w. apply breakpoints_app. exact Hev. Qed.

Lemma undisturbed_draw {A} (f : rng -> A * rng) : keeps undisturbed (draw f).
Proof. intros w. reflexivity. Qed.

Lemma undisturbed_solve_gurobi inst j s :
  keeps undisturbed (solve_gurobi inst j s).
Proof.
  destruct optimal as [Hg _]. intros w. unfold solve_gurobi, undisturbed.
  rewrite bind_run. cbn [emit]. rewrite bind_run.
  unfold extern. cbn [w_ext w_rng w_trace].
  pose proof (Hg (w_ext w) inst) as Hopt.
  destruct (gurobi_solve (w_ext w) inst) as [[res|e] x]; cbn [fst snd] in *.
  - rewrite bind_run. cbn [lift]. rewrite bind_run.
    cbn [emit w_ext w_rng w_trace]. rewrite bind_run.
    rewrite (Hopt res eq_refl), String.eqb_refl. cbn [negb ret].
    rewrite bind_run.
    destruct (set_item _ _ _); cbn [lift ret fst snd w_trace];
      rewrite !breakpoints_app by exact I; reflexivity.
  - rewrite bind_run. cbn [lift snd w_trace]. apply breakpoints_app. exact I.
Qed.

Lemma undisturbed_solve_miosqp inst j s :
  keeps undisturbed (solve_miosqp inst j s).
Proof.
  destruct optimal as [_ Hm]. intros w. unfold solve_miosqp, undisturbed.
  rewrite bind_run. cbn [emit]. rewrite bind_run.
  unfold extern. cbn [w_ext w_rng w_trace].
  pose proof (Hm (w_ext w) inst) as Hopt.
  destruct (miosqp_solve (w_ext w) inst miosqp_settings osqp_settings)
    as [[res|e] x]; cbn [fst snd] in *.
  - rewrite bind_run. cbn [lift]. rewrite bind_run.
    cbn [emit w_ext w_rng w_trace]. rewrite bind_run.
    rewrite (Hopt res eq_refl), Z.eqb_refl. cbn [negb ret].
    match goal with
    | |- breakpoints (w_trace (snd (?c ?u))) = _ =>
        assert (K : keeps undisturbed c); [ | rewrite (K u) ]
    end.
    + pose proof undisturbed_refl as R. pose proof undisturbed_trans as T.
      repeat keeps_step.
    + cbn [w_trace]. rewrite !breakpoints_app by exact I. reflexivity.
  - rewrite bind_run. cbn [lift snd w_trace]. apply breakpoints_app. exact I.
Qed.

Lemma undisturbed_solve n_prob n_vec m_vec p_vec repeat dns seed solver :
  keeps undisturbed (solve n_prob n_vec m_vec p_vec repeat dns seed solver).
Proof.
  pose proof undisturbed_refl as R. pose proof undisturbed_trans as T.
  unfold solve, df_dict, np_random_seed, configuration, repetition, generate,
    np_random_choice, spa_random, sp_randn, sp_rand.
  repeat first
    [ apply undisturbed_emit; exact I
    | apply undisturbed_draw
    | apply undisturbed_solve_gurobi
    | apply undisturbed_solve_miosqp
    | intros ?; reflexivity
    | keeps_step ].
Qed.

End Debugger.

(** X9.  The debugger is entered only after a result whose status is not
    the optimal one: with backends whose every result is ['optimal'] (for
    Gurobi) or [MI_SOLVED] (for MIOSQP), no call of [solve] reaches
    [ipdb.set_trace()], whether it returns or raises. *)
Theorem optimal_results_never_enter_the_debugger {E : Externals}
  n_prob n_vec m_vec p_vec repeat dns seed solver (w : world) :
  always_optimal E ->
  breakpoints
    (w_trace (snd (solve n_prob n_vec m_vec p_vec repeat dns seed solver w)))
  = breakpoints (w_trace w).
Proof.
  intros Hopt.
  apply (undisturbed_solve Hopt n_prob n_vec m_vec p_vec repeat dns seed solver w).
Qed.

Lemma optimal_results_never_enter_the_debugger_witness :
  let w := scripted_world calm 0 0 in
  always_optimal (scripted calm) /\
  breakpoints
    (w_trace (snd (solve (E:=scripted calm) (Some 2) [4; 6] [2; 3] [1; 2] 2
                         0.6%float 0 "gurobi" w)))
  = breakpoints (w_trace w).
Proof.
  intros w. split; [exact calm_is_always_optimal | ].
  apply (@optimal_results_never_enter_the_debugger (scripted calm)
           (Some 2) [4; 6] [2; 3] [1; 2] 2 0.6%float 0 "gurobi" w).
  exact calm_is_always_optimal.
Defined.

(** * The report *)

Section Report.

Context {E : Externals}.

Lemma df_dict_columns n_vec m_vec p_vec solver st w d w' :
  df_dict n_vec m_vec p_vec solver st w = (Ok d, w') ->
  map fst d = report_columns solver /\ df_nrows d = length n_vec.
Proof.
  unfold df_dict, report_columns.
  destruct (String.eqb solver "miosqp"); intros H.
  - apply bind_ok in H as (a & w1 & H1 & H). apply local_ok in H1 as [_ ->].
    apply bind_ok in H as (b & w1 & H1 & H). apply local_ok in H1 as [_ ->].
    apply bind_ok in H as (c & w1 & H1 & H). apply local_ok in H1 as [_ ->].
    apply ret_ok in H as [-> ->]. split; reflexivity.
  - apply ret_ok in H as [-> ->]. split; reflexivity.
Qed.

Lemma df_dict_sorted n_vec m_vec p_vec solver st w d w' :
  df_dict n_vec m_vec p_vec solver st w = (Ok d, w') ->
  map fst (sort_columns d) = sorted_report_columns solver.
Proof.
  unfold df_dict, sorted_report_columns.
  destruct (String.eqb solver "miosqp"); intros H.
  - apply bind_ok in H as (a & w1 & H1 & H). apply local_ok in H1 as [_ ->].
    apply bind_ok in H as (b & w1 & H1 & H). apply local_ok in H1 as [_ ->].
    apply bind_ok in H as (c & w1 & H1 & H). apply local_ok in H1 as [_ ->].
    apply ret_ok in H as [-> ->]. vm_compute. reflexivity.
  - apply ret_ok in H as [-> ->]. vm_compute. reflexivity.
Qed.

(** The arrays of OSQP percentages are bound whenever the tag is
    ['miosqp']. *)
Lemma configuration_osqp_ok n_vec m_vec p_vec repeat dns solver i st w st' w' :
  String.eqb solver "miosqp" = true ->
  configuration n_vec m_vec p_vec repeat dns solver i st w = (Ok st', w') ->
  exists n m p s o oa ob oc mx mn,
    n_vec !! i = Some n /\ m_vec !! i = Some m /\ p_vec !! i = Some p /\
    for_each (seq 0 (Z.to_nat repeat)) (repetition solver n m p dns)
             (fresh_samples repeat solver) (announced n m p w) = (Ok s, w') /\
    osqp_solve_time_temp s = Some o /\
    avg_osqp_solve_time st = Some oa /\ min_osqp_solve_time st = Some ob /\
    max_osqp_solve_time st = Some oc /\
    np_max o = Ok mx /\ np_min o = Ok mn /\
    avg_osqp_solve_time st' = Some (<[i:=np_mean o]> oa) /\
    min_osqp_solve_time st' = Some (<[i:=mn]> ob) /\
    max_osqp_solve_time st' = Some (<[i:=mx]> oc) /\
    (i < length oa)%nat /\ (i < length ob)%nat /\ (i < length oc)%nat.
Proof.
  intros Hs H.
  pose proof (configuration_ok _ _ _ _ _ _ _ _ _ _ _ H)
    as (n & m & p & s & ? & ? & Hn & Hm & Hp & _ & Hloop & _).
  unfold configuration in H. rewrite Hs in H.
  unfold get_item in H. rewrite Hn, Hm, Hp in H.
  apply bind_ok in H as (? & w1 & E1 & H). apply lift_ok in E1 as [E1 ->].
  injection E1 as <-.
  apply bind_ok in H as (? & w1 & E1 & H). apply lift_ok in E1 as [E1 ->].
  injection E1 as <-.
  apply bind_ok in H as (? & w1 & E1 & H). apply lift_ok in E1 as [E1 ->].
  injection E1 as <-.
  apply bind_ok in H as ([] & w1 & Hw & H).
  unfold emit in Hw. injection Hw as <-.
  apply bind_ok in H as (t0 & w2 & Ht & H). apply lift_ok in Ht as [Ht ->].
  apply np_zeros_ok in Ht as [Hr ->].
  apply bind_ok in H as (o0 & w2 & Ho & H).
  apply bind_ok in Ho as (z & w3 & Hz & Ho).
  apply lift_ok in Hz as [Hz ->]. apply np_zeros_ok in Hz as [_ ->].
  apply ret_ok in Ho as [-> ->].
  replace (Samples (replicate (Z.to_nat repeat) 0%float)
                   (Some (replicate (Z.to_nat repeat) 0%float)))
    with (fresh_samples repeat solver) in H
    by (unfold fresh_samples; rewrite Hs; reflexivity).
  fold (announced n m p w) in H.
  apply bind_ok in H as (s' & w3 & Hs' & H).
  assert (s' = s /\ w3 = w') as [-> ->].
  { rewrite Hloop in Hs'. injection Hs' as <- <-. split; reflexivity. }
  apply bind_ok in H as (a & w4 & _ & H).
  apply bind_ok in H as ([[avg' mx'] mn'] & w5 & _ & H).
  apply bind_ok in H as (o & w6 & Eo & H). apply local_ok in Eo as [Eo _].
  apply bind_ok in H as (oa & w7 & Ea & H). apply local_ok in Ea as [Ea _].
  apply bind_ok in H as (oc & w8 & Ec & H). apply local_ok in Ec as [Ec _].
  apply bind_ok in H as (ob & w9 & Eb & H). apply local_ok in Eb as [Eb _].
  apply bind_ok in H as ([[bavg bmx] bmn] & w10 & Hb & H).
  apply lift_ok in Hb as [Hb _]. apply aggregate_ok in Hb as (-> & Hmx & Hmn).
  apply bind_ok in H as ([[oa' oc'] ob'] & w11 & Hst & H).
  apply lift_ok in Hst as [Hst _].
  apply store3_ok in Hst as (-> & -> & -> & L1 & L2 & L3). simpl in *.
  apply ret_ok in H as [-> _]. simpl.
  exists n, m, p, s, o, oa, ob, oc, bmx, bmn.
  repeat split; try assumption; reflexivity.
Qed.

Lemma configuration_other_ok n_vec m_vec p_vec repeat dns solver i st w st' w' :
  String.eqb solver "miosqp" = false ->
  configuration n_vec m_vec p_vec repeat dns solver i st w = (Ok st', w') ->
  avg_osqp_solve_time st' = avg_osqp_solve_time st /\
  min_osqp_solve_time st' = min_osqp_solve_time st /\
  max_osqp_solve_time st' = max_osqp_solve_time st.
Proof.
  intros Hs H. unfold configuration in H. rewrite Hs in H.
  apply bind_ok in H as (? & ? & _ & H). apply bind_ok in H as (? & ? & _ & H).
  apply bind_ok in H as (? & ? & _ & H). apply bind_ok in H as (? & ? & _ & H).
  apply bind_ok in H as (? & ? & _ & H). apply bind_ok in H as (? & ? & _ & H).
  apply bind_ok in H as (? & ? & _ & H). apply bind_ok in H as (? & ? & _ & H).
  apply bind_ok in H as ([[? ?] ?] & ? & _ & H).
  apply ret_ok in H as [-> _]. repeat split.
Qed.

(** After any number of configurations the statistics arrays have the
    length of [n_vec], and the OSQP ones are bound under the tag
    ['miosqp']. *)
Lemma sweep_shape n_vec m_vec p_vec repeat dns solver xs st w st' w' :
  statistics_shape solver (length n_vec) st ->
  for_each xs (configuration n_vec m_vec p_vec repeat dns solver) st w
    = (Ok st', w') ->
  statistics_shape solver (length n_vec) st'.
Proof.
  intros Hst H.
  eapply (for_each_invariant (statistics_shape solver (length n_vec)));
    [ | exact Hst | exact H].
  clear. intros i st w st' w' _ (La & Ln & Lx & Ho) H.
  pose proof (configuration_ok _ _ _ _ _ _ _ _ _ _ _ H)
    as (n & m & p & s & mx & mn & _ & _ & _ & _ & _ & _ & _ & Ea & Ex & En & _).
  repeat split.
  - rewrite Ea, length_insert. exact La.
  - rewrite En, length_insert. exact Ln.
  - rewrite Ex, length_insert. exact Lx.
  - intros Hs. destruct (Ho Hs) as (a & b & c & Ha & Hb & Hc & L1 & L2 & L3).
    apply (configuration_osqp_ok _ _ _ _ _ _ _ _ _ _ _ Hs) in H
      as (n' & m' & p' & s' & o & oa & ob & oc & mx' & mn' & _ & _ & _ & _ & _
          & Eoa & Eob & Eoc & _ & _ & -> & -> & -> & _).
    assert (oa = a) as -> by congruence.
    assert (ob = b) as -> by congruence.
    assert (oc = c) as -> by congruence.
    do 3 eexists. repeat split; rewrite length_insert; assumption.
Qed.

(** The columns of a report. *)
Lemma solve_columns n_prob n_vec m_vec p_vec repeat dns seed solver w df w' :
  solve n_prob n_vec m_vec p_vec repeat dns seed solver w = (Ok df, w') ->
  Permutation (map fst df) (report_columns solver) /\
  map fst df = (if keeps_dict_order then report_columns solver
                else sorted_report_columns solver) /\
  Forall (fun kc => column_length (snd kc) = length n_vec) df.
Proof.
  intros H.
  pose proof (solve_ok _ _ _ _ _ _ _ _ _ _ _ H) as (k & st & -> & Hseed & _).
  rewrite solve_run in H by exact Hseed.
  apply bind_ok in H as (k' & w1 & _ & H).
  apply bind_ok in H as (st' & w2 & _ & H).
  apply bind_ok in H as (d & w3 & Hd & H).
  pose proof (df_dict_sorted _ _ _ _ _ _ _ _ Hd) as Hsorted.
  apply df_dict_columns in Hd as [Hcols Hrows].
  apply bind_ok in H as (t & w4 & Ht & H). apply lift_ok in Ht as [Ht _].
  apply ret_ok in H as [-> _].
  apply pd_DataFrame_ok in Ht as (Hdf & Hperm & Hall).
  rewrite Hrows in Hall. split; [ | split].
  - rewrite Hperm, Hcols. reflexivity.
  - rewrite Hdf. destruct keeps_dict_order; assumption.
  - apply Forall_forall. intros kc Hin. rewrite Forall_forall in Hall.
    apply Hall. rewrite <- Hperm. exact Hin.
Qed.

End Report.

(** X8.  A report [solve] returns has the columns [n], [m], [p],
    [t_min[ms]], [t_max[ms]] and [t_avg[ms]] and, under the tag ['miosqp']
    and under no other tag, [t_osqp_min[%]], [t_osqp_max[%]] and
    [t_osqp_avg[%]], each of them once and no other.  Where a data frame
    keeps the order of the dictionary it is built from, the columns are in
    the order in which lines 137-147 fill the dictionary; elsewhere they are
    sorted by name.  Every column has one entry per entry of [n_vec]. *)
Theorem report_has_the_columns_of_its_solver {E : Externals}
  n_prob n_vec m_vec p_vec repeat dns seed solver (w : world) df w' :
  solve n_prob n_vec m_vec p_vec repeat dns seed solver w = (Ok df, w') ->
  Permutation (map fst df) (report_columns solver) /\
  map fst df = (if keeps_dict_order then report_columns solver
                else sorted_report_columns solver) /\
  Forall (fun kc => column_length (snd kc) = length n_vec) df.
Proof.
  intros H. exact (solve_columns _ _ _ _ _ _ _ _ _ _ _ H).
Qed.

Lemma report_has_the_columns_of_its_solver_witness :
  solve (E:=scripted calm) (Some (Z.of_nat (length [10]))) [10] [5] [2] 3
        0.6%float 0 "gurobi" (scripted_world calm 0 0)
  = (Ok example_report, snd example_run) /\
  Permutation (map fst example_report) (report_columns "gurobi") /\
  map fst example_report
  = (if keeps_dict_order (Externals:=scripted calm)
     then report_columns "gurobi" else sorted_report_columns "gurobi") /\
  Forall (fun kc => column_length (snd kc) = length [10]) example_report.
Proof.
  split; [vm_compute; reflexivity | ].
  apply (@report_has_the_columns_of_its_solver (scripted calm)
           (Some (Z.of_nat (length [10]))) [10] [5] [2] 3 0.6%float 0 "gurobi"
           (scripted_world calm 0 0) example_report (snd example_run)).
  vm_compute. reflexivity.
Defined.

(** The report of the same sweep under an interpreter whose dictionaries
    keep no order: the same columns, sorted by name. *)
Example sorted_report :
  fst (solve (E:=sorting (scripted calm)) (Some 1) [10] [5] [2] 3 0.6%float 0
             "gurobi" (@World (sorting (scripted calm)) 0%nat 0%nat []))
  = Ok [ ("m", IntColumn [5]); ("n", IntColumn [10]); ("p", IntColumn [2]);
         ("t_avg[ms]", FloatColumn [0x1.999999999999bp-4%float]);
         ("t_max[ms]", FloatColumn [0x1.999999999999ap-4%float]);
         ("t_min[ms]", FloatColumn [0x1.999999999999ap-4%float]) ].
Proof. vm_compute. reflexivity. Qed.

Lemma df_dict_run {E : Externals} n_vec m_vec p_vec solver st (w : world) len :
  statistics_shape solver len st ->
  exists rest,
    df_dict n_vec m_vec p_vec solver st w
    = (Ok ([ ("n", IntColumn n_vec); ("m", IntColumn m_vec);
             ("p", IntColumn p_vec);
             ("t_min[ms]", FloatColumn (min_solve_time st));
             ("t_max[ms]", FloatColumn (max_solve_time st));
             ("t_avg[ms]", FloatColumn (avg_solve_time st)) ] ++ rest), w).
Proof.
  intros (_ & _ & _ & Ho). unfold df_dict.
  destruct (String.eqb solver "miosqp").
  - destruct (Ho eq_refl) as (a & b & c & -> & -> & -> & _).
    eexists. reflexivity.
  - exists []. reflexivity.
Qed.

(** X5.  [solve] compares the lengths of its three vectors nowhere: when
    [m_vec] or [p_vec] differs in length from [n_vec] and the loop over the
    configurations goes through, every repetition has been generated and
    solved before [pd.DataFrame] raises [ValueError] at line 149, and no
    report is returned. *)
Theorem unequal_vectors_lose_the_sweep {E : Externals}
  k n_vec m_vec p_vec repeat dns seed solver (w : world) st w1 :
  0 <= seed < 2 ^ 32 ->
  length m_vec <> length n_vec \/ length p_vec <> length n_vec ->
  sweep n_vec m_vec p_vec repeat dns solver k (seeded seed solver w)
    = (Ok st, w1) ->
  solve (Some k) n_vec m_vec p_vec repeat dns seed solver w
  = (Raise (ValueError "pd.DataFrame"), w1).
Proof.
  intros Hseed Hlen Hsw. rewrite solve_run by exact Hseed.
  erewrite bind_step by reflexivity. erewrite bind_step by exact Hsw.
  unfold sweep in Hsw.
  apply sweep_shape in Hsw; [ | apply initial_statistics_shape].
  destruct (df_dict_run n_vec m_vec p_vec solver st w1 _ Hsw) as (rest & Hd).
  erewrite bind_step by exact Hd. apply bind_fail. cbn [app].
  unfold lift, pd_DataFrame.
  cbn [forallb snd column_length].
  destruct (Nat.eqb_spec (length m_vec) (length n_vec)) as [Lm|_];
    [ | reflexivity].
  destruct (Nat.eqb_spec (length p_vec) (length n_vec)) as [Lp|_];
    [ | reflexivity].
  destruct Hlen; contradiction.
Qed.

Lemma unequal_vectors_lose_the_sweep_witness :
  let w := scripted_world calm 0 0 in
  let swept := sweep (E:=scripted calm) [4] [2; 3] [1] 2 0.6%float "gurobi" 1
                     (seeded 0 "gurobi" w) in
  0 <= 0 < 2 ^ 32 /\
  (length [2; 3] <> length [4] \/ length [1] <> length [4]) /\
  (exists st, swept = (Ok st, snd swept)) /\
  solve (E:=scripted calm) (Some 1) [4] [2; 3] [1] 2 0.6%float 0 "gurobi" w
  = (Raise (ValueError "pd.DataFrame"), snd swept).
Proof.
  intros w swept.
  assert (H : exists st, swept = (Ok st, snd swept))
    by (eexists; vm_compute; reflexivity).
  assert (L : length [2; 3] <> length [4] \/ length [1] <> length [4])
    by (left; discriminate).
  split; [lia | split; [exact L | split; [exact H | ]]].
  destruct H as (st & H).
  apply (@unequal_vectors_lose_the_sweep (scripted calm)
           1 [4] [2; 3] [1] 2 0.6%float 0 "gurobi" w st (snd swept)).
  - lia.
  - exact L.
  - exact H.
Defined.

(** * A configuration the generator rejects *)

Lemma configuration_rejected {E : Externals}
  n_vec m_vec p_vec repeat dns solver i st (w : world) n m p :
  n_vec !! i = Some n -> m_vec !! i = Some m -> p_vec !! i = Some p ->
  1 <= repeat -> 0 < p -> n < p ->
  configuration n_vec m_vec p_vec repeat dns solver i st w
  = (Raise (ValueError "np.random.choice"), announced n m p w).
Proof.
  intros Hn Hm Hp Hr Hpos Hbad.
  assert (Hloop : forall s u,
    for_each (seq 0 (Z.to_nat repeat)) (repetition solver n m p dns) s u
    = (Raise (ValueError "np.random.choice"), u)).
  { intros s u. destruct (Z.to_nat repeat) as [|r] eqn:Hrep; [lia|].
    cbn [seq for_each]. apply bind_fail. unfold repetition. apply bind_fail.
    unfold generate. apply bind_fail. apply np_random_choice_fails. lia. }
  unfold configuration, get_item. rewrite Hn, Hm, Hp.
  do 4 (erewrite bind_step by reflexivity).
  unfold np_zeros. destruct (Z.ltb_spec repeat 0) as [?|_]; [lia|].
  erewrite bind_step by reflexivity.
  destruct (String.eqb solver "miosqp").
  - erewrite bind_step by reflexivity. apply bind_fail. apply Hloop.
  - erewrite bind_step by reflexivity. apply bind_fail. apply Hloop.
Qed.

(** X6.  The configurations are not checked before the sweep starts.  When
    configuration [i] is the first one the loop reaches that asks for more
    restricted variables than it has variables (a positive [p] above [n]),
    the configurations before it are generated and solved as usual;
    configuration [i] is announced by line 57, the draw of the indices at
    line 68 raises [ValueError] in its first repetition, and the statistics
    gathered so far are lost. *)
Theorem invalid_configuration_stops_the_sweep {E : Externals}
  k n_vec m_vec p_vec repeat dns seed solver (w : world) i n m p st w1 :
  0 <= seed < 2 ^ 32 -> (i < Z.to_nat k)%nat -> 1 <= repeat ->
  n_vec !! i = Some n -> m_vec !! i = Some m -> p_vec !! i = Some p ->
  0 < p -> n < p ->
  sweep n_vec m_vec p_vec repeat dns solver (Z.of_nat i) (seeded seed solver w)
    = (Ok st, w1) ->
  solve (Some k) n_vec m_vec p_vec repeat dns seed solver w
  = (Raise (ValueError "np.random.choice"), announced n m p w1).
Proof.
  intros Hseed Hi Hr Hn Hm Hp Hpos Hbad Hsw.
  apply solve_sweep_fails; [exact Hseed|].
  unfold sweep in *. rewrite Nat2Z.id in Hsw.
  replace (Z.to_nat k) with (i + S (Z.to_nat k - S i))%nat by lia.
  rewrite seq_app, for_each_app, bind_run, Hsw.
  cbn [seq for_each]. apply bind_fail.
  apply configuration_rejected; assumption.
Qed.

Lemma invalid_configuration_stops_the_sweep_witness :
  let w := scripted_world calm 0 0 in
  let before := sweep (E:=scripted calm) [4; 2] [2; 2] [1; 3] 2 0.6%float
                      "gurobi" (Z.of_nat 1) (seeded 0 "gurobi" w) in
  0 <= 0 < 2 ^ 32 /\ (1 < Z.to_nat 2)%nat /\ 1 <= 2 /\
  [4; 2] !! 1%nat = Some 2 /\ [2; 2] !! 1%nat = Some 2 /\
  [1; 3] !! 1%nat = Some 3 /\
  0 < 3 /\ 2 < 3 /\
  (exists st, before = (Ok st, snd before)) /\
  solve (E:=scripted calm) (Some 2) [4; 2] [2; 2] [1; 3] 2 0.6%float 0
        "gurobi" w
  = (Raise (ValueError "np.random.choice"), announced 2 2 3 (snd before)).
Proof.
  intros w before.
  assert (H : exists st, before = (Ok st, snd before))
    by (eexists; vm_compute; reflexivity).
  split; [lia | split; [simpl; lia | split; [lia | ]]].
  split; [reflexivity | split; [reflexivity | split; [reflexivity | ]]].
  split; [lia | split; [lia | split; [exact H | ]]].
  destruct H as (st & H).
  apply (@invalid_configuration_stops_the_sweep (scripted calm)
           2 [4; 2] [2; 2] [1; 3] 2 0.6%float 0 "gurobi" w 1%nat 2 2 3 st
           (snd before)).
  - lia.
  - simpl. lia.
  - lia.
  - reflexivity.
  - reflexivity.
  - reflexivity.
  - lia.
  - lia.
  - exact H.
Defined.

(** * The shape of a generated instance *)

Lemma generate_q {E : Externals} n m p dns (w : world) inst w' :
  generate n m p dns w = (Ok inst, w') ->
  exists st2 : rng,
    inst_q inst = map (fst (draw_randn st2 (Z.to_nat n))) (seq 0 (Z.to_nat n)).
Proof.
  intros H.
  pose proof (generate_ok _ _ _ _ _ _ _ H) as (Hn & Hp & Hm & Hd & _).
  unfold generate in H.
  erewrite bind_step in H by (apply np_random_choice_run; lia).
  erewrite bind_step in H by (apply spa_random_run; [lia | lia | assumption]).
  rewrite np_dot_gram in H. erewrite bind_step in H by reflexivity.
  erewrite bind_step in H by (apply sp_randn_run; lia).
  erewrite bind_step in H by (apply spa_random_run; [lia | lia | assumption]).
  erewrite bind_step in H by (apply sp_rand_run; lia).
  erewrite bind_step in H by (apply sp_rand_run; lia).
  match type of H with
  | context [add_bounds ?i ?a ?b ?c ?d ?e] =>
      destruct (add_bounds i a b c d e) as [[A' l'] u']
  end.
  erewrite bind_step in H by reflexivity.
  apply ret_ok in H as [-> _]. eexists. reflexivity.
Qed.

(** X10.  In every generated instance the cost matrix [P] is square of
    order [n], with [n] rows of [n] entries, the linear cost [q] has [n]
    entries, and the restricted indices are [p] different variables, each
    below [n]; when [p = n], as in the second problem set, they are all the
    variables. *)
Theorem generated_instance_is_well_formed
  {E : Externals} {C : NumpyContract E} n m p dns (w : world) inst w' :
  generate n m p dns w = (Ok inst, w') ->
  nrows (inst_P inst) = Z.to_nat n /\ ncols (inst_P inst) = Z.to_nat n /\
  length (entries (inst_P inst)) = Z.to_nat n /\
  Forall (fun row => length row = Z.to_nat n) (entries (inst_P inst)) /\
  length (inst_q inst) = Z.to_nat n /\
  length (inst_idx inst) = Z.to_nat p /\
  NoDup (inst_idx inst) /\
  Forall (fun i => (i < Z.to_nat n)%nat) (inst_idx inst) /\
  (p = n -> Permutation (inst_idx inst) (seq 0 (Z.to_nat n))).
Proof.
  intros H.
  pose proof (generate_q _ _ _ _ _ _ _ H) as (st2 & Hq).
  apply generate_ok in H
    as (Hn & Hp & Hm & _ & st1 & st3 & st4 & st5 & Hidx & HP & _).
  cbv zeta in Hidx, HP. rewrite np_dot_gram in HP. injection HP as HP.
  destruct (choice_distinct (w_rng w) (Z.to_nat n) (Z.to_nat p))
    as (Hlen & Hnd & Hlt); [lia|].
  cbv zeta in Hlen, Hnd, Hlt. rewrite <- Hidx in Hlen, Hnd, Hlt.
  rewrite <- HP. cbn [tabulate nrows ncols entries].
  repeat split; try assumption.
  - apply length_map_seq.
  - apply Forall_forall. intros row Hrow.
    apply list_elem_of_In in Hrow. apply in_map_iff in Hrow as (i & <- & _).
    apply length_map_seq.
  - rewrite Hq. apply length_map_seq.
  - apply Forall_forall. intros i Hi. apply Hlt.
    apply list_elem_of_In. exact Hi.
  - intros ->. rewrite Hidx.
    pose proof (permutation_spec (w_rng w) (Z.to_nat n)) as Hperm.
    rewrite take_ge; [exact Hperm|].
    rewrite (Permutation_length Hperm), length_seq. lia.
Qed.

Lemma generated_instance_is_well_formed_witness :
  generate (E:=scripted calm) 4 2 2 0.6%float (scripted_world calm 1 0)
  = (Ok small_instance, snd small_run) /\
  nrows (inst_P small_instance) = Z.to_nat 4 /\
  ncols (inst_P small_instance) = Z.to_nat 4 /\
  length (entries (inst_P small_instance)) = Z.to_nat 4 /\
  Forall (fun row => length row = Z.to_nat 4) (entries (inst_P small_instance)) /\
  length (inst_q small_instance) = Z.to_nat 4 /\
  length (inst_idx small_instance) = Z.to_nat 2 /\
  NoDup (inst_idx small_instance) /\
  Forall (fun i => (i < Z.to_nat 4)%nat) (inst_idx small_instance) /\
  (2 = 4 -> Permutation (inst_idx small_instance) (seq 0 (Z.to_nat 4))).
Proof.
  split; [vm_compute; reflexivity | ].
  apply (@generated_instance_is_well_formed (scripted calm) calm_contract
           4 2 2 0.6%float (scripted_world calm 1 0) small_instance
           (snd small_run)).
  vm_compute. reflexivity.
Defined.

(** * The percentages of a MIOSQP sweep *)

Section Percentages.

Context {E : Externals}.

Lemma solve_miosqp_inv inst j s w s' w' :
  solve_miosqp inst j s w = (Ok s', w') ->
  exists res o,
    answered res /\ osqp_solve_time_temp s = Some o /\
    (j < length (solve_time_temp s))%nat /\ (j < length o)%nat /\
    s' = Samples (<[j:=recorded_time res]> (solve_time_temp s))
                 (Some (<[j:=recorded_percentage res]> o)).
Proof.
  unfold solve_miosqp. intros H.
  apply bind_ok in H as ([] & w1 & _ & H).
  apply bind_ok in H as (r & w2 & Hr & H). apply extern_ok in Hr.
  apply bind_ok in H as (res & w3 & Hres & H). apply lift_ok in Hres as [-> ->].
  apply bind_ok in H as ([] & w4 & _ & H).
  apply bind_ok in H as ([] & w4' & _ & H).
  apply bind_ok in H as (o & w5 & Ho & H). apply local_ok in Ho as [Ho ->].
  apply bind_ok in H as (ratio & w6 & Hq & H). apply lift_ok in Hq as [Hq ->].
  unfold py_div in Hq.
  destruct (mi_run_time res =? 0)%float eqn:Hz; [discriminate|].
  injection Hq as <-.
  apply bind_ok in H as (o' & w7 & Ho' & H). apply lift_ok in Ho' as [Ho' ->].
  apply set_item_ok in Ho' as [Hjo ->].
  apply bind_ok in H as (t & w8 & Ht & H). apply lift_ok in Ht as [Ht ->].
  apply set_item_ok in Ht as [Hj ->].
  apply ret_ok in H as [-> _].
  exists res, o. repeat split; try assumption.
  exists (w_ext w1), inst, (w_ext w2). exact Hr.
Qed.

Lemma insert_next {A} (f : miosqp_result -> A) (z : A) rs res r :
  (length rs < r)%nat ->
  <[length rs:=f res]> (map f rs ++ replicate (r - length rs) z)
  = map f (rs ++ [res]) ++ replicate (r - S (length rs)) z.
Proof.
  intros Hlt.
  replace (r - length rs)%nat with (S (r - S (length rs))) by lia.
  rewrite insert_app_r_alt by (rewrite length_map; lia).
  rewrite length_map, Nat.sub_diag. simpl.
  rewrite map_app, <- app_assoc. reflexivity.
Qed.

(** After the repetitions [0, ..., d-1] of a MIOSQP configuration the first
    [d] entries of the two sample vectors are what was recorded for [d]
    results, entry by entry, and the others are still 0. *)
Lemma miosqp_repetitions_prefix n m p dns repeat d w s w' :
  for_each (seq 0 d) (repetition "miosqp" n m p dns)
           (fresh_samples repeat "miosqp") w = (Ok s, w') ->
  (d <= Z.to_nat repeat)%nat /\
  exists results,
    length results = d /\ Forall answered results /\
    solve_time_temp s
    = map recorded_time results ++ replicate (Z.to_nat repeat - d) 0%float /\
    osqp_solve_time_temp s
    = Some (map recorded_percentage results
            ++ replicate (Z.to_nat repeat - d) 0%float).
Proof.
  revert s w'. induction d as [|d IH]; intros s w' H.
  - simpl in H. apply ret_ok in H as [-> ->]. split; [lia|].
    exists []. rewrite Nat.sub_0_r. repeat split; constructor.
  - rewrite seq_S, for_each_app in H. simpl in H.
    apply bind_ok in H as (s1 & w1 & H1 & H).
    apply bind_ok in H as (s2 & w2 & H2 & H).
    apply ret_ok in H as [-> ->].
    destruct (IH _ _ H1) as (Hd & rs & Lrs & Hans & Ht & Ho). clear IH H1.
    unfold repetition in H2.
    apply bind_ok in H2 as (inst & w3 & _ & H2).
    change (String.eqb "miosqp" "gurobi") with false in H2.
    change (String.eqb "miosqp" "miosqp") with true in H2.
    cbv iota in H2.
    apply solve_miosqp_inv in H2 as (res & o & Hres & Eo & Hj & _ & ->).
    rewrite Ho in Eo. injection Eo as <-.
    rewrite Ht in Hj. rewrite length_app, length_map, length_replicate in Hj.
    assert (Hlt : (length rs < Z.to_nat repeat)%nat) by lia.
    split; [lia|]. exists (rs ++ [res]).
    cbn [solve_time_temp osqp_solve_time_temp].
    rewrite Ht. subst d. rewrite !insert_next by exact Hlt.
    repeat split.
    + rewrite length_app. simpl. lia.
    + apply Forall_app. split; [exact Hans|].
      constructor; [exact Hres | constructor].
Qed.

Lemma miosqp_repetitions n m p dns repeat w s w' :
  for_each (seq 0 (Z.to_nat repeat)) (repetition "miosqp" n m p dns)
           (fresh_samples repeat "miosqp") w = (Ok s, w') ->
  exists results,
    length results = Z.to_nat repeat /\ Forall answered results /\
    solve_time_temp s = map recorded_time results /\
    osqp_solve_time_temp s = Some (map recorded_percentage results).
Proof.
  intros H. apply miosqp_repetitions_prefix in H
    as (_ & rs & Lrs & Hans & Ht & Ho).
  rewrite Nat.sub_diag in Ht, Ho. simpl in Ht, Ho. rewrite app_nil_r in Ht, Ho.
  exists rs. repeat split; assumption.
Qed.

Lemma aggregates_other xs i j v1 v2 v3 avg mn mx :
  i <> j -> aggregates xs i avg mn mx ->
  aggregates xs i (<[j:=v1]> avg) (<[j:=v2]> mn) (<[j:=v3]> mx).
Proof.
  intros Hne (Ha & (a & Hn1 & Hn2) & (b & Hx1 & Hx2)).
  unfold aggregates. rewrite !list_lookup_insert_ne by lia.
  split; [exact Ha | split]; eexists; split; eassumption.
Qed.

Lemma aggregates_here xs i vn vx avg mn mx :
  (i < length avg)%nat -> (i < length mn)%nat -> (i < length mx)%nat ->
  np_min xs = Ok vn -> np_max xs = Ok vx ->
  aggregates xs i (<[i:=np_mean xs]> avg) (<[i:=vn]> mn) (<[i:=vx]> mx).
Proof.
  intros L1 L2 L3 Hn Hx. unfold aggregates.
  rewrite !list_lookup_insert_eq by assumption.
  split; [reflexivity | split]; eexists; split; (eassumption || reflexivity).
Qed.

(** After the first [d] configurations of a MIOSQP sweep every row below
    [d] aggregates the records of [repeat] results. *)
Lemma miosqp_sweep_rows n_vec m_vec p_vec repeat dns d st w0 w :
  for_each (seq 0 d) (configuration n_vec m_vec p_vec repeat dns "miosqp")
           (initial_statistics n_vec "miosqp") w0 = (Ok st, w) ->
  forall i, (i < d)%nat ->
    exists results,
      length results = Z.to_nat repeat /\ Forall answered results /\
      miosqp_row st i results.
Proof.
  revert st w. induction d as [|d IH]; intros st w H i Hi; [lia|].
  rewrite seq_S, for_each_app in H. simpl in H.
  apply bind_ok in H as (st1 & w1 & H1 & H).
  apply bind_ok in H as (st2 & w2 & H2 & H).
  apply ret_ok in H as [-> ->].
  pose proof (configuration_ok _ _ _ _ _ _ _ _ _ _ _ H2)
    as (n & m & p & s & mx & mn & Hn & Hm & Hp & _ & Hloop & Hmx & Hmn
        & Ea & Ex & En & La & Lx & Ln).
  assert (Htag : String.eqb "miosqp" "miosqp" = true) by reflexivity.
  apply (configuration_osqp_ok _ _ _ _ _ "miosqp" _ _ _ _ _ Htag) in H2
    as (n' & m' & p' & s' & o & oa & ob & oc & omx & omn & Hn' & Hm' & Hp'
        & Hloop' & Eo & Eoa & Eob & Eoc & Homx & Homn & Eoa' & Eob' & Eoc'
        & Loa & Lob & Loc).
  destruct (Nat.eq_dec i d) as [->|Hne].
  - clear IH.
    assert (n' = n) as -> by congruence.
    assert (m' = m) as -> by congruence.
    assert (p' = p) as -> by congruence.
    assert (s' = s) as -> by congruence.
    apply miosqp_repetitions in Hloop as (rs & Lrs & Hans & Ht & Ho).
    assert (o = map recorded_percentage rs) as -> by congruence.
    rewrite Ht in *.
    exists rs. split; [exact Lrs | split; [exact Hans|]].
    split.
    + rewrite Ea, En, Ex. apply aggregates_here; assumption.
    + rewrite Eoa', Eob', Eoc'. do 3 eexists.
      split; [reflexivity | split; [reflexivity | split; [reflexivity|]]].
      apply aggregates_here; assumption.
  - destruct (IH _ _ H1 i) as (rs & Lrs & Hans & Hrow & oavg & ommn & ommx
                               & E1 & E2 & E3 & Hrow'); [lia|].
    exists rs. split; [exact Lrs | split; [exact Hans|]].
    split.
    + rewrite Ea, En, Ex. apply aggregates_other; assumption.
    + rewrite Eoa', Eob', Eoc'. do 3 eexists.
      split; [reflexivity | split; [reflexivity | split; [reflexivity|]]].
      assert (oa = oavg) as -> by congruence.
      assert (ob = ommn) as -> by congruence.
      assert (oc = ommx) as -> by congruence.
      apply aggregates_other; assumption.
Qed.

Lemma solve_miosqp_columns n_prob n_vec m_vec p_vec repeat dns seed w df w' :
  solve n_prob n_vec m_vec p_vec repeat dns seed "miosqp" w = (Ok df, w') ->
  exists k st oavg omn omx,
    n_prob = Some k /\
    sweep n_vec m_vec p_vec repeat dns "miosqp" k (seeded seed "miosqp" w)
      = (Ok st, w') /\
    avg_osqp_solve_time st = Some oavg /\ min_osqp_solve_time st = Some omn /\
    max_osqp_solve_time st = Some omx /\
    df_column df "t_min[ms]" = Some (FloatColumn (min_solve_time st)) /\
    df_column df "t_max[ms]" = Some (FloatColumn (max_solve_time st)) /\
    df_column df "t_avg[ms]" = Some (FloatColumn (avg_solve_time st)) /\
    df_column df "t_osqp_min[%]" = Some (FloatColumn omn) /\
    df_column df "t_osqp_max[%]" = Some (FloatColumn omx) /\
    df_column df "t_osqp_avg[%]" = Some (FloatColumn oavg).
Proof.
  intros H.
  pose proof (solve_ok _ _ _ _ _ _ _ _ _ _ _ H)
    as (k & st & -> & Hseed & Hsw & _ & _ & _ & Cmn & Cmx & Cavg & _).
  rewrite solve_run in H by exact Hseed.
  apply bind_ok in H as (k' & w1 & Hk & H). apply local_ok in Hk as [Hk ->].
  injection Hk as <-.
  apply bind_ok in H as (st' & w2 & Hsw' & H).
  assert (st' = st /\ w2 = w') as [-> ->].
  { rewrite Hsw in Hsw'. injection Hsw' as <- <-. split; reflexivity. }
  apply bind_ok in H as (d & w3 & Hd & H).
  pose proof (df_dict_keys _ _ _ _ _ _ _ _ Hd) as Hkeys.
  unfold df_dict in Hd.
  change (String.eqb "miosqp" "miosqp") with true in Hd. cbv iota in Hd.
  apply bind_ok in Hd as (omn & w4 & E1 & Hd). apply local_ok in E1 as [E1 _].
  apply bind_ok in Hd as (omx & w5 & E2 & Hd). apply local_ok in E2 as [E2 _].
  apply bind_ok in Hd as (oavg & w6 & E3 & Hd). apply local_ok in E3 as [E3 _].
  apply ret_ok in Hd as [-> _].
  apply bind_ok in H as (t & w7 & Ht & H). apply lift_ok in Ht as [Ht _].
  apply ret_ok in H as [-> _].
  exists k, st, oavg, omn, omx.
  rewrite !(pd_DataFrame_column _ _ _ _ Ht Hkeys).
  repeat split; try assumption; reflexivity.
Qed.

End Percentages.

(** X7.  In a report of a MIOSQP sweep over all the declared
    configurations, row [i] is computed from [repeat] results the backend
    returned, each with a run time other than 0: the three [t_..[ms]]
    entries are the mean, minimum and maximum of 1000 times the run times,
    and the three [t_osqp_..[%]] entries are the mean, minimum and maximum
    of 100 times the quotients of the OSQP time by the run time of the same
    results, taken in the same order. *)
Theorem miosqp_report_pairs_times_with_percentages {E : Externals}
  n_vec m_vec p_vec repeat dns seed (w : world) df w' :
  solve (Some (Z.of_nat (length n_vec))) n_vec m_vec p_vec repeat dns seed
        "miosqp" w = (Ok df, w') ->
  forall i, (i < length n_vec)%nat ->
    exists results : list miosqp_result,
      length results = Z.to_nat repeat /\ Forall answered results /\
      let times := map recorded_time results in
      let percentages := map recorded_percentage results in
      df_float df "t_avg[ms]" i = Some (np_mean times) /\
      (exists v, np_min times = Ok v /\ df_float df "t_min[ms]" i = Some v) /\
      (exists v, np_max times = Ok v /\ df_float df "t_max[ms]" i = Some v) /\
      df_float df "t_osqp_avg[%]" i = Some (np_mean percentages) /\
      (exists v, np_min percentages = Ok v /\
                 df_float df "t_osqp_min[%]" i = Some v) /\
      (exists v, np_max percentages = Ok v /\
                 df_float df "t_osqp_max[%]" i = Some v).
Proof.
  intros H i Hi.
  apply solve_miosqp_columns in H
    as (k & st & oavg & omn & omx & Hk & Hsw & Ea & En & Ex
        & Cmn & Cmx & Cavg & Comn & Comx & Coavg).
  injection Hk as <-. unfold sweep in Hsw. rewrite Nat2Z.id in Hsw.
  destruct (miosqp_sweep_rows _ _ _ _ _ _ _ _ _ Hsw i Hi)
    as (rs & Lrs & Hans & (Ha & Hn & Hx) & a & b & c & Ea' & En' & Ex'
        & (Hoa & Hon & Hox)).
  assert (a = oavg) as -> by congruence.
  assert (b = omn) as -> by congruence.
  assert (c = omx) as -> by congruence.
  exists rs. split; [exact Lrs | split; [exact Hans|]].
  cbv zeta. unfold df_float.
  rewrite Cmn, Cmx, Cavg, Comn, Comx, Coavg.
  repeat split; assumption.
Qed.

Lemma miosqp_report_pairs_times_with_percentages_witness :
  let run := solve (E:=scripted calm) (Some (Z.of_nat (length [4]))) [4] [2]
                   [1] 3 0.6%float 0 "miosqp" (scripted_world calm 0 0) in
  exists df,
    run = (Ok df, snd run) /\
    forall i, (i < length [4])%nat ->
      exists results : list miosqp_result,
        length results = Z.to_nat 3 /\
        Forall (answered (E:=scripted calm)) results /\
        let times := map recorded_time results in
        let percentages := map recorded_percentage results in
        df_float df "t_avg[ms]" i = Some (np_mean times) /\
        (exists v, np_min times = Ok v /\ df_float df "t_min[ms]" i = Some v) /\
        (exists v, np_max times = Ok v /\ df_float df "t_max[ms]" i = Some v) /\
        df_float df "t_osqp_avg[%]" i = Some (np_mean percentages) /\
        (exists v, np_min percentages = Ok v /\
                   df_float df "t_osqp_min[%]" i = Some v) /\
        (exists v, np_max percentages = Ok v /\
                   df_float df "t_osqp_max[%]" i = Some v).
Proof.
  intros run.
  assert (H : exists df, run = (Ok df, snd run))
    by (eexists; vm_compute; reflexivity).
  destruct H as (df & H). exists df. split; [exact H | ].
  exact (@miosqp_report_pairs_times_with_percentages (scripted calm)
           [4] [2] [1] 3 0.6%float 0 (scripted_world calm 0 0) df (snd run) H).
Defined.

(** * The script run as a program *)

Section MainBlock.

Context {E : Externals}.

Lemma problem_arrays_cases problem_set n_arr m_arr p_arr :
  problem_arrays problem_set = Some (n_arr, m_arr, p_arr) ->
  (problem_set = 1 \/ problem_set = 2) /\
  length n_arr = 8%nat /\
  forall repeat dns seed,
    1 <= repeat -> valid_density dns = true -> 0 <= seed < 2 ^ 32 ->
    well_formed (Z.of_nat (length n_arr)) n_arr m_arr p_arr repeat dns seed
    = true.
Proof.
  unfold problem_arrays.
  destruct (Z.eqb_spec problem_set 1) as [->|_];
    [ | destruct (Z.eqb_spec problem_set 2) as [->|_]; [ | discriminate]];
    intros H; injection H as <- <- <-;
    (split; [auto | split; [reflexivity | ]]);
    intros repeat dns seed Hr Hd Hseed; unfold well_formed;
    rewrite (proj2 (Z.leb_le 0 seed)) by lia;
    rewrite (proj2 (Z.ltb_lt seed (2 ^ 32))) by lia;
    rewrite (proj2 (Z.leb_le 1 repeat)) by lia;
    rewrite Hd; reflexivity.
Qed.

Lemma main_block_run n_repeat problem_set dns seed (w : world) n_arr m_arr p_arr :
  problem_arrays problem_set = Some (n_arr, m_arr, p_arr) ->
  main_block n_repeat problem_set dns seed w
  = bind (solve (Some (Z.of_nat (length n_arr))) n_arr m_arr p_arr n_repeat
                dns seed "gurobi")
         (fun timings_gurobi =>
            timings_miosqp <- solve (Some (Z.of_nat (length n_arr))) n_arr m_arr
                                    p_arr n_repeat dns seed "miosqp" ;;
            ret [ PrintedLine "Results GUROBI"; PrintedFrame timings_gurobi;
                  PrintedLine "Results MIOSQP"; PrintedFrame timings_miosqp ])
         w.
Proof. intros H. unfold main_block. rewrite H. reflexivity. Qed.

Lemma main_block_unbound n_repeat problem_set dns seed (w : world) :
  problem_arrays problem_set = None ->
  main_block n_repeat problem_set dns seed w = (Raise (NameError "n_arr"), w).
Proof. intros H. unfold main_block. rewrite H. reflexivity. Qed.

Lemma sweep_pair g1 g2 solver1 solver2 n_vec m_vec p_vec repeat dns xs
  st1 st2 (w1 w2 : world) st1' st2' w1' w2' :
  synced g1 g2 w1 w2 ->
  for_each xs (configuration n_vec m_vec p_vec repeat dns solver1) st1 w1
    = (Ok st1', w1') ->
  for_each xs (configuration n_vec m_vec p_vec repeat dns solver2) st2 w2
    = (Ok st2', w2') ->
  synced g1 g2 w1' w2'.
Proof.
  intros HS H1 H2.
  eapply (for_each_pair (synced g1 g2)); [ | exact HS | exact H1 | exact H2].
  intros. eapply configuration_pair; eassumption.
Qed.

End MainBlock.

(** X11.  When the block of the script runs to its end, the two sweeps were
    made on the same problems: the MIOSQP sweep generated, in the same
    order, the [8 * n_repeat] instances the Gurobi sweep generated (both
    calls of [solve] pass the same seed); Gurobi was called on each of them
    first, once and in this order, and MIOSQP on each of them afterwards,
    and no backend was called on anything else. *)
Theorem main_gives_both_backends_the_same_instances {E : Externals}
  n_repeat problem_set dns seed (w : world) out w' :
  main_block n_repeat problem_set dns seed w = (Ok out, w') ->
  exists gs,
    length gs = (8 * Z.to_nat n_repeat)%nat /\
    generated_instances (w_trace w')
    = generated_instances (w_trace w) ++ gs ++ gs /\
    solver_calls (w_trace w')
    = solver_calls (w_trace w)
      ++ replicate (8 * Z.to_nat n_repeat) "gurobi"
      ++ replicate (8 * Z.to_nat n_repeat) "miosqp" /\
    calls (w_trace w')
    = calls (w_trace w) ++ map (pair "gurobi") gs ++ map (pair "miosqp") gs.
Proof.
  intros H.
  destruct (problem_arrays problem_set) as [[[n_arr m_arr] p_arr]|] eqn:Harr;
    [ | rewrite main_block_unbound in H by exact Harr; discriminate].
  rewrite (main_block_run _ _ _ _ _ _ _ _ Harr) in H.
  apply problem_arrays_cases in Harr as (_ & Hlen & _).
  apply bind_ok in H as (tg & w1 & H1 & H).
  apply bind_ok in H as (tm & w2 & H2 & H).
  apply ret_ok in H as [_ ->].
  destruct (solve_calls _ _ _ _ _ _ _ _ _ _ _ (or_introl eq_refl) H1)
    as (gs1 & K1 & L1).
  destruct (solve_calls _ _ _ _ _ _ _ _ _ _ _ (or_intror eq_refl) H2)
    as (gs2 & K2 & L2).
  apply solve_ok in H1 as (k1 & st1 & Hk1 & _ & S1 & _).
  apply solve_ok in H2 as (k2 & st2 & Hk2 & _ & S2 & _).
  injection Hk1 as <-. injection Hk2 as <-.
  unfold sweep in S1, S2. rewrite Nat2Z.id, Hlen in S1, S2.
  assert (HS : synced (generated_instances (w_trace w))
                      (generated_instances (w_trace w1))
                      (seeded seed "gurobi" w) (seeded seed "miosqp" w1)).
  { split; [reflexivity|]. exists [].
    rewrite !generated_seeded, !app_nil_r. split; reflexivity. }
  destruct (sweep_pair _ _ _ _ _ _ _ _ _ _ _ _ _ _ _ _ _ _ HS S1 S2)
    as (_ & gs & G1 & G2).
  pose proof (for_each_grown "gurobi" (Z.to_nat n_repeat) _ _
                (fun i st u st' u' =>
                   configuration_grown "gurobi" (or_introl eq_refl)
                     n_arr m_arr p_arr n_repeat dns i st u st' u')
                _ _ _ _ S1) as [A1 B1].
  pose proof (for_each_grown "miosqp" (Z.to_nat n_repeat) _ _
                (fun i st u st' u' =>
                   configuration_grown "miosqp" (or_intror eq_refl)
                     n_arr m_arr p_arr n_repeat dns i st u st' u')
                _ _ _ _ S2) as [_ B2].
  rewrite length_seq in A1, B1, B2.
  rewrite generated_seeded in A1. rewrite G1, length_app in A1.
  assert (C1 : solver_calls (w_trace (seeded seed "gurobi" w))
               = solver_calls (w_trace w)).
  { unfold seeded, solver_calls. simpl. rewrite flat_map_app. simpl.
    apply app_nil_r. }
  assert (C2 : solver_calls (w_trace (seeded seed "miosqp" w1))
               = solver_calls (w_trace w1)).
  { unfold seeded, solver_calls. simpl. rewrite flat_map_app. simpl.
    apply app_nil_r. }
  rewrite C1 in B1. rewrite C2, B1 in B2.
  rewrite G1 in K1. apply app_inv_head in K1. subst gs1.
  rewrite G2 in K2. apply app_inv_head in K2. subst gs2.
  exists gs. split; [lia | split; [ | split]].
  - rewrite G2, G1, <- app_assoc. reflexivity.
  - rewrite B2, <- app_assoc. reflexivity.
  - rewrite L2, L1, <- app_assoc. reflexivity.
Qed.

Lemma main_gives_both_backends_the_same_instances_witness :
  let w := scripted_world calm 0 0 in
  let run := main_block (E:=scripted calm) 1 2 0.6%float 0 w in
  exists out,
    run = (Ok out, snd run) /\
    exists gs,
      length gs = (8 * Z.to_nat 1)%nat /\
      generated_instances (w_trace (snd run))
      = generated_instances (w_trace w) ++ gs ++ gs /\
      solver_calls (w_trace (snd run))
      = solver_calls (w_trace w)
        ++ replicate (8 * Z.to_nat 1) "gurobi"
        ++ replicate (8 * Z.to_nat 1) "miosqp" /\
      calls (w_trace (snd run))
      = calls (w_trace w) ++ map (pair "gurobi") gs ++ map (pair "miosqp") gs.
Proof.
  intros w run.
  assert (H : exists out, run = (Ok out, snd run))
    by (eexists; vm_compute; reflexivity).
  destruct H as (out & H). exists out. split; [exact H | ].
  exact (@main_gives_both_backends_the_same_instances (scripted calm)
           1 2 0.6%float 0 w out (snd run) H).
Defined.

(** X12.  The block of the script, for any number of repetitions from 1
    on, any density in [[0, 1]] and any seed numpy accepts: with
    [problem_set] 1 or 2 an exception that ends it comes from outside the
    script (a backend, a debugger session that was quit, a MIOSQP run time
    of 0), so that the arrays of both problem sets and the loop bound of
    line 176 raise nothing in [solve]; with any other [problem_set] it
    raises [NameError] for [n_arr] at line 176, before anything is
    solved. *)
Theorem main_fails_only_outside_the_script {E : Externals}
  n_repeat problem_set dns seed (w : world) e w' :
  1 <= n_repeat -> valid_density dns = true -> 0 <= seed < 2 ^ 32 ->
  main_block n_repeat problem_set dns seed w = (Raise e, w') ->
  (e = NameError "n_arr" /\ problem_set <> 1 /\ problem_set <> 2 /\ w' = w) \/
  ((problem_set = 1 \/ problem_set = 2) /\ outside_the_script e).
Proof.
  intros Hr Hd Hseed H.
  destruct (problem_arrays problem_set) as [[[n_arr m_arr] p_arr]|] eqn:Harr.
  - right. rewrite (main_block_run _ _ _ _ _ _ _ _ Harr) in H.
    apply problem_arrays_cases in Harr as (Hps & _ & Hwf).
    split; [exact Hps|]. specialize (Hwf n_repeat dns seed Hr Hd Hseed).
    rewrite bind_run in H.
    pose proof (solve_yields _ n_arr m_arr p_arr n_repeat dns seed "gurobi"
                  Hwf w) as Y1.
    destruct (solve _ n_arr m_arr p_arr n_repeat dns seed "gurobi" w)
      as [[tg|e1] w1]; simpl in Y1.
    + rewrite bind_run in H.
      pose proof (solve_yields _ n_arr m_arr p_arr n_repeat dns seed "miosqp"
                    Hwf w1) as Y2.
      destruct (solve _ n_arr m_arr p_arr n_repeat dns seed "miosqp" w1)
        as [[tm|e2] w2]; simpl in Y2.
      * discriminate H.
      * injection H as <- _. exact Y2.
    + injection H as <- _. exact Y1.
  - left. rewrite main_block_unbound in H by exact Harr.
    injection H as <- <-. unfold problem_arrays in Harr.
    destruct (Z.eqb_spec problem_set 1) as [|N1]; [discriminate|].
    destruct (Z.eqb_spec problem_set 2) as [|N2]; [discriminate|].
    repeat split; assumption.
Qed.

Lemma main_fails_only_outside_the_script_witness :
  let quit := troubled "infeasible" DbgQuit in
  let w := scripted_world quit 0 0 in
  let run := main_block (E:=scripted quit) 10 1 0.6%float 0 w in
  1 <= 10 /\ valid_density 0.6%float = true /\ 0 <= 0 < 2 ^ 32 /\
  run = (Raise BdbQuit, snd run) /\
  ((BdbQuit = NameError "n_arr" /\ 1 <> 1 /\ 1 <> 2 /\ snd run = w) \/
   ((1 = 1 \/ 1 = 2) /\ outside_the_script (E:=scripted quit) BdbQuit)).
Proof.
  intros quit w run.
  split; [lia | split; [reflexivity | split; [lia | ]]].
  split; [vm_compute; reflexivity | ].
  apply (@main_fails_only_outside_the_script (scripted quit)
           10 1 0.6%float 0 w BdbQuit (snd run)).
  - lia.
  - reflexivity.
  - lia.
  - vm_compute. reflexivity.
Defined.

(** X13.  With libraries with which nothing goes wrong outside the script,
    the block (with [problem_set] 1 or 2, at least one repetition, a
    density in [[0, 1]] and a seed numpy accepts) runs to its end and
    prints the header and the report of Gurobi and then the header and the
    report of MIOSQP; both reports have 8 rows, the first has the six
    columns of the times and the second the three OSQP columns as well,
    in whatever order pandas puts them. *)
Theorem main_prints_both_reports {E : Externals}
  n_repeat problem_set dns seed (w : world) :
  cooperative E ->
  problem_set = 1 \/ problem_set = 2 ->
  1 <= n_repeat -> valid_density dns = true -> 0 <= seed < 2 ^ 32 ->
  exists timings_gurobi timings_miosqp w',
    main_block n_repeat problem_set dns seed w
    = (Ok [ PrintedLine "Results GUROBI"; PrintedFrame timings_gurobi;
            PrintedLine "Results MIOSQP"; PrintedFrame timings_miosqp ], w') /\
    df_nrows timings_gurobi = 8%nat /\
    Permutation (map fst timings_gurobi) (report_columns "gurobi") /\
    df_nrows timings_miosqp = 8%nat /\
    Permutation (map fst timings_miosqp) (report_columns "miosqp").
Proof.
  intros Hco Hps Hr Hd Hseed.
  destruct (problem_arrays problem_set) as [[[n_arr m_arr] p_arr]|] eqn:Harr.
  - rewrite (main_block_run _ _ _ _ _ _ _ _ Harr).
    apply problem_arrays_cases in Harr as (_ & Hlen & Hwf).
    specialize (Hwf n_repeat dns seed Hr Hd Hseed).
    pose proof (solve_yields _ n_arr m_arr p_arr n_repeat dns seed "gurobi"
                  Hwf w) as Y1.
    destruct (solve _ n_arr m_arr p_arr n_repeat dns seed "gurobi" w)
      as [[tg|e1] w1] eqn:R1; simpl in Y1;
      [ | exfalso; exact (cooperative_outside e1 Hco Y1)].
    pose proof (solve_yields _ n_arr m_arr p_arr n_repeat dns seed "miosqp"
                  Hwf w1) as Y2.
    destruct (solve _ n_arr m_arr p_arr n_repeat dns seed "miosqp" w1)
      as [[tm|e2] w2] eqn:R2; simpl in Y2;
      [ | exfalso; exact (cooperative_outside e2 Hco Y2)].
    exists tg, tm, w2. split.
    + erewrite bind_step by exact R1. erewrite bind_step by exact R2.
      reflexivity.
    + pose proof (solve_ok _ _ _ _ _ _ _ _ _ _ _ R1)
        as (_ & _ & _ & _ & _ & _ & _ & _ & _ & _ & _ & N1 & _).
      pose proof (solve_ok _ _ _ _ _ _ _ _ _ _ _ R2)
        as (_ & _ & _ & _ & _ & _ & _ & _ & _ & _ & _ & N2 & _).
      rewrite Hlen in N1, N2.
      apply solve_columns in R1 as (C1 & _). apply solve_columns in R2 as (C2 & _).
      repeat split; assumption.
  - exfalso. unfold problem_arrays in Harr.
    destruct Hps as [-> | ->]; discriminate Harr.
Qed.

Lemma main_prints_both_reports_witness :
  let w := scripted_world calm 0 0 in
  cooperative (scripted calm) /\ (1 = 1 \/ 1 = 2) /\
  1 <= 10 /\ valid_density 0.6%float = true /\ 0 <= 0 < 2 ^ 32 /\
  exists timings_gurobi timings_miosqp w',
    main (E:=scripted calm) w
    = (Ok [ PrintedLine "Results GUROBI"; PrintedFrame timings_gurobi;
            PrintedLine "Results MIOSQP"; PrintedFrame timings_miosqp ], w') /\
    df_nrows timings_gurobi = 8%nat /\
    Permutation (map fst timings_gurobi) (report_columns "gurobi") /\
    df_nrows timings_miosqp = 8%nat /\
    Permutation (map fst timings_miosqp) (report_columns "miosqp").
Proof.
  intros w.
  split; [exact calm_is_cooperative | split; [left; reflexivity | ]].
  split; [lia | split; [reflexivity | split; [lia | ]]].
  apply (@main_prints_both_reports (scripted calm) 10 1 0.6%float 0 w).
  - exact calm_is_cooperative.
  - left. reflexivity.
  - lia.
  - reflexivity.
  - lia.
Defined.
